(** * The gameplay core of main.js: entity pool, performance controller
      and the run state of the main game scene

    A shallow embedding of [PerformanceManager], [ObjectPool] and of the
    gameplay handlers of [GameScene] (src/main.js), with [StorageManager],
    [PlayLimitManager] and the experience loop of [GameOverScene], followed
    by the properties of the specification that concern them and by further
    properties of the code.

    Conventions of the embedding.
    - JavaScript numbers that the code only ever uses as integers (counters,
      scores, millisecond timestamps of [Date.now()]) are [Z], exact in the
      code below 2^53.  Where the code floors a product of fractional
      numbers (the points and the currency of a catch, with the bonuses of
      the player level that enter them) the numbers are IEEE-754 doubles
      with their rounding, [Binary64].  The other fractional numbers
      (speeds, delays, the performance score, frame time) are exact
      rationals [Q], compared with [==].
    - A game object (a Phaser sprite with the ad-hoc fields the game hangs on
      it) is a record [Sprite]; objects live in a store, a list indexed by
      allocation order, and a reference to an object is its index.  The two
      arrays of a pool hold references, so that an update of an object is
      seen through every reference, as in the source.
    - JavaScript arrays are lists in array order: [push] appends at the end,
      [pop] takes the last element, [shift] the first.
    - [Date.now()], [Math.random()] and [Phaser.Math.Between] are inputs of
      the handler that calls them, one input for each call.
    - Rendering, audio, tweens, camera effects and text widgets are left out:
      they neither read nor write the run state modelled here. *)

From stdpp Require Import list strings gmap.
From Stdlib Require Import ZArith QArith Qpower Qround Qminmax Lia Lqa.
From Stdlib Require SpecFloat.

Local Open Scope Z_scope.

(** ** JavaScript numbers held as doubles

    The binary64 format of IEEE 754 and its operations, rounding to nearest
    with ties to even, as [SpecFloat] specifies them. *)

Module Binary64.

Definition float := SpecFloat.spec_float.

Definition prec : Z := 53.
Definition emax : Z := 1024.

(** The double nearest to an integer; the integer itself below 2^53. *)
Definition ofZ (z : Z) : float := SpecFloat.binary_normalize prec emax z 0 false.

Definition add : float -> float -> float := SpecFloat.SFadd prec emax.
Definition mul : float -> float -> float := SpecFloat.SFmul prec emax.
Definition div : float -> float -> float := SpecFloat.SFdiv prec emax.

(** The literal with the decimal digits [digits], the last [places] of them
    behind the point: [dec 5 2] is [0.05], [dec 15 1] is [1.5]. *)
Definition dec (digits : Z) (places : nat) : float :=
  div (ofZ digits) (ofZ (10 ^ Z.of_nat places)).

(** The integer [±m] of a finite double [±m × 2^e]. *)
Definition mantissa (s : bool) (m : positive) : Z := if s then Z.neg m else Z.pos m.

(** [Math.floor(x)] of a finite [x]; an infinity or [NaN], the floor of
    which is no integer, is given 0. *)
Definition floor (x : float) : Z :=
  match x with
  | SpecFloat.S754_finite s m e =>
      if bool_decide (0 ≤ e) then mantissa s m * 2 ^ e
      else mantissa s m / 2 ^ (- e)
  | _ => 0
  end.

(** The rational a finite double stands for. *)
Definition toQ (x : float) : Q :=
  match x with
  | SpecFloat.S754_finite s m e =>
      Qred (if bool_decide (0 ≤ e) then inject_Z (mantissa s m * 2 ^ e)
            else Qmake (mantissa s m) (Z.to_pos (2 ^ (- e))))
  | _ => 0%Q
  end.

End Binary64.

Declare Scope binary64_scope.
Delimit Scope binary64_scope with b64.
Infix "+" := Binary64.add : binary64_scope.
Infix "*" := Binary64.mul : binary64_scope.
Infix "/" := Binary64.div : binary64_scope.

(** ** Comparisons of JavaScript numbers held as rationals *)

Definition Qltb (a b : Q) : bool := negb (Qle_bool b a).
Definition Qgeb (a b : Q) : bool := Qle_bool b a.

(** ** PerformanceManager (main.js, lines 2-64) *)

Module PerformanceManager.

Record QualitySettings := mkSettings {
  particles : Q;
  effects : Q;
  shadows : bool;
  grid : bool
}.

Record t := mk {
  frameCount : Z;
  lastTime : Q;
  fps : Z;
  targetFPS : Z;
  qualityLevel : Z;
  fpsHistory : list Z;
  maxHistoryLength : nat;
  autoOptimize : bool;
  (** the ['quality-changed'] events emitted so far *)
  broadcasts : list (option QualitySettings)
}.

Definition new : t := mk 0 0 60 60 1 [] 60 true [].

Definition settings : list QualitySettings :=
  [ mkSettings 0.25 0.4 false false;
    mkSettings 0.65 0.75 true true;
    mkSettings 1.0 1.0 true true ].

(** [settings[this.qualityLevel]], [None] standing for [undefined]. *)
Definition getQualitySettings (p : t) : option QualitySettings :=
  if bool_decide (0 ≤ qualityLevel p) then settings !! Z.to_nat (qualityLevel p)
  else None.

Definition with_level (q : Z) (p : t) : t :=
  mk (frameCount p) (lastTime p) (fps p) (targetFPS p) q (fpsHistory p)
     (maxHistoryLength p) (autoOptimize p) (broadcasts p).

Definition applyQualitySettings (p : t) : t :=
  mk (frameCount p) (lastTime p) (fps p) (targetFPS p) (qualityLevel p)
     (fpsHistory p) (maxHistoryLength p) (autoOptimize p)
     (broadcasts p ++ [getQualitySettings p]).

(** [fpsHistory.reduce((a, b) => a + b, 0) / fpsHistory.length] *)
Definition mean (h : list Z) : Q :=
  (inject_Z (foldl Z.add 0%Z h) / inject_Z (Z.of_nat (length h)))%Q.

(** [adjustQuality]; on an empty history the average is [NaN] and both
    comparisons fail. *)
Definition adjustQuality (p : t) : t :=
  match fpsHistory p with
  | [] => p
  | _ =>
      let avgFPS := mean (fpsHistory p) in
      if Qltb avgFPS 40 && bool_decide (qualityLevel p > 0) then
        applyQualitySettings (with_level (qualityLevel p - 1) p)
      else if Qltb 58 avgFPS && bool_decide (qualityLevel p < 2) then
        applyQualitySettings (with_level (qualityLevel p + 1) p)
      else p
  end.

(** [update(time)] *)
Definition update (time : Q) (p : t) : t :=
  let frames := frameCount p + 1 in
  if Qgeb (time - lastTime p) 1000 then
    let pushed := fpsHistory p ++ [frames] in
    let history :=
      if bool_decide (maxHistoryLength p < length pushed)%nat
      then tail pushed else pushed in
    let p1 := mk 0 time frames (targetFPS p) (qualityLevel p) history
                 (maxHistoryLength p) (autoOptimize p) (broadcasts p) in
    if autoOptimize p1 && bool_decide (10 ≤ length history)%nat
    then adjustQuality p1 else p1
  else
    mk frames (lastTime p) (fps p) (targetFPS p) (qualityLevel p) (fpsHistory p)
       (maxHistoryLength p) (autoOptimize p) (broadcasts p).

Definition run (times : list Q) (p : t) : t := foldl (fun q time => update time q) p times.

End PerformanceManager.

(** ** Game objects *)

(** The fields of a sprite that the pools and the gameplay handlers touch.
    [itemType] is [None] for JavaScript's [null]. *)
Record Sprite := mkSprite {
  sx : Q;
  sy : Q;
  visible : bool;
  sactive : bool;
  speed : Q;
  itemType : option string;
  value : Z;
  texture : string;
  scale : Q;
  affectedByGravity : bool
}.

Definition ObjRef := nat.

Definition setActive (b : bool) (o : Sprite) : Sprite :=
  mkSprite (sx o) (sy o) (visible o) b (speed o) (itemType o) (value o)
           (texture o) (scale o) (affectedByGravity o).

Definition setVisible (b : bool) (o : Sprite) : Sprite :=
  mkSprite (sx o) (sy o) b (sactive o) (speed o) (itemType o) (value o)
           (texture o) (scale o) (affectedByGravity o).

Definition setPosition (x y : Q) (o : Sprite) : Sprite :=
  mkSprite x y (visible o) (sactive o) (speed o) (itemType o) (value o)
           (texture o) (scale o) (affectedByGravity o).

Definition setTexture (t : string) (o : Sprite) : Sprite :=
  mkSprite (sx o) (sy o) (visible o) (sactive o) (speed o) (itemType o) (value o)
           t (scale o) (affectedByGravity o).

Definition setScale (k : Q) (o : Sprite) : Sprite :=
  mkSprite (sx o) (sy o) (visible o) (sactive o) (speed o) (itemType o) (value o)
           (texture o) k (affectedByGravity o).

Definition setSpeed (v : Q) (o : Sprite) : Sprite :=
  mkSprite (sx o) (sy o) (visible o) (sactive o) v (itemType o) (value o)
           (texture o) (scale o) (affectedByGravity o).

Definition setItemType (t : option string) (o : Sprite) : Sprite :=
  mkSprite (sx o) (sy o) (visible o) (sactive o) (speed o) t (value o)
           (texture o) (scale o) (affectedByGravity o).

Definition setValue (v : Z) (o : Sprite) : Sprite :=
  mkSprite (sx o) (sy o) (visible o) (sactive o) (speed o) (itemType o) v
           (texture o) (scale o) (affectedByGravity o).

Definition setAffectedByGravity (b : bool) (o : Sprite) : Sprite :=
  mkSprite (sx o) (sy o) (visible o) (sactive o) (speed o) (itemType o) (value o)
           (texture o) (scale o) b.

(** [this.add.sprite(0, 0, texture).setVisible(false)]: a new sprite is
    active, of scale 1, and carries none of the game's own fields yet. *)
Definition newSprite (t : string) : Sprite :=
  setVisible false (mkSprite 0 0 true true 0 None 0 t 1 false).

(** The reset function of the item pool ([setupObjectPools]):
    [Object.assign(item, {x: 0, y: -100, visible: false, speed: 0,
    itemType: null, value: 0})]. *)
Definition resetItem (item : Sprite) : Sprite :=
  mkSprite 0 (-100) false (sactive item) 0 None 0
           (texture item) (scale item) (affectedByGravity item).

(** ** ObjectPool (main.js, lines 65-163) *)

Module ObjectPool.

(** One diagnostic: the [console.warn] line and the ['pool-warning'] event
    of [reportCapacityWarning], with the metrics it carries. *)
Record Warning := mkWarning {
  w_time : Z;
  w_message : string;
  w_active : nat;
  w_pooled : nat;
  w_created : Z;
  w_max : Z
}.

Record t := mk {
  store : list Sprite;
  createFunc : Sprite;
  resetFunc : Sprite -> Sprite;
  pool : list ObjRef;
  active : list ObjRef;
  totalCreated : Z;
  lastWarningTime : Z;
  warningInterval : Z;
  maxCapacity : Z;
  warnings : list Warning
}.

Definition with_store (h : list Sprite) (p : t) : t :=
  mk h (createFunc p) (resetFunc p) (pool p) (active p) (totalCreated p)
     (lastWarningTime p) (warningInterval p) (maxCapacity p) (warnings p).

Definition with_pool (l : list ObjRef) (p : t) : t :=
  mk (store p) (createFunc p) (resetFunc p) l (active p) (totalCreated p)
     (lastWarningTime p) (warningInterval p) (maxCapacity p) (warnings p).

Definition with_active (l : list ObjRef) (p : t) : t :=
  mk (store p) (createFunc p) (resetFunc p) (pool p) l (totalCreated p)
     (lastWarningTime p) (warningInterval p) (maxCapacity p) (warnings p).

Definition with_totalCreated (n : Z) (p : t) : t :=
  mk (store p) (createFunc p) (resetFunc p) (pool p) (active p) n
     (lastWarningTime p) (warningInterval p) (maxCapacity p) (warnings p).

(** [obj.f(...)] on the object a reference points to. *)
Definition update_obj (f : Sprite -> Sprite) (o : ObjRef) (p : t) : t :=
  with_store (alter f o (store p)) p.

(** [createManagedObject]: the factory builds a new object, which gets the
    next free place of the store. *)
Definition createManagedObject (p : t) : ObjRef * t :=
  let obj := length (store p) in
  (obj, with_totalCreated (totalCreated p + 1)
          (with_store (store p ++ [createFunc p]) p)).

Definition hasCapacityAvailable (p : t) : bool :=
  bool_decide (Z.of_nat (length (active p)) + Z.of_nat (length (pool p)) < maxCapacity p).

(** [reportCapacityWarning(message)], [now] being its [Date.now()]. *)
Definition reportCapacityWarning (message : string) (now : Z) (p : t) : t :=
  if bool_decide (now - lastWarningTime p < warningInterval p) then p
  else
    mk (store p) (createFunc p) (resetFunc p) (pool p) (active p) (totalCreated p)
       now (warningInterval p) (maxCapacity p)
       (warnings p ++
          [mkWarning now message (length (active p)) (length (pool p))
                     (totalCreated p) (maxCapacity p)]).

(** [recycleOldest]: [shift] the head of [active]; [null] when there is
    none. *)
Definition recycleOldest (p : t) : option ObjRef * t :=
  match active p with
  | [] => (None, p)
  | oldest :: rest =>
      let p1 := with_active rest p in
      let p2 := update_obj (setActive false) oldest p1 in
      let p3 := update_obj (setVisible false) oldest p2 in
      let p4 := update_obj (resetFunc p) oldest p3 in
      (Some oldest, p4)
  end.

(** [get()]; [now1] and [now2] are the clock readings of its first and
    second call of [reportCapacityWarning]. *)
Definition get (now1 now2 : Z) (p : t) : ObjRef * t :=
  let '(obj, p1) :=
    match last (pool p) with
    | Some o => (Some o, with_pool (removelast (pool p)) p)
    | None =>
        if hasCapacityAvailable p then
          let '(o, p') := createManagedObject p in (Some o, p')
        else
          let '(r, p') := recycleOldest p in
          (r, reportCapacityWarning "Pool at capacity; recycling oldest object." now1 p')
    end in
  let '(obj, p2) :=
    match obj with
    | Some o => (o, p1)
    | None =>
        let '(o, p') := createManagedObject p1 in
        (o, reportCapacityWarning
              "Pool exceeded capacity; allocating additional object." now2 p')
    end in
  let p3 := update_obj (setActive true) obj p2 in
  let p4 := update_obj (setVisible true) obj p3 in
  (obj, with_active (active p4 ++ [obj]) p4).

(** [Array.prototype.indexOf]: the first position of [o], or [-1]
    ([None]). *)
Fixpoint indexOf (o : ObjRef) (l : list ObjRef) : option nat :=
  match l with
  | [] => None
  | h :: rest => if decide (h = o) then Some 0%nat else S <$> indexOf o rest
  end.

(** [release(obj)] *)
Definition release (obj : ObjRef) (p : t) : t :=
  match indexOf obj (active p) with
  | Some index =>
      let p1 := with_active (delete index (active p)) p in
      let p2 := update_obj (resetFunc p) obj p1 in
      let p3 := update_obj (setActive false) obj p2 in
      let p4 := update_obj (setVisible false) obj p3 in
      with_pool (pool p4 ++ [obj]) p4
  | None => p
  end.

(** [clear()]: the objects are destroyed and both arrays are replaced by
    new, empty ones. *)
Definition clear (p : t) : t :=
  with_totalCreated 0 (with_pool [] (with_active [] p)).

(** The constructor's loop: [n] objects built and parked in [pool]. *)
Fixpoint prefill (n : nat) (p : t) : t :=
  match n with
  | O => p
  | S k =>
      let '(obj, p1) := createManagedObject p in
      let p2 := update_obj (setActive false) obj p1 in
      let p3 := update_obj (setVisible false) obj p2 in
      prefill k (with_pool (pool p3 ++ [obj]) p3)
  end.

(** [new ObjectPool(scene, createFunc, resetFunc, initialSize, maxCapacity,
    key)]; [maxCapacity] is [None] when the argument is not a number. *)
Definition new (create : Sprite) (reset : Sprite -> Sprite)
           (initialSize : Z) (maxCap : option Z) : t :=
  let cap := match maxCap with Some m => m | None => initialSize * 2 end in
  let initialCount := Z.min initialSize cap in
  prefill (Z.to_nat initialCount)
          (mk [] create reset [] [] 0 0 2000 cap []).

Definition getMetrics (p : t) : Z * nat * nat * Z :=
  (totalCreated p, length (active p), length (pool p), maxCapacity p).

(** A call of the pool's interface, with the clock readings it may take. *)
Inductive call :=
| Get (now1 now2 : Z)
| Release (obj : ObjRef).

Definition exec (c : call) (p : t) : t :=
  match c with
  | Get now1 now2 => snd (get now1 now2 p)
  | Release obj => release obj p
  end.

Definition run (cs : list call) (p : t) : t := foldl (fun q c => exec c q) p cs.

End ObjectPool.

(** ** LevelingSystem.getStatBonuses (main.js, lines 414-562) *)

Module LevelingSystem.

Import Binary64.

Record Perk := mkPerk { perkType : string; perkValue : float }.

Definition perkAt (threshold : Z) (type : string) (v : float) (level : Z)
    : list Perk :=
  if bool_decide (level >= threshold) then [mkPerk type v] else [].

(** [getLevelPerks(level)], names and descriptions left out; the values are
    the literals [0.05], [0.10], [1], [0.25] and [0.15]. *)
Definition getLevelPerks (level : Z) : list Perk :=
  perkAt 3 "speed" (dec 5 2) level ++ perkAt 5 "xp" (dec 10 2) level
  ++ perkAt 7 "currency" (dec 5 2) level ++ perkAt 10 "speed" (dec 5 2) level
  ++ perkAt 12 "shield" (ofZ 1) level ++ perkAt 15 "xp" (dec 10 2) level
  ++ perkAt 17 "currency" (dec 5 2) level ++ perkAt 20 "speed" (dec 5 2) level
  ++ perkAt 22 "combo" (dec 25 2) level ++ perkAt 25 "master" (dec 15 2) level
  ++ perkAt 30 "legendary" (dec 25 2) level.

Record Bonuses := mkBonuses {
  speedMultiplier : float;
  xpMultiplier : float;
  currencyMultiplier : float;
  shieldBonus : float;
  comboMultiplier : float
}.

Definition perkIs (perk : Perk) (type : string) : bool :=
  bool_decide (perkType perk = type).

(** The body of the [forEach] of [getStatBonuses]. *)
Definition addPerk (b : Bonuses) (perk : Perk) : Bonuses :=
  let v := perkValue perk in
  let b := if perkIs perk "speed" then
    mkBonuses (speedMultiplier b + v)%b64 (xpMultiplier b) (currencyMultiplier b)
              (shieldBonus b) (comboMultiplier b) else b in
  let b := if perkIs perk "xp" then
    mkBonuses (speedMultiplier b) (xpMultiplier b + v)%b64 (currencyMultiplier b)
              (shieldBonus b) (comboMultiplier b) else b in
  let b := if perkIs perk "currency" then
    mkBonuses (speedMultiplier b) (xpMultiplier b)
              (currencyMultiplier b + v)%b64
              (shieldBonus b) (comboMultiplier b) else b in
  let b := if perkIs perk "shield" then
    mkBonuses (speedMultiplier b) (xpMultiplier b) (currencyMultiplier b)
              (shieldBonus b + v)%b64 (comboMultiplier b) else b in
  let b := if perkIs perk "combo" then
    mkBonuses (speedMultiplier b) (xpMultiplier b) (currencyMultiplier b)
              (shieldBonus b) (comboMultiplier b + v)%b64 else b in
  let b := if perkIs perk "master" then
    mkBonuses (speedMultiplier b + v)%b64 (xpMultiplier b)
              (currencyMultiplier b + v)%b64
              (shieldBonus b) (comboMultiplier b + v)%b64 else b in
  if perkIs perk "legendary" then
    mkBonuses (speedMultiplier b + v)%b64 (xpMultiplier b + v)%b64
              (currencyMultiplier b + v)%b64
              (shieldBonus b) (comboMultiplier b + v)%b64 else b.

Definition getStatBonuses (level : Z) : Bonuses :=
  foldl addPerk (mkBonuses (ofZ 1) (ofZ 1) (ofZ 1) (ofZ 0) (ofZ 1))
        (getLevelPerks level).

End LevelingSystem.

(** ** GameScene (main.js, lines 5783-7634): run state and handlers *)

Module GameScene.

(** An entry of [recentCatches]. *)
Record Catch := mkCatch { c_time : Z; c_value : Z }.

(** The callbacks handed to [time.delayedCall] that write the run state. *)
Inductive TimerAction :=
| RestoreItemSpeed (originalSpeed : Q)
| ResetScoreMultiplier
| EndGlitch
| EndVirus
| EndOvercharge
| EndChaosMode
| ExpirePowerup (name : string).

(** Values the handlers read from outside the run state: the stored
    difficulty and player level, the equipped utility gear and the width
    of the camera. *)
Record Env := mkEnv {
  difficulty : string;
  playerLevel : Z;
  gearUtility : option string;
  cameraWidth : Z
}.

Record t := mk {
  score : Z;
  level : Z;
  lives : Z;
  combo : Z;
  maxCombo : Z;
  goldCaught : Z;
  bombsDestroyed : Z;
  perfectStreak : Z;
  itemsCaught : Z;
  earnedCurrency : Z;
  scoreMultiplier : Z;
  overcharge : Z;
  missedItems : Z;
  itemSpeed : Q;
  spawnRate : Q;
  performanceScore : Q;
  missStreak : Z;
  isChaosMode : bool;
  glitchActive : bool;
  virusActive : bool;
  overchargeActive : bool;
  controlsReversed : bool;
  activePowerups : gset string;
  shieldUses : Q;
  recentCatches : list Catch;
  lastCatchTime : option Z;
  (** [spawnTimer.delay] *)
  spawnTimerDelay : Q;
  (** the [time.delayedCall]s not yet fired, with their delays *)
  pendingCalls : list (Z * TimerAction);
  itemPool : ObjectPool.t;
  (** [this.items]: [None] while it is the array [itemPool.active]
      itself, [Some l] once [clear()] has given the pool a new array *)
  detachedItems : option (list ObjRef);
  performanceManager : PerformanceManager.t;
  (** what the handlers read from storage and from the camera *)
  env : Env;
  (** [gameOver()] has started [GameOverScene] *)
  sceneOver : bool
}.

(** Field updates. *)
Definition set_score (v : Z) (s : t) : t :=
  mk v (level s) (lives s) (combo s) (maxCombo s) (goldCaught s)
     (bombsDestroyed s) (perfectStreak s) (itemsCaught s) (earnedCurrency s)
     (scoreMultiplier s) (overcharge s) (missedItems s) (itemSpeed s)
     (spawnRate s) (performanceScore s) (missStreak s) (isChaosMode s)
     (glitchActive s) (virusActive s) (overchargeActive s)
     (controlsReversed s) (activePowerups s) (shieldUses s)
     (recentCatches s) (lastCatchTime s) (spawnTimerDelay s)
     (pendingCalls s) (itemPool s) (detachedItems s) (performanceManager s)
     (env s) (sceneOver s).

Definition set_level (v : Z) (s : t) : t :=
  mk (score s) v (lives s) (combo s) (maxCombo s) (goldCaught s)
     (bombsDestroyed s) (perfectStreak s) (itemsCaught s) (earnedCurrency s)
     (scoreMultiplier s) (overcharge s) (missedItems s) (itemSpeed s)
     (spawnRate s) (performanceScore s) (missStreak s) (isChaosMode s)
     (glitchActive s) (virusActive s) (overchargeActive s)
     (controlsReversed s) (activePowerups s) (shieldUses s)
     (recentCatches s) (lastCatchTime s) (spawnTimerDelay s)
     (pendingCalls s) (itemPool s) (detachedItems s) (performanceManager s)
     (env s) (sceneOver s).

Definition set_lives (v : Z) (s : t) : t :=
  mk (score s) (level s) v (combo s) (maxCombo s) (goldCaught s)
     (bombsDestroyed s) (perfectStreak s) (itemsCaught s) (earnedCurrency s)
     (scoreMultiplier s) (overcharge s) (missedItems s) (itemSpeed s)
     (spawnRate s) (performanceScore s) (missStreak s) (isChaosMode s)
     (glitchActive s) (virusActive s) (overchargeActive s)
     (controlsReversed s) (activePowerups s) (shieldUses s)
     (recentCatches s) (lastCatchTime s) (spawnTimerDelay s)
     (pendingCalls s) (itemPool s) (detachedItems s) (performanceManager s)
     (env s) (sceneOver s).

Definition set_combo (v : Z) (s : t) : t :=
  mk (score s) (level s) (lives s) v (maxCombo s) (goldCaught s)
     (bombsDestroyed s) (perfectStreak s) (itemsCaught s) (earnedCurrency s)
     (scoreMultiplier s) (overcharge s) (missedItems s) (itemSpeed s)
     (spawnRate s) (performanceScore s) (missStreak s) (isChaosMode s)
     (glitchActive s) (virusActive s) (overchargeActive s)
     (controlsReversed s) (activePowerups s) (shieldUses s)
     (recentCatches s) (lastCatchTime s) (spawnTimerDelay s)
     (pendingCalls s) (itemPool s) (detachedItems s) (performanceManager s)
     (env s) (sceneOver s).

Definition set_maxCombo (v : Z) (s : t) : t :=
  mk (score s) (level s) (lives s) (combo s) v (goldCaught s)
     (bombsDestroyed s) (perfectStreak s) (itemsCaught s) (earnedCurrency s)
     (scoreMultiplier s) (overcharge s) (missedItems s) (itemSpeed s)
     (spawnRate s) (performanceScore s) (missStreak s) (isChaosMode s)
     (glitchActive s) (virusActive s) (overchargeActive s)
     (controlsReversed s) (activePowerups s) (shieldUses s)
     (recentCatches s) (lastCatchTime s) (spawnTimerDelay s)
     (pendingCalls s) (itemPool s) (detachedItems s) (performanceManager s)
     (env s) (sceneOver s).

Definition set_goldCaught (v : Z) (s : t) : t :=
  mk (score s) (level s) (lives s) (combo s) (maxCombo s) v
     (bombsDestroyed s) (perfectStreak s) (itemsCaught s) (earnedCurrency s)
     (scoreMultiplier s) (overcharge s) (missedItems s) (itemSpeed s)
     (spawnRate s) (performanceScore s) (missStreak s) (isChaosMode s)
     (glitchActive s) (virusActive s) (overchargeActive s)
     (controlsReversed s) (activePowerups s) (shieldUses s)
     (recentCatches s) (lastCatchTime s) (spawnTimerDelay s)
     (pendingCalls s) (itemPool s) (detachedItems s) (performanceManager s)
     (env s) (sceneOver s).

Definition set_bombsDestroyed (v : Z) (s : t) : t :=
  mk (score s) (level s) (lives s) (combo s) (maxCombo s) (goldCaught s) v
     (perfectStreak s) (itemsCaught s) (earnedCurrency s)
     (scoreMultiplier s) (overcharge s) (missedItems s) (itemSpeed s)
     (spawnRate s) (performanceScore s) (missStreak s) (isChaosMode s)
     (glitchActive s) (virusActive s) (overchargeActive s)
     (controlsReversed s) (activePowerups s) (shieldUses s)
     (recentCatches s) (lastCatchTime s) (spawnTimerDelay s)
     (pendingCalls s) (itemPool s) (detachedItems s) (performanceManager s)
     (env s) (sceneOver s).

Definition set_perfectStreak (v : Z) (s : t) : t :=
  mk (score s) (level s) (lives s) (combo s) (maxCombo s) (goldCaught s)
     (bombsDestroyed s) v (itemsCaught s) (earnedCurrency s)
     (scoreMultiplier s) (overcharge s) (missedItems s) (itemSpeed s)
     (spawnRate s) (performanceScore s) (missStreak s) (isChaosMode s)
     (glitchActive s) (virusActive s) (overchargeActive s)
     (controlsReversed s) (activePowerups s) (shieldUses s)
     (recentCatches s) (lastCatchTime s) (spawnTimerDelay s)
     (pendingCalls s) (itemPool s) (detachedItems s) (performanceManager s)
     (env s) (sceneOver s).

Definition set_itemsCaught (v : Z) (s : t) : t :=
  mk (score s) (level s) (lives s) (combo s) (maxCombo s) (goldCaught s)
     (bombsDestroyed s) (perfectStreak s) v (earnedCurrency s)
     (scoreMultiplier s) (overcharge s) (missedItems s) (itemSpeed s)
     (spawnRate s) (performanceScore s) (missStreak s) (isChaosMode s)
     (glitchActive s) (virusActive s) (overchargeActive s)
     (controlsReversed s) (activePowerups s) (shieldUses s)
     (recentCatches s) (lastCatchTime s) (spawnTimerDelay s)
     (pendingCalls s) (itemPool s) (detachedItems s) (performanceManager s)
     (env s) (sceneOver s).

Definition set_earnedCurrency (v : Z) (s : t) : t :=
  mk (score s) (level s) (lives s) (combo s) (maxCombo s) (goldCaught s)
     (bombsDestroyed s) (perfectStreak s) (itemsCaught s) v
     (scoreMultiplier s) (overcharge s) (missedItems s) (itemSpeed s)
     (spawnRate s) (performanceScore s) (missStreak s) (isChaosMode s)
     (glitchActive s) (virusActive s) (overchargeActive s)
     (controlsReversed s) (activePowerups s) (shieldUses s)
     (recentCatches s) (lastCatchTime s) (spawnTimerDelay s)
     (pendingCalls s) (itemPool s) (detachedItems s) (performanceManager s)
     (env s) (sceneOver s).

Definition set_scoreMultiplier (v : Z) (s : t) : t :=
  mk (score s) (level s) (lives s) (combo s) (maxCombo s) (goldCaught s)
     (bombsDestroyed s) (perfectStreak s) (itemsCaught s) (earnedCurrency s)
     v (overcharge s) (missedItems s) (itemSpeed s) (spawnRate s)
     (performanceScore s) (missStreak s) (isChaosMode s) (glitchActive s)
     (virusActive s) (overchargeActive s) (controlsReversed s)
     (activePowerups s) (shieldUses s) (recentCatches s) (lastCatchTime s)
     (spawnTimerDelay s) (pendingCalls s) (itemPool s) (detachedItems s)
     (performanceManager s) (env s) (sceneOver s).

Definition set_overcharge (v : Z) (s : t) : t :=
  mk (score s) (level s) (lives s) (combo s) (maxCombo s) (goldCaught s)
     (bombsDestroyed s) (perfectStreak s) (itemsCaught s) (earnedCurrency s)
     (scoreMultiplier s) v (missedItems s) (itemSpeed s) (spawnRate s)
     (performanceScore s) (missStreak s) (isChaosMode s) (glitchActive s)
     (virusActive s) (overchargeActive s) (controlsReversed s)
     (activePowerups s) (shieldUses s) (recentCatches s) (lastCatchTime s)
     (spawnTimerDelay s) (pendingCalls s) (itemPool s) (detachedItems s)
     (performanceManager s) (env s) (sceneOver s).

Definition set_missedItems (v : Z) (s : t) : t :=
  mk (score s) (level s) (lives s) (combo s) (maxCombo s) (goldCaught s)
     (bombsDestroyed s) (perfectStreak s) (itemsCaught s) (earnedCurrency s)
     (scoreMultiplier s) (overcharge s) v (itemSpeed s) (spawnRate s)
     (performanceScore s) (missStreak s) (isChaosMode s) (glitchActive s)
     (virusActive s) (overchargeActive s) (controlsReversed s)
     (activePowerups s) (shieldUses s) (recentCatches s) (lastCatchTime s)
     (spawnTimerDelay s) (pendingCalls s) (itemPool s) (detachedItems s)
     (performanceManager s) (env s) (sceneOver s).

Definition set_itemSpeed (v : Q) (s : t) : t :=
  mk (score s) (level s) (lives s) (combo s) (maxCombo s) (goldCaught s)
     (bombsDestroyed s) (perfectStreak s) (itemsCaught s) (earnedCurrency s)
     (scoreMultiplier s) (overcharge s) (missedItems s) v (spawnRate s)
     (performanceScore s) (missStreak s) (isChaosMode s) (glitchActive s)
     (virusActive s) (overchargeActive s) (controlsReversed s)
     (activePowerups s) (shieldUses s) (recentCatches s) (lastCatchTime s)
     (spawnTimerDelay s) (pendingCalls s) (itemPool s) (detachedItems s)
     (performanceManager s) (env s) (sceneOver s).

Definition set_spawnRate (v : Q) (s : t) : t :=
  mk (score s) (level s) (lives s) (combo s) (maxCombo s) (goldCaught s)
     (bombsDestroyed s) (perfectStreak s) (itemsCaught s) (earnedCurrency s)
     (scoreMultiplier s) (overcharge s) (missedItems s) (itemSpeed s) v
     (performanceScore s) (missStreak s) (isChaosMode s) (glitchActive s)
     (virusActive s) (overchargeActive s) (controlsReversed s)
     (activePowerups s) (shieldUses s) (recentCatches s) (lastCatchTime s)
     (spawnTimerDelay s) (pendingCalls s) (itemPool s) (detachedItems s)
     (performanceManager s) (env s) (sceneOver s).

Definition set_performanceScore (v : Q) (s : t) : t :=
  mk (score s) (level s) (lives s) (combo s) (maxCombo s) (goldCaught s)
     (bombsDestroyed s) (perfectStreak s) (itemsCaught s) (earnedCurrency s)
     (scoreMultiplier s) (overcharge s) (missedItems s) (itemSpeed s)
     (spawnRate s) v (missStreak s) (isChaosMode s) (glitchActive s)
     (virusActive s) (overchargeActive s) (controlsReversed s)
     (activePowerups s) (shieldUses s) (recentCatches s) (lastCatchTime s)
     (spawnTimerDelay s) (pendingCalls s) (itemPool s) (detachedItems s)
     (performanceManager s) (env s) (sceneOver s).

Definition set_missStreak (v : Z) (s : t) : t :=
  mk (score s) (level s) (lives s) (combo s) (maxCombo s) (goldCaught s)
     (bombsDestroyed s) (perfectStreak s) (itemsCaught s) (earnedCurrency s)
     (scoreMultiplier s) (overcharge s) (missedItems s) (itemSpeed s)
     (spawnRate s) (performanceScore s) v (isChaosMode s) (glitchActive s)
     (virusActive s) (overchargeActive s) (controlsReversed s)
     (activePowerups s) (shieldUses s) (recentCatches s) (lastCatchTime s)
     (spawnTimerDelay s) (pendingCalls s) (itemPool s) (detachedItems s)
     (performanceManager s) (env s) (sceneOver s).

Definition set_isChaosMode (v : bool) (s : t) : t :=
  mk (score s) (level s) (lives s) (combo s) (maxCombo s) (goldCaught s)
     (bombsDestroyed s) (perfectStreak s) (itemsCaught s) (earnedCurrency s)
     (scoreMultiplier s) (overcharge s) (missedItems s) (itemSpeed s)
     (spawnRate s) (performanceScore s) (missStreak s) v (glitchActive s)
     (virusActive s) (overchargeActive s) (controlsReversed s)
     (activePowerups s) (shieldUses s) (recentCatches s) (lastCatchTime s)
     (spawnTimerDelay s) (pendingCalls s) (itemPool s) (detachedItems s)
     (performanceManager s) (env s) (sceneOver s).

Definition set_glitchActive (v : bool) (s : t) : t :=
  mk (score s) (level s) (lives s) (combo s) (maxCombo s) (goldCaught s)
     (bombsDestroyed s) (perfectStreak s) (itemsCaught s) (earnedCurrency s)
     (scoreMultiplier s) (overcharge s) (missedItems s) (itemSpeed s)
     (spawnRate s) (performanceScore s) (missStreak s) (isChaosMode s) v
     (virusActive s) (overchargeActive s) (controlsReversed s)
     (activePowerups s) (shieldUses s) (recentCatches s) (lastCatchTime s)
     (spawnTimerDelay s) (pendingCalls s) (itemPool s) (detachedItems s)
     (performanceManager s) (env s) (sceneOver s).

Definition set_virusActive (v : bool) (s : t) : t :=
  mk (score s) (level s) (lives s) (combo s) (maxCombo s) (goldCaught s)
     (bombsDestroyed s) (perfectStreak s) (itemsCaught s) (earnedCurrency s)
     (scoreMultiplier s) (overcharge s) (missedItems s) (itemSpeed s)
     (spawnRate s) (performanceScore s) (missStreak s) (isChaosMode s)
     (glitchActive s) v (overchargeActive s) (controlsReversed s)
     (activePowerups s) (shieldUses s) (recentCatches s) (lastCatchTime s)
     (spawnTimerDelay s) (pendingCalls s) (itemPool s) (detachedItems s)
     (performanceManager s) (env s) (sceneOver s).

Definition set_overchargeActive (v : bool) (s : t) : t :=
  mk (score s) (level s) (lives s) (combo s) (maxCombo s) (goldCaught s)
     (bombsDestroyed s) (perfectStreak s) (itemsCaught s) (earnedCurrency s)
     (scoreMultiplier s) (overcharge s) (missedItems s) (itemSpeed s)
     (spawnRate s) (performanceScore s) (missStreak s) (isChaosMode s)
     (glitchActive s) (virusActive s) v (controlsReversed s)
     (activePowerups s) (shieldUses s) (recentCatches s) (lastCatchTime s)
     (spawnTimerDelay s) (pendingCalls s) (itemPool s) (detachedItems s)
     (performanceManager s) (env s) (sceneOver s).

Definition set_controlsReversed (v : bool) (s : t) : t :=
  mk (score s) (level s) (lives s) (combo s) (maxCombo s) (goldCaught s)
     (bombsDestroyed s) (perfectStreak s) (itemsCaught s) (earnedCurrency s)
     (scoreMultiplier s) (overcharge s) (missedItems s) (itemSpeed s)
     (spawnRate s) (performanceScore s) (missStreak s) (isChaosMode s)
     (glitchActive s) (virusActive s) (overchargeActive s) v
     (activePowerups s) (shieldUses s) (recentCatches s) (lastCatchTime s)
     (spawnTimerDelay s) (pendingCalls s) (itemPool s) (detachedItems s)
     (performanceManager s) (env s) (sceneOver s).

Definition set_activePowerups (v : gset string) (s : t) : t :=
  mk (score s) (level s) (lives s) (combo s) (maxCombo s) (goldCaught s)
     (bombsDestroyed s) (perfectStreak s) (itemsCaught s) (earnedCurrency s)
     (scoreMultiplier s) (overcharge s) (missedItems s) (itemSpeed s)
     (spawnRate s) (performanceScore s) (missStreak s) (isChaosMode s)
     (glitchActive s) (virusActive s) (overchargeActive s)
     (controlsReversed s) v (shieldUses s) (recentCatches s)
     (lastCatchTime s) (spawnTimerDelay s) (pendingCalls s) (itemPool s)
     (detachedItems s) (performanceManager s) (env s) (sceneOver s).

Definition set_shieldUses (v : Q) (s : t) : t :=
  mk (score s) (level s) (lives s) (combo s) (maxCombo s) (goldCaught s)
     (bombsDestroyed s) (perfectStreak s) (itemsCaught s) (earnedCurrency s)
     (scoreMultiplier s) (overcharge s) (missedItems s) (itemSpeed s)
     (spawnRate s) (performanceScore s) (missStreak s) (isChaosMode s)
     (glitchActive s) (virusActive s) (overchargeActive s)
     (controlsReversed s) (activePowerups s) v (recentCatches s)
     (lastCatchTime s) (spawnTimerDelay s) (pendingCalls s) (itemPool s)
     (detachedItems s) (performanceManager s) (env s) (sceneOver s).

Definition set_recentCatches (v : list Catch) (s : t) : t :=
  mk (score s) (level s) (lives s) (combo s) (maxCombo s) (goldCaught s)
     (bombsDestroyed s) (perfectStreak s) (itemsCaught s) (earnedCurrency s)
     (scoreMultiplier s) (overcharge s) (missedItems s) (itemSpeed s)
     (spawnRate s) (performanceScore s) (missStreak s) (isChaosMode s)
     (glitchActive s) (virusActive s) (overchargeActive s)
     (controlsReversed s) (activePowerups s) (shieldUses s) v
     (lastCatchTime s) (spawnTimerDelay s) (pendingCalls s) (itemPool s)
     (detachedItems s) (performanceManager s) (env s) (sceneOver s).

Definition set_lastCatchTime (v : option Z) (s : t) : t :=
  mk (score s) (level s) (lives s) (combo s) (maxCombo s) (goldCaught s)
     (bombsDestroyed s) (perfectStreak s) (itemsCaught s) (earnedCurrency s)
     (scoreMultiplier s) (overcharge s) (missedItems s) (itemSpeed s)
     (spawnRate s) (performanceScore s) (missStreak s) (isChaosMode s)
     (glitchActive s) (virusActive s) (overchargeActive s)
     (controlsReversed s) (activePowerups s) (shieldUses s)
     (recentCatches s) v (spawnTimerDelay s) (pendingCalls s) (itemPool s)
     (detachedItems s) (performanceManager s) (env s) (sceneOver s).

Definition set_spawnTimerDelay (v : Q) (s : t) : t :=
  mk (score s) (level s) (lives s) (combo s) (maxCombo s) (goldCaught s)
     (bombsDestroyed s) (perfectStreak s) (itemsCaught s) (earnedCurrency s)
     (scoreMultiplier s) (overcharge s) (missedItems s) (itemSpeed s)
     (spawnRate s) (performanceScore s) (missStreak s) (isChaosMode s)
     (glitchActive s) (virusActive s) (overchargeActive s)
     (controlsReversed s) (activePowerups s) (shieldUses s)
     (recentCatches s) (lastCatchTime s) v (pendingCalls s) (itemPool s)
     (detachedItems s) (performanceManager s) (env s) (sceneOver s).

Definition set_pendingCalls (v : list (Z * TimerAction)) (s : t) : t :=
  mk (score s) (level s) (lives s) (combo s) (maxCombo s) (goldCaught s)
     (bombsDestroyed s) (perfectStreak s) (itemsCaught s) (earnedCurrency s)
     (scoreMultiplier s) (overcharge s) (missedItems s) (itemSpeed s)
     (spawnRate s) (performanceScore s) (missStreak s) (isChaosMode s)
     (glitchActive s) (virusActive s) (overchargeActive s)
     (controlsReversed s) (activePowerups s) (shieldUses s)
     (recentCatches s) (lastCatchTime s) (spawnTimerDelay s) v (itemPool s)
     (detachedItems s) (performanceManager s) (env s) (sceneOver s).

Definition set_itemPool (v : ObjectPool.t) (s : t) : t :=
  mk (score s) (level s) (lives s) (combo s) (maxCombo s) (goldCaught s)
     (bombsDestroyed s) (perfectStreak s) (itemsCaught s) (earnedCurrency s)
     (scoreMultiplier s) (overcharge s) (missedItems s) (itemSpeed s)
     (spawnRate s) (performanceScore s) (missStreak s) (isChaosMode s)
     (glitchActive s) (virusActive s) (overchargeActive s)
     (controlsReversed s) (activePowerups s) (shieldUses s)
     (recentCatches s) (lastCatchTime s) (spawnTimerDelay s)
     (pendingCalls s) v (detachedItems s) (performanceManager s) (env s)
     (sceneOver s).

Definition set_detachedItems (v : option (list ObjRef)) (s : t) : t :=
  mk (score s) (level s) (lives s) (combo s) (maxCombo s) (goldCaught s)
     (bombsDestroyed s) (perfectStreak s) (itemsCaught s) (earnedCurrency s)
     (scoreMultiplier s) (overcharge s) (missedItems s) (itemSpeed s)
     (spawnRate s) (performanceScore s) (missStreak s) (isChaosMode s)
     (glitchActive s) (virusActive s) (overchargeActive s)
     (controlsReversed s) (activePowerups s) (shieldUses s)
     (recentCatches s) (lastCatchTime s) (spawnTimerDelay s)
     (pendingCalls s) (itemPool s) v (performanceManager s) (env s)
     (sceneOver s).

Definition set_performanceManager (v : PerformanceManager.t) (s : t) : t :=
  mk (score s) (level s) (lives s) (combo s) (maxCombo s) (goldCaught s)
     (bombsDestroyed s) (perfectStreak s) (itemsCaught s) (earnedCurrency s)
     (scoreMultiplier s) (overcharge s) (missedItems s) (itemSpeed s)
     (spawnRate s) (performanceScore s) (missStreak s) (isChaosMode s)
     (glitchActive s) (virusActive s) (overchargeActive s)
     (controlsReversed s) (activePowerups s) (shieldUses s)
     (recentCatches s) (lastCatchTime s) (spawnTimerDelay s)
     (pendingCalls s) (itemPool s) (detachedItems s) v (env s) (sceneOver s).

Definition set_sceneOver (v : bool) (s : t) : t :=
  mk (score s) (level s) (lives s) (combo s) (maxCombo s) (goldCaught s)
     (bombsDestroyed s) (perfectStreak s) (itemsCaught s) (earnedCurrency s)
     (scoreMultiplier s) (overcharge s) (missedItems s) (itemSpeed s)
     (spawnRate s) (performanceScore s) (missStreak s) (isChaosMode s)
     (glitchActive s) (virusActive s) (overchargeActive s)
     (controlsReversed s) (activePowerups s) (shieldUses s)
     (recentCatches s) (lastCatchTime s) (spawnTimerDelay s)
     (pendingCalls s) (itemPool s) (detachedItems s) (performanceManager s)
     (env s) v.

(** [this.items], an alias of [itemPool.active] set up by [create]. *)
Definition items (s : t) : list ObjRef :=
  match detachedItems s with
  | Some l => l
  | None => ObjectPool.active (itemPool s)
  end.

Definition delayedCall (delay : Z) (a : TimerAction) (s : t) : t :=
  set_pendingCalls (pendingCalls s ++ [(delay, a)]) s.

(** [this.getPool('items').release(item)] *)
Definition releaseItem (item : ObjRef) (s : t) : t :=
  set_itemPool (ObjectPool.release item (itemPool s)) s.

Definition getDifficulty (s : t) : string := difficulty (env s).

Definition has (name : string) (s : t) : bool :=
  bool_decide (name ∈ activePowerups s).

(** [resetGameState], for the fields of the model. *)
Definition resetGameState (s : t) : t :=
  mk 0 1 3 0 0 0 0 0 0 0 1 0 0 200 1500 0 0 false false false false false
     ∅ (shieldUses s) [] (lastCatchTime s) (spawnTimerDelay s)
     (pendingCalls s) (itemPool s) (detachedItems s) (performanceManager s)
     (env s) (sceneOver s).

(** [setDifficultyParams] *)
Definition setDifficultyParams (s : t) : t :=
  let d := getDifficulty s in
  let '(speed, spawn) :=
    if bool_decide (d = "easy") then (150%Q, 2000%Q)
    else if bool_decide (d = "hard") then (250%Q, 1000%Q)
    else (200%Q, 1500%Q) in
  set_spawnRate spawn (set_itemSpeed speed s).

(** [gameOver]: the run is flushed to storage (not modelled), every pool is
    cleared and the scene hands over to [GameOverScene]. *)
Definition gameOver (s : t) : t :=
  set_sceneOver true
    (set_itemPool (ObjectPool.clear (itemPool s))
       (set_detachedItems (Some (items s)) s)).

(** [updatePerformanceScore] *)
Definition updatePerformanceScore (s : t) : t :=
  let recentValue := foldl (fun sum c => sum + c_value c) 0 (recentCatches s) in
  let catchRate := (inject_Z (Z.of_nat (length (recentCatches s))) / 10)%Q in
  let ps := Qmin 10 ((catchRate + inject_Z (combo s) * 0.1
                      + inject_Z recentValue * 0.01) / 3) in
  let speedAdjustment := (1 + ps * 0.05)%Q in
  let baseSpeed : Q :=
    (if bool_decide (getDifficulty s = "easy") then 150
     else if bool_decide (getDifficulty s = "hard") then 250 else 200)%Q in
  let spawnAdjustment := Qmax 0.7 (1 - ps * 0.03) in
  let baseSpawn : Q :=
    (if bool_decide (getDifficulty s = "easy") then 2000
     else if bool_decide (getDifficulty s = "hard") then 1000 else 1500)%Q in
  let rate := Qmax 500 (baseSpawn * spawnAdjustment) in
  set_spawnTimerDelay rate
    (set_spawnRate rate
       (set_itemSpeed (baseSpeed * speedAdjustment)
          (set_performanceScore ps s))).

(** [activateChaosMode] *)
Definition activateChaosMode (s : t) : t :=
  delayedCall 10000 EndChaosMode (set_isChaosMode true s).

(** [levelUp]; [checkAchievements] only writes to storage. *)
Definition levelUp (s : t) : t :=
  let s1 := set_level (level s + 1) s in
  let s2 := set_itemSpeed (itemSpeed s1 + 20) s1 in
  let s3 := set_spawnRate (Qmax 500 (spawnRate s2 - 100)) s2 in
  let s4 := set_spawnTimerDelay (spawnRate s3) s3 in
  if bool_decide (Z.rem (level s4) 5 = 0) then activateChaosMode s4 else s4.

(** [activateFreeze] *)
Definition activateFreeze (s : t) : t :=
  let originalSpeed := itemSpeed s in
  delayedCall 4000 (RestoreItemSpeed originalSpeed)
    (set_itemSpeed (itemSpeed s * 0.2) s).

(** [activateGlitchEffect]; both branches on the effects quality schedule
    the same reset of the run state. *)
Definition activateGlitchEffect (s : t) : t :=
  if glitchActive s then s
  else delayedCall 4000 EndGlitch
         (set_controlsReversed true (set_glitchActive true s)).

(** [activateMultiplier] *)
Definition activateMultiplier (s : t) : t :=
  delayedCall 5000 ResetScoreMultiplier (set_scoreMultiplier 2 s).

(** [activateVirusEffect] *)
Definition activateVirusEffect (s : t) : t :=
  if virusActive s then s
  else delayedCall 5000 EndVirus (set_virusActive true s).

(** [activateOvercharge] *)
Definition activateOvercharge (s : t) : t :=
  if bool_decide (overcharge s < 100) || overchargeActive s then s
  else delayedCall 8000 EndOvercharge
         (set_overchargeActive true (set_overcharge 0 s)).

(** The four outcomes of a mystery item. *)
Definition outcomes : list (t -> t) :=
  [ (fun s => set_score (score s + 100) s);
    (fun s => set_lives (Z.min (lives s + 1) 5) s);
    (fun s => delayedCall 3000 ResetScoreMultiplier (set_scoreMultiplier 3 s));
    (fun s => set_earnedCurrency (earnedCurrency s + 50) s) ].

(** [activateMystery(item)]; [pick] is the value of
    [Phaser.Math.Between(0, outcomes.length - 1)].  Calling an outcome that
    does not exist throws, which leaves the state as it is. *)
Definition activateMystery (pick : Z) (item : ObjRef) (s : t) : t :=
  match (if bool_decide (0 ≤ pick) then outcomes !! Z.to_nat pick else None) with
  | Some outcome => releaseItem item (outcome s)
  | None => s
  end.

(** Running the callback of a delayed call. *)
Definition runCallback (a : TimerAction) (s : t) : t :=
  match a with
  | RestoreItemSpeed originalSpeed => set_itemSpeed originalSpeed s
  | ResetScoreMultiplier => set_scoreMultiplier 1 s
  | EndGlitch => set_controlsReversed false (set_glitchActive false s)
  | EndVirus => set_virusActive false s
  | EndOvercharge => set_overchargeActive false s
  | EndChaosMode => set_isChaosMode false s
  | ExpirePowerup name => set_activePowerups (activePowerups s ∖ {[name]}) s
  end.

(** The [i]-th pending call fires and leaves the queue. *)
Definition fire (i : nat) (s : t) : t :=
  match pendingCalls s !! i with
  | Some (_, a) => runCallback a (set_pendingCalls (delete i (pendingCalls s)) s)
  | None => s
  end.

(** [item.itemType === name] *)
Definition typeIs (it : Sprite) (name : string) : bool :=
  bool_decide (itemType it = Some name).

Definition updateItem (f : Sprite -> Sprite) (item : ObjRef) (s : t) : t :=
  set_itemPool (ObjectPool.update_obj f item (itemPool s)) s.

Definition fortuneAura (s : t) : bool :=
  bool_decide (gearUtility (env s) = Some "fortune_aura").

(** [Math.min(Math.floor(this.combo / 5) + 1, 5)] *)
Definition comboMultiplier (combo : Z) : Z := Z.min (combo / 5 + 1) 5.

(** The points of a catch (main.js, line 6878): the product is taken in
    doubles, from the left. *)
Definition points (it : Sprite) (s : t) : Z :=
  let bonuses := LevelingSystem.getStatBonuses (playerLevel (env s)) in
  let overchargeBonus := if overchargeActive s then 2 else 1 in
  let fortuneBonus :=
    if fortuneAura s then Binary64.dec 15 1 else Binary64.ofZ 1 in
  Binary64.floor
    (Binary64.ofZ (value it) * Binary64.ofZ (level s)
     * Binary64.ofZ (comboMultiplier (combo s))
     * Binary64.ofZ (scoreMultiplier s)
     * Binary64.ofZ overchargeBonus * fortuneBonus
     * LevelingSystem.comboMultiplier bonuses)%b64.

(** The readings of [Date.now()] in one call of [catchItem]: at the [push]
    of the catch (line 6859), in the test of the [filter] for each entry of
    the list in turn (line 6862), and for [lastCatchTime] (line 6918). *)
Record Clock := mkClock {
  pushTime : Z;
  filterTime : nat -> Z;
  catchTime : Z
}.

(** [cs.filter(c => Date.now() - c.time < 10000)], the entries of [cs]
    being the [i]-th and later ones of the array. *)
Fixpoint keepRecent (readings : nat -> Z) (i : nat) (cs : list Catch)
    : list Catch :=
  match cs with
  | [] => []
  | c :: rest =>
      if bool_decide (readings i - c_time c < 10000)
      then c :: keepRecent readings (S i) rest
      else keepRecent readings (S i) rest
  end.

(** The scoring path of [catchItem] (main.js, lines 6855-6935), in the order
    of the source; [it] is the caught object as the handler sees it,
    [clock] its readings of [Date.now()]. *)

(** Lines 6856-6862: the catch is counted and enters the ten-second list. *)
Definition countCatch (clock : Clock) (it : Sprite) (s : t) : t :=
  let s := set_itemsCaught (itemsCaught s + 1) s in
  let s := set_combo (combo s + 1) s in
  let s :=
    set_recentCatches
      (recentCatches s ++ [mkCatch (pushTime clock) (value it)]) s in
  set_recentCatches (keepRecent (filterTime clock) 0 (recentCatches s)) s.

(** Lines 6864-6872: streaks, gold count and overcharge meter. *)
Definition tallyCatch (it : Sprite) (s : t) : t :=
  let s := set_perfectStreak (perfectStreak s + 1) s in
  let s := set_maxCombo (Z.max (maxCombo s) (combo s)) s in
  let s := set_missStreak 0 s in
  let s := if typeIs it "gold" then set_goldCaught (goldCaught s + 1) s else s in
  let overchargeGain :=
    if typeIs it "gold" then 15 else if typeIs it "giant" then 25 else 5 in
  set_overcharge (Z.min 100 (overcharge s + overchargeGain)) s.

(** Lines 6873-6881: points and currency, in doubles. *)
Definition awardPoints (it : Sprite) (s : t) : t :=
  let bonuses := LevelingSystem.getStatBonuses (playerLevel (env s)) in
  let pts := points it s in
  let currencyMultiplier :=
    (Binary64.ofZ (if fortuneAura s then 2 else 1)
     * LevelingSystem.currencyMultiplier bonuses)%b64 in
  set_earnedCurrency
    (earnedCurrency s
     + Binary64.floor
         (Binary64.ofZ pts / Binary64.ofZ 20 * currencyMultiplier)%b64)
    (set_score (score s + pts) s).

(** Lines 6856-6931: the whole path up to the release of the item. *)
Definition scored (clock : Clock) (item : ObjRef) (it : Sprite) (s : t) : t :=
  releaseItem item
    (set_lastCatchTime (Some (catchTime clock))
       (awardPoints it
          (tallyCatch it (updatePerformanceScore (countCatch clock it s))))).

(** The scoring path with its level-up test (lines 6932-6934);
    [checkAchievements] only writes to storage. *)
Definition scoreCatch (clock : Clock) (item : ObjRef) (it : Sprite) (s : t) : t :=
  let s := scored clock item it s in
  if bool_decide (Z.rem (score s) 100 = 0) && bool_decide (score s > 0)
  then levelUp s else s.

(** The penalty of catching a bomb without a converter. *)
Definition bombHit (item : ObjRef) (s : t) : t :=
  let s := set_lives (lives s - 1) s in
  let s := set_combo 0 s in
  let s := set_missStreak 0 s in
  let s := set_perfectStreak 0 s in
  let s := releaseItem item s in
  if bool_decide (lives s ≤ 0) then gameOver s else s.

(** [catchItem(item)]; [clock] holds the readings of [Date.now()] during
    the call and [pick] is the draw of [activateMystery]. *)
Definition catchItem (clock : Clock) (pick : Z) (item : ObjRef) (s : t) : t :=
  match ObjectPool.store (itemPool s) !! item with
  | None => s
  | Some it =>
      if typeIs it "freeze" then releaseItem item (activateFreeze s)
      else if typeIs it "health" then
        releaseItem item (set_lives (Z.min (lives s + 1) 5) s)
      else if typeIs it "mystery" then activateMystery pick item s
      else if typeIs it "bomb" && negb (has "converter" s) then bombHit item s
      else
        let '(it, s) :=
          if typeIs it "bomb" then
            (setTexture "item_gold" (setValue 50 (setItemType (Some "gold") it)),
             updateItem (setTexture "item_gold") item
               (updateItem (setValue 50) item
                  (updateItem (setItemType (Some "gold")) item s)))
          else (it, s) in
        if typeIs it "glitch" then
          scoreCatch clock item it (activateGlitchEffect s)
        else if typeIs it "multiplier" then
          scoreCatch clock item it (activateMultiplier s)
        else if typeIs it "virus" then releaseItem item (activateVirusEffect s)
        else scoreCatch clock item it s
  end.

(** One use of the shield: [shieldUses--], the shield dropped at 0. *)
Definition useShield (s : t) : t :=
  let s := set_shieldUses (shieldUses s - 1) s in
  if Qle_bool (shieldUses s) 0
  then set_activePowerups (activePowerups s ∖ {["shield"]}) s else s.

(** The penalty of a miss (main.js, lines 6981-6986). *)
Definition penalise (s : t) : t :=
  let s := set_combo 0 s in
  let s := set_perfectStreak 0 s in
  let s := set_missStreak (missStreak s + 1) s in
  let s := set_lives (lives s - 1) s in
  set_missedItems (missedItems s + 1) s.

(** [missItem(item)] *)
Definition missItem (item : ObjRef) (s : t) : t :=
  match ObjectPool.store (itemPool s) !! item with
  | None => s
  | Some it =>
      if typeIs it "bomb" then releaseItem item s
      else if has "shield" s then releaseItem item (useShield s)
      else
        let s := releaseItem item (updatePerformanceScore (penalise s)) in
        if bool_decide (lives s ≤ 0) then gameOver s else s
  end.

(** The player runs into an armed spike ([update], lines 6747-6762). *)
Definition spikeHit (s : t) : t :=
  if negb (has "shield" s) then
    let s := set_lives (lives s - 1) s in
    if bool_decide (lives s ≤ 0) then gameOver s else s
  else useShield s.

(** [destroyBomb(bomb, projectile)], the item pool's side. *)
Definition destroyBomb (bomb : ObjRef) (s : t) : t :=
  let s := set_score (score s + 25) s in
  let s := set_bombsDestroyed (bombsDestroyed s + 1) s in
  let s := set_earnedCurrency (earnedCurrency s + 2) s in
  releaseItem bomb s.

(** The power-ups by [powerup.type], and how long each lasts; the shield
    lasts until its charges are used up. *)
Definition powerupTypes : list string :=
  ["shield"; "magnet"; "slowmo"; "timewarp"; "converter"; "hyperdash"; "blackhole"].

Definition powerupDuration (type : string) : option Z :=
  if bool_decide (type = "magnet") then Some 5000
  else if bool_decide (type = "slowmo") then Some 4000
  else if bool_decide (type = "timewarp") then Some 6000
  else if bool_decide (type = "converter") then Some 8000
  else if bool_decide (type = "hyperdash") then Some 10000
  else if bool_decide (type = "blackhole") then Some 5000
  else None.

(** [collectPowerup(powerup)], for the fields of the model; [ptype] is
    [powerup.type], one of 0..6 by [spawnPowerup].  The dash cooldown, the
    black hole and the power-up pool are not modelled. *)
Definition collectPowerup (ptype : nat) (s : t) : t :=
  match powerupTypes !! ptype with
  | None => s
  | Some type =>
      let s := set_activePowerups ({[type]} ∪ activePowerups s) s in
      let bonuses := LevelingSystem.getStatBonuses (playerLevel (env s)) in
      if bool_decide (type = "shield") then
        set_shieldUses
          (3 + Binary64.toQ (LevelingSystem.shieldBonus bonuses))%Q s
      else
        match powerupDuration type with
        | Some delay => delayedCall delay (ExpirePowerup type) s
        | None => s
        end
  end.

(** What one iteration of the loop of [spawnItem] draws and reads:
    [Phaser.Math.Between(50, width - 50)], [Math.random()], and the clock
    readings of the pool's [get]. *)
Record ItemDraw := mkItemDraw {
  d_x : Z;
  d_rand : Q;
  d_now1 : Z;
  d_now2 : Z
}.

(** The draws of one call of [spawnItem]: [Phaser.Math.Between(1, 2)],
    read in chaos mode only, and those of each iteration. *)
Record SpawnDraws := mkSpawnDraws {
  d_count : Z;
  d_item : nat -> ItemDraw
}.

(** Type, value and speed of the item spawned on the draw [rand]. *)
Definition rollItem (rand itemSpeed : Q) : string * Z * Q :=
  if Qltb rand 0.13 then ("bomb", -50, itemSpeed)
  else if Qltb rand 0.22 then ("gold", 50, itemSpeed)
  else if Qltb rand 0.35 then ("silver", 20, itemSpeed)
  else if Qltb rand 0.40 then ("giant", 100, (itemSpeed * 0.6)%Q)
  else if Qltb rand 0.43 then ("glitch", 30, itemSpeed)
  else if Qltb rand 0.46 then ("multiplier", 20, itemSpeed)
  else if Qltb rand 0.48 then ("virus", -30, itemSpeed)
  else if Qltb rand 0.50 then ("freeze", 25, itemSpeed)
  else if Qltb rand 0.52 then ("health", 0, itemSpeed)
  else if Qltb rand 0.54 then ("mystery", 0, itemSpeed)
  else ("regular", 10, itemSpeed).

(** The body of the loop of [spawnItem]; the delayed call it schedules in
    chaos mode has an empty callback and is left out. *)
Definition spawnOne (d : ItemDraw) (s : t) : t :=
  let '(type, itemValue, speed) := rollItem (d_rand d) (itemSpeed s) in
  let '(item, pool') := ObjectPool.get (d_now1 d) (d_now2 d) (itemPool s) in
  let s := set_itemPool pool' s in
  let s := updateItem (setPosition (inject_Z (d_x d)) (-30)) item s in
  let s := updateItem (setTexture ("item_" +:+ type)) item s in
  let s := updateItem (setSpeed speed) item s in
  let s := updateItem (setItemType (Some type)) item s in
  let s := updateItem (setValue itemValue) item s in
  let s := updateItem (setAffectedByGravity true) item s in
  if bool_decide (type = "giant") then updateItem (setScale 1) item s else s.

Fixpoint spawnLoop (n i : nat) (draws : SpawnDraws) (s : t) : t :=
  match n with
  | O => s
  | S k => spawnLoop k (S i) draws (spawnOne (d_item draws i) s)
  end.

(** [spawnItem] *)
Definition spawnItem (draws : SpawnDraws) (s : t) : t :=
  let spawnCount := if isChaosMode s then d_count draws else 1 in
  let maxItems :=
    if bool_decide (PerformanceManager.qualityLevel (performanceManager s) = 0)
    then 8 else 15 in
  if bool_decide (Z.of_nat (length (items s)) >= maxItems) then s
  else spawnLoop (Z.to_nat spawnCount) 0 draws s.

(** The sizes of the item pool by quality level ([setupObjectPools]). *)
Definition itemPoolSizes : list Z := [15; 25; 30].

(** [setupObjectPools], the item pool: its size goes by the quality level,
    [qualityLevel || 1] and [sizes[qualityLevel] || sizes[1]] as written;
    its capacity is left to the pool's default. *)
Definition setupObjectPools (s : t) : t :=
  let level := PerformanceManager.qualityLevel (performanceManager s) in
  let qualityLevel := if bool_decide (level = 0) then 1 else level in
  let size :=
    default 25 (if bool_decide (0 ≤ qualityLevel)
                then itemPoolSizes !! Z.to_nat qualityLevel else None) in
  set_itemPool (ObjectPool.new (newSprite "item_regular") resetItem size None) s.

(** The scene as its constructor leaves it: [resetGameState] over fields
    still to be set ([shieldUses] and the last catch time are undefined,
    there is no timer and no pool yet). *)
Definition constructed (e : Env) : t :=
  resetGameState
    (mk 0 0 0 0 0 0 0 0 0 0 0 0 0 0 0 0 0 false false false false false
        ∅ 0 [] None 0 []
        (ObjectPool.mk [] (newSprite "item_regular") resetItem [] [] 0 0 2000 0 [])
        (Some []) PerformanceManager.new e false).

(** [create], for the fields of the model: the upgrades bought decide the
    lives and the shield the run starts with. *)
Definition create (e : Env) (extraLife startShield : bool) : t :=
  let s := set_performanceManager PerformanceManager.new (constructed e) in
  let s := resetGameState s in
  let bonuses := LevelingSystem.getStatBonuses (playerLevel e) in
  let s := set_lives (if extraLife then 4 else 3) s in
  let s :=
    if startShield then
      set_shieldUses (3 + Binary64.toQ (LevelingSystem.shieldBonus bonuses))%Q
        (set_activePowerups ({["shield"]} ∪ activePowerups s) s)
    else s in
  let s := setDifficultyParams s in
  let s := setupObjectPools s in
  let s := set_detachedItems None s in
  set_spawnTimerDelay (spawnRate s) s.

(** The handlers that fire during a run. *)
Inductive event :=
| SpawnItem (draws : SpawnDraws)
| CatchItem (clock : Clock) (pick : Z) (item : ObjRef)
| MissItem (item : ObjRef)
| SpikeHit
| DestroyBomb (bomb : ObjRef)
| CollectPowerup (ptype : nat)
| ActivateOvercharge
| Fire (i : nat)
| Frame (time : Q).

Definition handle (ev : event) (s : t) : t :=
  match ev with
  | SpawnItem draws => spawnItem draws s
  | CatchItem clock pick item => catchItem clock pick item s
  | MissItem item => missItem item s
  | SpikeHit => spikeHit s
  | DestroyBomb bomb => destroyBomb bomb s
  | CollectPowerup ptype => collectPowerup ptype s
  | ActivateOvercharge => activateOvercharge s
  | Fire i => fire i s
  | Frame time =>
      set_performanceManager
        (PerformanceManager.update time (performanceManager s)) s
  end.

(** A handler runs only while the scene is live; the items handed to the
    catch, miss and bomb handlers are active items. *)
Definition enabled (ev : event) (s : t) : Prop :=
  sceneOver s = false
  ∧ match ev with
    | CatchItem _ _ item | MissItem item | DestroyBomb item => item ∈ items s
    | _ => True
    end.

Inductive reachable (e : Env) (extraLife startShield : bool) : t -> Prop :=
| reach_create : reachable e extraLife startShield (create e extraLife startShield)
| reach_step s ev :
    reachable e extraLife startShield s -> enabled ev s ->
    reachable e extraLife startShield (handle ev s).

(** A sequence of events, handled in order. *)
Definition play (evs : list event) (s : t) : t :=
  foldl (fun q ev => handle ev q) s evs.

(** [enabled], decided. *)
Definition enabledb (ev : event) (s : t) : bool :=
  negb (sceneOver s)
  && match ev with
     | CatchItem _ _ item | MissItem item | DestroyBomb item =>
         bool_decide (item ∈ items s)
     | _ => true
     end.

Fixpoint playable (evs : list event) (s : t) : bool :=
  match evs with
  | [] => true
  | ev :: rest => enabledb ev s && playable rest (handle ev s)
  end.

End GameScene.

(** ** Storage, play limit and experience

    What the code uses of the JavaScript runtime.  A number is an integer
    or [NaN]; the integers are exact in the code below [2^53]. *)

Module JS.
Import Stdlib.Strings.Ascii.

Definition num := option Z.

Definition NaN : num := None.

Definition add (a b : num) : num :=
  match a, b with Some x, Some y => Some (x + y) | _, _ => None end.

Definition sub (a b : num) : num :=
  match a, b with Some x, Some y => Some (x - y) | _, _ => None end.

(** [a >= b] and [a > b]: false when a side is [NaN]. *)
Definition ge (a b : num) : bool :=
  match a, b with Some x, Some y => bool_decide (y ≤ x) | _, _ => false end.

Definition gt (a b : num) : bool :=
  match a, b with Some x, Some y => bool_decide (y < x) | _, _ => false end.

(** [Math.max(a, b)] *)
Definition max (a b : num) : num :=
  match a, b with Some x, Some y => Some (Z.max x y) | _, _ => None end.

(** [Math.floor(a / d)] for a positive integer [d]. *)
Definition floorDiv (a : num) (d : Z) : num :=
  match a with Some x => Some (x / d) | None => None end.

(** [a % d]: the sign of the result is that of [a]. *)
Definition rem (a : num) (d : Z) : num :=
  match a with Some x => Some (Z.rem x d) | None => None end.

(** [a || 0] *)
Definition orZero (a : num) : Z := default 0 a.

(** The values that go to and come from storage.  [obj] is the type of the
    objects and arrays. *)
Inductive value (obj : Type) :=
| VNull
| VBool (b : bool)
| VNum (n : num)
| VStr (s : string)
| VObj (o : obj).

Arguments VNull {obj}.
Arguments VBool {obj} b.
Arguments VNum {obj} n.
Arguments VStr {obj} s.
Arguments VObj {obj} o.

(** [JSON] and the conversion of objects to strings.  [JSON_parse] and
    [JSON_stringify] give [None] where the code's would throw. *)
Class Json := {
  obj : Type;
  JSON_parse : string → option (value obj);
  JSON_stringify : obj → option string;
  objToString : obj → string;
  (** the literal [[]] *)
  emptyArray : obj
}.

(** Decimal digits, the last one first in the recursion. *)
Definition digit (d : Z) : ascii := ascii_of_nat (48 + Z.to_nat d).

Fixpoint showDigits (fuel : nat) (n : Z) (acc : string) : string :=
  match fuel with
  | O => acc
  | S fuel' =>
      let acc := String (digit (n mod 10)) acc in
      if bool_decide (n < 10) then acc else showDigits fuel' (n / 10) acc
  end.

(** [String(z)] of an integer. *)
Definition showZ (z : Z) : string :=
  if bool_decide (z < 0)
  then String "-"%char (showDigits (S (Z.to_nat (Z.log2 (- z)))) (- z) "")
  else showDigits (S (Z.to_nat (Z.log2 z))) z "".

(** [String(v)] *)
Definition ToString `{Json} (v : value obj) : string :=
  match v with
  | VNull => "null"
  | VBool true => "true"
  | VBool false => "false"
  | VNum (Some z) => showZ z
  | VNum None => "NaN"
  | VStr s => s
  | VObj o => objToString o
  end.

(** The white space [parseInt] skips (its ASCII part). *)
Definition isWhite (c : ascii) : bool :=
  let n := nat_of_ascii c in
  bool_decide (n = 32 ∨ 9 ≤ n ≤ 13)%nat.

Fixpoint trimStart (s : string) : string :=
  match s with
  | String c rest => if isWhite c then trimStart rest else s
  | EmptyString => s
  end.

Definition digitValue (radix : Z) (c : ascii) : option Z :=
  let n := Z.of_nat (nat_of_ascii c) in
  let v := if bool_decide (48 ≤ n ≤ 57) then Some (n - 48)
           else if bool_decide (97 ≤ n ≤ 122) then Some (n - 87)
           else if bool_decide (65 ≤ n ≤ 90) then Some (n - 55)
           else None in
  match v with
  | Some d => if bool_decide (d < radix) then Some d else None
  | None => None
  end.

(** The longest prefix of digits; [acc] is [None] until a digit is read. *)
Fixpoint parseDigits (radix : Z) (s : string) (acc : num) : num :=
  match s with
  | String c rest =>
      match digitValue radix c with
      | Some d => parseDigits radix rest (Some (default 0 acc * radix + d))
      | None => acc
      end
  | EmptyString => acc
  end.

(** [parseInt(s)] of a string, without a radix argument. *)
Definition parseIntStr (s : string) : num :=
  let s := trimStart s in
  let '(sign, s) :=
    match s with
    | String "-"%char rest => (-1, rest)
    | String "+"%char rest => (1, rest)
    | _ => (1, s)
    end in
  let '(radix, s) :=
    match s with
    | String "0"%char (String "x"%char rest)
    | String "0"%char (String "X"%char rest) => (16, rest)
    | _ => (10, s)
    end in
  match parseDigits radix s None with
  | Some n => Some (sign * n)
  | None => None
  end.

(** [parseInt(v)] *)
Definition parseInt `{Json} (v : value obj) : num := parseIntStr (ToString v).

(** [s.includes(sub)] *)
Fixpoint includes (s sub : string) : bool :=
  String.prefix sub s
  || match s with
     | String _ rest => includes rest sub
     | EmptyString => false
     end.

(** [!s] of a string or [null]. *)
Definition falsy (s : option string) : bool :=
  match s with
  | None | Some EmptyString => true
  | Some _ => false
  end.

(** [localStorage]: the stored items; [denied] when every access throws,
    [full] when [setItem] throws for want of room. *)
Record Storage := mkStorage {
  items : gmap string string;
  denied : bool;
  full : bool
}.

(** [None] stands for an exception. *)
Definition getItem (key : string) (st : Storage) : option (option string) :=
  if denied st then None else Some (items st !! key).

Definition setItem (key v : string) (st : Storage) : option Storage :=
  if denied st || full st then None
  else Some (mkStorage (<[key := v]> (items st)) (denied st) (full st)).


End JS.

Module STORAGE_KEYS.

Definition CURRENCY : string := "dropkeeper_currency".
Definition PLAYER_LEVEL : string := "dropkeeper_player_level".
Definition PLAYER_XP : string := "dropkeeper_player_xp".
Definition PLAY_COUNT : string := "dropkeeper_play_count".
Definition PLAY_RESET_TIME : string := "dropkeeper_play_reset_time".
Definition SCORE_SUBMISSIONS : string := "dropkeeper_score_submissions".

End STORAGE_KEYS.

Module StorageManager.
Import JS.

Definition jsonKeys : list string :=
  [ "achievements"; "stats"; "upgrades"; "challenges"; "leaderboard";
    "owned_skins"; "loadout_presets"; "score_submissions" ].

Definition shouldParseJSON (key : string) : bool :=
  existsb (fun jsonKey => includes key jsonKey) jsonKeys.

(** [get(key, defaultValue)] *)
Definition get `{Json} (key : string) (defaultValue : value obj) (st : Storage)
    : value obj :=
  match getItem key st with
  | None => defaultValue
  | Some v =>
      if falsy v then defaultValue
      else if shouldParseJSON key then
        match JSON_parse (default "" v) with
        | Some x => x
        | None => defaultValue
        end
      else VStr (default "" v)
  end.

(** [getJson(key, defaultValue)] *)
Definition getJson `{Json} (key : string) (defaultValue : value obj) (st : Storage)
    : value obj :=
  match getItem key st with
  | None => defaultValue
  | Some v =>
      if falsy v then defaultValue
      else match JSON_parse (default "" v) with
           | Some x => x
           | None => defaultValue
           end
  end.

(** [typeof value === 'object' ? JSON.stringify(value) : String(value)] *)
Definition stringValue `{Json} (v : value obj) : option string :=
  match v with
  | VNull => Some "null"
  | VObj o => JSON_stringify o
  | _ => Some (ToString v)
  end.

(** [set(key, value)] *)
Definition set `{Json} (key : string) (v : value obj) (st : Storage) : Storage :=
  match stringValue v with
  | None => st
  | Some text => default st (setItem key text st)
  end.

(** [getInt(key, defaultValue)] *)
Definition getInt `{Json} (key : string) (defaultValue : value obj) (st : Storage)
    : num :=
  parseInt (get key defaultValue st).


End StorageManager.

Module PlayLimitManager.
Import JS.

Definition MAX_FREE_PLAYS : Z := 2.

Definition RESET_PERIOD : Z := 24 * 60 * 60 * 1000.

(** [checkAndResetPlays()]; [now] is the value of [Date.now()]. *)
Definition checkAndResetPlays `{Json} (now : Z) (st : Storage) : Storage :=
  let resetTime := StorageManager.getInt STORAGE_KEYS.PLAY_RESET_TIME (VNum (Some 0)) st in
  if ge (Some now) resetTime then
    let st := StorageManager.set STORAGE_KEYS.PLAY_COUNT (VNum (Some 0)) st in
    let st := StorageManager.set STORAGE_KEYS.SCORE_SUBMISSIONS (VObj emptyArray) st in
    StorageManager.set STORAGE_KEYS.PLAY_RESET_TIME (VNum (Some (now + RESET_PERIOD))) st
  else st.

(** [getPlaysRemaining()] *)
Definition getPlaysRemaining `{Json} (now : Z) (st : Storage) : num * Storage :=
  let st := checkAndResetPlays now st in
  let playCount := StorageManager.getInt STORAGE_KEYS.PLAY_COUNT (VNum (Some 0)) st in
  (max (Some 0) (sub (Some MAX_FREE_PLAYS) playCount), st).

(** [canPlay()] *)
Definition canPlay `{Json} (now : Z) (st : Storage) : bool * Storage :=
  let '(remaining, st) := getPlaysRemaining now st in
  (gt remaining (Some 0), st).

(** [recordPlay()] *)
Definition recordPlay `{Json} (now : Z) (st : Storage) : Storage :=
  let st := checkAndResetPlays now st in
  let playCount := StorageManager.getInt STORAGE_KEYS.PLAY_COUNT (VNum (Some 0)) st in
  StorageManager.set STORAGE_KEYS.PLAY_COUNT (VNum (add playCount (Some 1))) st.

Record TimeLeft := mkTimeLeft { hours : num; minutes : num; totalMs : num }.

(** [getTimeUntilReset()]; [now1] and [now2] are the values of its two
    calls of [Date.now()]. *)
Definition getTimeUntilReset `{Json} (now1 now2 : Z) (st : Storage) : TimeLeft :=
  let resetTime :=
    StorageManager.getInt STORAGE_KEYS.PLAY_RESET_TIME
      (VNum (Some (now1 + RESET_PERIOD))) st in
  let diff := max (Some 0) (sub resetTime (Some now2)) in
  mkTimeLeft (floorDiv diff (60 * 60 * 1000))
             (floorDiv (rem diff (60 * 60 * 1000)) (60 * 1000))
             diff.

End PlayLimitManager.

(** [LevelingSystem], the part on experience points and rewards. *)
Module Experience.

(** [getXPForLevel(level)], that is [Math.floor(100 * Math.pow(1.5, level -
    1))], in exact arithmetic: what the doubles of the code give while
    [25 * 3^(level - 1)] is below 2^53, for the levels from 1 to 31. *)
Definition getXPForLevel (level : Z) : Z :=
  Qfloor (100 * (3 # 2) ^ (level - 1)).

Record Reward := mkReward { type : string; amount : Z; name : string }.

Definition rewards : list (Z * Reward) :=
  [ (5, mkReward "currency" 150 "150 Data Chips");
    (10, mkReward "currency" 300 "300 Data Chips");
    (15, mkReward "currency" 500 "500 Data Chips");
    (20, mkReward "currency" 750 "750 Data Chips");
    (25, mkReward "currency" 1000 "1000 Data Chips");
    (30, mkReward "currency" 1500 "1500 Data Chips");
    (35, mkReward "currency" 2000 "2000 Data Chips");
    (40, mkReward "currency" 3000 "3000 Data Chips");
    (50, mkReward "currency" 5000 "5000 Data Chips") ].

(** [getLevelReward(level)]: [rewards[level] || null] *)
Definition getLevelReward (level : Z) : option Reward :=
  snd <$> find (fun e => bool_decide (fst e = level)) rewards.

End Experience.

(** [GameOverScene.create(data)]: the experience earned is added, the
    levels gained are stored and rewarded (main.js, lines 9023-9036 and
    9174-9180).  [xpForLevel] stands for [LevelingSystem.getXPForLevel],
    whose [Math.pow] is the runtime's. *)
Module GameOverScene.
Import JS Experience.

(** The [while] loop, at most [fuel] iterations of it; [None] when they do
    not suffice. *)
Fixpoint levelLoop (xpForLevel : Z -> Z) (fuel : nat) (newXP newLevel : Z)
    (levelUps : list Z) : option (Z * Z * list Z) :=
  match fuel with
  | O => None
  | S fuel' =>
      if bool_decide (newXP >= xpForLevel (newLevel + 1)) then
        levelLoop xpForLevel fuel' (newXP - xpForLevel (newLevel + 1))
                  (newLevel + 1) (levelUps ++ [newLevel + 1])
      else Some (newXP, newLevel, levelUps)
  end.

(** The reward of one level gained. *)
Definition giveReward `{Json} (st : Storage) (level : Z) : Storage :=
  match getLevelReward level with
  | Some reward =>
      if String.eqb (type reward) "currency" then
        let currentCurrency :=
          StorageManager.getInt STORAGE_KEYS.CURRENCY (VNum (Some 0)) st in
        StorageManager.set STORAGE_KEYS.CURRENCY
          (VNum (add currentCurrency (Some (amount reward)))) st
      else st
  | None => st
  end.

Record Progress := mkProgress {
  earned : Z;
  newXP : num;
  newLevel : num;
  levelUps : list Z;
  storage : Storage
}.

(** A stored level that is [NaN] fails every test of [getLevelPerks], as
    level 0 does; with a [NaN] in [newXP] or [newLevel] the test of the loop
    fails at once.  The loop is given one iteration more than [newXP]
    counts. *)
Definition create `{Json} (xpForLevel : Z -> Z) (earnedXP : num) (st : Storage)
    : option Progress :=
  let currentLevel :=
    StorageManager.getInt STORAGE_KEYS.PLAYER_LEVEL (VNum (Some 1)) st in
  let currentXP := StorageManager.getInt STORAGE_KEYS.PLAYER_XP (VNum (Some 0)) st in
  let bonuses := LevelingSystem.getStatBonuses (default 0 currentLevel) in
  let earnedXP :=
    Binary64.floor (Binary64.ofZ (orZero earnedXP)
                    * LevelingSystem.xpMultiplier bonuses)%b64 in
  let newXP := add currentXP (Some earnedXP) in
  let looped :=
    match newXP, currentLevel with
    | Some xp, Some lvl =>
        (fun '(xp', lvl', ups) => (Some xp', Some lvl', ups))
          <$> levelLoop xpForLevel (S (Z.to_nat xp)) xp lvl []
    | _, _ => Some (newXP, currentLevel, [])
    end in
  match looped with
  | None => None
  | Some (newXP, newLevel, levelUps) =>
      let st := StorageManager.set STORAGE_KEYS.PLAYER_LEVEL (VNum newLevel) st in
      let st := StorageManager.set STORAGE_KEYS.PLAYER_XP (VNum newXP) st in
      let st := foldl giveReward st levelUps in
      Some (mkProgress earnedXP newXP newLevel levelUps st)
  end.

End GameOverScene.

(** * Properties *)

(** ** The pool partitions the objects it created *)

Section PoolInvariant.
Import ObjectPool.

(** The references held by the two arrays are, up to order, exactly the
    objects built so far, and [totalCreated] counts them. *)
Definition pool_wf (p : t) : Prop :=
  active p ++ pool p ≡ₚ seq 0 (length (store p))
  ∧ totalCreated p = Z.of_nat (length (store p)).

Lemma update_obj_lists f o p :
  active (update_obj f o p) = active p ∧ pool (update_obj f o p) = pool p
  ∧ length (store (update_obj f o p)) = length (store p)
  ∧ totalCreated (update_obj f o p) = totalCreated p
  ∧ warnings (update_obj f o p) = warnings p
  ∧ lastWarningTime (update_obj f o p) = lastWarningTime p
  ∧ maxCapacity (update_obj f o p) = maxCapacity p
  ∧ warningInterval (update_obj f o p) = warningInterval p
  ∧ resetFunc (update_obj f o p) = resetFunc p
  ∧ createFunc (update_obj f o p) = createFunc p.
Proof. unfold update_obj; simpl. rewrite length_alter. tauto. Qed.

Lemma report_lists m now p :
  active (reportCapacityWarning m now p) = active p
  ∧ pool (reportCapacityWarning m now p) = pool p
  ∧ store (reportCapacityWarning m now p) = store p
  ∧ totalCreated (reportCapacityWarning m now p) = totalCreated p
  ∧ maxCapacity (reportCapacityWarning m now p) = maxCapacity p
  ∧ warningInterval (reportCapacityWarning m now p) = warningInterval p
  ∧ resetFunc (reportCapacityWarning m now p) = resetFunc p
  ∧ createFunc (reportCapacityWarning m now p) = createFunc p.
Proof. unfold reportCapacityWarning. case_bool_decide; simpl; tauto. Qed.

Lemma indexOf_lookup o l i : indexOf o l = Some i → l !! i = Some o.
Proof.
  revert i. induction l as [|h rest IH]; intros i; simpl; [done|].
  case_decide; [intros [= <-]; by subst|].
  destruct (indexOf o rest) as [j|] eqn:E; simpl; [|done].
  intros [= <-]. simpl. by apply IH.
Qed.

Lemma indexOf_None o l : indexOf o l = None → o ∉ l.
Proof.
  induction l as [|h rest IH]; simpl; [intros _; apply not_elem_of_nil|].
  case_decide; [done|].
  destruct (indexOf o rest) eqn:E; simpl; [done|].
  intros _. apply not_elem_of_cons. split; [congruence | by apply IH].
Qed.

Lemma indexOf_elem o l : o ∈ l → is_Some (indexOf o l).
Proof.
  intros H. destruct (indexOf o l) eqn:E; [eauto|].
  by apply indexOf_None in E.
Qed.

Lemma get_wf now1 now2 p : pool_wf p → pool_wf (snd (get now1 now2 p)).
Proof.
  intros Hwf. pose proof Hwf as [Hp Hn]. unfold get.
  destruct (last (pool p)) as [o|] eqn:Hl.
  - apply last_Some in Hl as [l' Hl]. split; simpl.
    + rewrite !length_alter, <- Hp, Hl, removelast_last.
      rewrite <- !(assoc_L (++)). apply Permutation_app_head.
      apply Permutation_app_comm.
    + by rewrite !length_alter.
  - apply last_None in Hl.
    destruct (hasCapacityAvailable p).
    + simpl. split; simpl.
      * rewrite !length_alter, length_app, Nat.add_1_r, seq_S. simpl.
        rewrite <- Hp, Hl, !app_nil_r. done.
      * rewrite !length_alter, length_app, Hn. simpl. lia.
    + unfold recycleOldest. destruct (active p) as [|oldest rest] eqn:Ha.
      * simpl. pose proof (report_lists "Pool at capacity; recycling oldest object." now1 p)
          as (Ra & Rp & Rs & Rt & _).
        unfold createManagedObject.
        match goal with |- context [reportCapacityWarning ?m now2 ?q] =>
          pose proof (report_lists m now2 q) as (Ra2 & Rp2 & Rs2 & Rt2 & _) end.
        simpl in *. split; simpl.
        -- rewrite !length_alter, Ra2, Rp2, Rs2. simpl. rewrite Ra, Rp, Rs.
           rewrite length_app, Nat.add_1_r, seq_S. simpl.
           rewrite <- Hp, Ha, Hl. done.
        -- rewrite !length_alter, Rt2, Rs2. simpl. rewrite Rt, Rs.
           rewrite length_app, Hn. simpl. lia.
      * simpl.
        match goal with |- context [reportCapacityWarning ?m now1 ?q] =>
          pose proof (report_lists m now1 q) as (Ra & Rp & Rs & Rt & _) end.
        simpl in *. split; simpl.
        -- rewrite !length_alter, Ra, Rp, Rs. rewrite !length_alter.
           rewrite <- Hp, Hl, !app_nil_r. symmetry. apply Permutation_cons_append.
        -- rewrite !length_alter, Rt, Rs. by rewrite !length_alter.
Qed.

Lemma release_wf obj p : pool_wf p → pool_wf (release obj p).
Proof.
  intros [Hp Hn]. unfold release.
  destruct (indexOf obj (active p)) as [i|] eqn:Hi; [|done].
  apply indexOf_lookup in Hi. split; simpl.
  - rewrite !length_alter, <- Hp.
    rewrite (delete_Permutation (active p) i obj Hi) at 2.
    rewrite (assoc_L (++)). rewrite <- Permutation_cons_append.
    simpl. rewrite Permutation_middle. done.
  - by rewrite !length_alter.
Qed.

Lemma prefill_wf n p : pool_wf p → pool_wf (prefill n p).
Proof.
  revert p. induction n as [|n IH]; intros p Hwf; simpl; [done|].
  apply IH. destruct Hwf as [Hp Hn]. split; simpl.
  - rewrite !length_alter, length_app, Nat.add_1_r, seq_S. simpl.
    rewrite (assoc_L (++)), Hp. done.
  - rewrite !length_alter, length_app, Hn. simpl. lia.
Qed.

Lemma new_wf create reset initialSize maxCap :
  pool_wf (new create reset initialSize maxCap).
Proof. unfold new. apply prefill_wf. split; simpl; done. Qed.

Lemma run_wf cs p : pool_wf p → pool_wf (run cs p).
Proof.
  revert p. induction cs as [|c cs IH]; intros p Hwf; simpl; [done|].
  apply IH. destruct c; simpl; [by apply get_wf | by apply release_wf].
Qed.

Lemma wf_partition p : pool_wf p →
  (length (active p) + length (pool p) = length (store p))%nat
  ∧ NoDup (active p) ∧ NoDup (pool p)
  ∧ (∀ o, o ∈ active p → o ∉ pool p)
  ∧ (∀ o, (o < length (store p))%nat ↔ o ∈ active p ∨ o ∈ pool p).
Proof.
  intros [Hp Hn].
  assert (Hnd : NoDup (active p ++ pool p)) by (rewrite Hp; apply NoDup_seq).
  apply NoDup_app in Hnd as (Ha & Hd & Hb).
  split; [by rewrite <- length_app, Hp, length_seq|].
  do 3 (split; [done|]).
  intros o. rewrite <- elem_of_app, Hp, elem_of_seq. lia.
Qed.

End PoolInvariant.

Section PoolPolicy.
Import ObjectPool.

(** (C1) Over every sequence of [get] and [release] calls on a pool built
    by the constructor, [active.length + pool.length] is at most
    [max(maxCapacity, totalCreated)], the objects created are counted by
    [totalCreated], and each of them is in exactly one of the two arrays,
    once. *)
Theorem pool_partition_invariant create reset initialSize maxCap cs :
  let p := run cs (new create reset initialSize maxCap) in
  Z.of_nat (length (active p)) + Z.of_nat (length (pool p))
    ≤ Z.max (maxCapacity p) (totalCreated p)
  ∧ totalCreated p = Z.of_nat (length (store p))
  ∧ NoDup (active p) ∧ NoDup (pool p)
  ∧ ∀ o : ObjRef, (o < length (store p))%nat →
      (o ∈ active p ∧ o ∉ pool p) ∨ (o ∈ pool p ∧ o ∉ active p).
Proof.
  intros p.
  assert (Hwf : pool_wf p) by apply run_wf, new_wf.
  destruct (wf_partition p Hwf) as (Hlen & Ha & Hb & Hd & Hin).
  destruct Hwf as [_ Hn].
  split; [lia|]. split; [done|]. split; [done|]. split; [done|].
  intros o Ho. apply Hin in Ho as [Ho|Ho].
  - left. split; [done | by apply Hd].
  - right. split; [done|]. intros Ho'. by apply (Hd o).
Qed.

(** A pool of two objects after two [get]s, a recycling [get] and a
    [release]: the object built first is in one array and not in the other. *)
Lemma pool_partition_invariant_witness :
  let p := run [Get 0 0; Get 0 0; Get 5000 5000; Release 0%nat]
               (new (newSprite "item_regular") resetItem 2 (Some 2)) in
  (0%nat ∈ active p ∧ 0%nat ∉ pool p) ∨ (0%nat ∈ pool p ∧ 0%nat ∉ active p).
Proof.
  intros p.
  destruct (pool_partition_invariant (newSprite "item_regular") resetItem 2 (Some 2)
              [Get 0 0; Get 0 0; Get 5000 5000; Release 0%nat])
    as (_ & _ & _ & _ & H).
  apply H. vm_compute. lia.
Defined.

(** What [get] does in each of its four cases. *)

Lemma get_idle now1 now2 p l o :
  pool p = l ++ [o] →
  get now1 now2 p =
    (o, with_active (active p ++ [o])
          (update_obj (setVisible true) o
             (update_obj (setActive true) o (with_pool l p)))).
Proof.
  intros H. unfold get. by rewrite H, last_snoc, removelast_last.
Qed.

Lemma get_fresh now1 now2 p :
  pool p = [] → hasCapacityAvailable p = true →
  get now1 now2 p =
    (length (store p),
     with_active (active p ++ [length (store p)])
       (update_obj (setVisible true) (length (store p))
          (update_obj (setActive true) (length (store p))
             (snd (createManagedObject p))))).
Proof. intros H Hc. unfold get. by rewrite H, Hc. Qed.

Lemma get_recycle now1 now2 p oldest rest :
  pool p = [] → hasCapacityAvailable p = false → active p = oldest :: rest →
  get now1 now2 p =
    (oldest,
     let q := reportCapacityWarning "Pool at capacity; recycling oldest object."
                now1 (snd (recycleOldest p)) in
     with_active (active q ++ [oldest])
       (update_obj (setVisible true) oldest (update_obj (setActive true) oldest q))).
Proof.
  intros H Hc Ha. unfold get, recycleOldest. by rewrite H, Hc, Ha.
Qed.

Lemma get_overflow now1 now2 p :
  pool p = [] → hasCapacityAvailable p = false → active p = [] →
  get now1 now2 p =
    (length (store p),
     let q := reportCapacityWarning
                "Pool exceeded capacity; allocating additional object." now2
                (snd (createManagedObject
                   (reportCapacityWarning
                      "Pool at capacity; recycling oldest object." now1 p))) in
     with_active (active q ++ [length (store p)])
       (update_obj (setVisible true) (length (store p))
          (update_obj (setActive true) (length (store p)) q))).
Proof.
  intros H Hc Ha. unfold get, recycleOldest. rewrite H, Hc, Ha. simpl.
  pose proof (report_lists "Pool at capacity; recycling oldest object." now1 p)
    as (_ & _ & Rs & _).
  unfold createManagedObject. by rewrite Rs.
Qed.

(** The returned reference is the last element of [active], whatever the
    case. *)
Lemma get_active_last now1 now2 p :
  ∃ l, active (snd (get now1 now2 p)) = l ++ [fst (get now1 now2 p)].
Proof.
  unfold get.
  destruct (last (pool p)); [simpl; eauto|].
  destruct (hasCapacityAvailable p); [simpl; eauto|].
  unfold recycleOldest. destruct (active p); simpl; eauto.
Qed.










End PoolPolicy.

Section PoolGet.
Import ObjectPool.




End PoolGet.

Section PoolGetPolicy.
Import ObjectPool.





End PoolGetPolicy.

(** ** Quality level of the performance controller *)

Lemma Qltb_lt a b : Qltb a b = true ↔ (a < b)%Q.
Proof.
  unfold Qltb. rewrite negb_true_iff. split.
  - intros H. apply Qnot_le_lt. intros Hle.
    apply Qle_bool_iff in Hle. congruence.
  - intros H. destruct (Qle_bool b a) eqn:E; [|done].
    apply Qle_bool_iff in E. by apply Qlt_not_le in H.
Qed.

Lemma Qltb_nlt a b : Qltb a b = false ↔ ¬ (a < b)%Q.
Proof.
  rewrite <- Qltb_lt. destruct (Qltb a b); split; (done || congruence).
Qed.

Lemma Qgeb_le a b : Qgeb a b = true ↔ (b <= a)%Q.
Proof. unfold Qgeb. apply Qle_bool_iff. Qed.

Section Quality.
Import PerformanceManager.

Definition level_ok (p : t) : Prop :=
  autoOptimize p = true
  ∧ (qualityLevel p = 0 ∨ qualityLevel p = 1 ∨ qualityLevel p = 2).

Definition next_level (m : Q) (q : Z) : Z :=
  if Qltb m 40 && bool_decide (q > 0) then q - 1
  else if Qltb 58 m && bool_decide (q < 2) then q + 1
  else q.

Lemma adjustQuality_spec p :
  fpsHistory p ≠ [] →
  qualityLevel (adjustQuality p) = next_level (mean (fpsHistory p)) (qualityLevel p)
  ∧ fpsHistory (adjustQuality p) = fpsHistory p
  ∧ autoOptimize (adjustQuality p) = autoOptimize p.
Proof.
  intros Hne. unfold adjustQuality, next_level.
  destruct (fpsHistory p) as [|f h] eqn:Hh; [done|].
  destruct (Qltb (mean (f :: h)) 40 && bool_decide (qualityLevel p > 0));
    [by rewrite <- Hh|].
  destruct (Qltb 58 (mean (f :: h)) && bool_decide (qualityLevel p < 2));
    by rewrite <- Hh.
Qed.

Lemma next_level_range m q :
  q = 0 ∨ q = 1 ∨ q = 2 →
  next_level m q = 0 ∨ next_level m q = 1 ∨ next_level m q = 2.
Proof.
  intros Hq. unfold next_level.
  destruct (Qltb m 40); destruct (Qltb 58 m); simpl;
    repeat case_bool_decide; lia.
Qed.

(** One [update], split by whether a sample is pushed and whether the
    history is then long enough for [adjustQuality]. *)
Lemma update_level time p :
  autoOptimize p = true →
  let p' := update time p in
  autoOptimize p' = true
  ∧ ((Qgeb (time - lastTime p) 1000 = false ∧ qualityLevel p' = qualityLevel p)
     ∨ (Qgeb (time - lastTime p) 1000 = true
        ∧ (length (fpsHistory p') < 10)%nat ∧ qualityLevel p' = qualityLevel p)
     ∨ (Qgeb (time - lastTime p) 1000 = true
        ∧ (10 ≤ length (fpsHistory p'))%nat
        ∧ qualityLevel p' = next_level (mean (fpsHistory p')) (qualityLevel p))).
Proof.
  intros Ha p'. subst p'. unfold update.
  destruct (Qgeb (time - lastTime p) 1000) eqn:Hg; [|split; [done | left; done]].
  match goal with |- context [adjustQuality ?q] => set (p1 := q) end.
  assert (Ha1 : autoOptimize p1 = true) by done.
  rewrite Ha1. cbn [andb].
  case_bool_decide as Hlen.
  - change (10 ≤ length (fpsHistory p1))%nat in Hlen.
    assert (Hne : fpsHistory p1 ≠ []).
    { intros Hnil. rewrite Hnil in Hlen. simpl in Hlen. lia. }
    destruct (adjustQuality_spec p1 Hne) as (Hq & Hh & Hauto).
    split; [congruence|]. right; right.
    rewrite Hh. split; [done|]. split; [done|]. exact Hq.
  - split; [done|]. right; left. split; [done|]. split; [|done].
    change (¬ (10 ≤ length (fpsHistory p1))%nat) in Hlen. lia.
Qed.

Lemma update_level_ok time p : level_ok p → level_ok (update time p).
Proof.
  intros [Ha Hq]. destruct (update_level time p Ha) as (Ha' & Hc).
  split; [done|].
  destruct Hc as [(_ & ->)|[(_ & _ & ->)|(_ & _ & ->)]]; try done.
  by apply next_level_range.
Qed.

Lemma run_level_ok times p : level_ok p → level_ok (run times p).
Proof.
  revert p. induction times as [|time times IH]; intros p H; simpl; [done|].
  by apply IH, update_level_ok.
Qed.

(** (C4) In every state reached from the constructor by [update] calls the
    quality level is 0, 1 or 2.  An [update] changes it only when a sample
    was pushed and the history then holds at least 10 samples; in that
    case the level goes down by one if the mean of the history is below 40
    and the level above 0, otherwise up by one if the mean is above 58 and
    the level below 2, and otherwise stays. *)
Theorem quality_level_transitions (times : list Q) (time : Q) :
  let p := run times new in
  let p' := update time p in
  let m := mean (fpsHistory p') in
  (qualityLevel p = 0 ∨ qualityLevel p = 1 ∨ qualityLevel p = 2)
  ∧ (qualityLevel p' ≠ qualityLevel p →
       (1000 <= time - lastTime p)%Q ∧ (10 ≤ length (fpsHistory p'))%nat)
  ∧ ((1000 <= time - lastTime p)%Q → (10 ≤ length (fpsHistory p'))%nat →
       ((m < 40)%Q → qualityLevel p > 0 → qualityLevel p' = qualityLevel p - 1)
       ∧ (¬ ((m < 40)%Q ∧ qualityLevel p > 0) → (58 < m)%Q → qualityLevel p < 2 →
            qualityLevel p' = qualityLevel p + 1)
       ∧ (¬ ((m < 40)%Q ∧ qualityLevel p > 0) →
          ¬ ((58 < m)%Q ∧ qualityLevel p < 2) →
            qualityLevel p' = qualityLevel p)).
Proof.
  intros p p' m.
  assert (Hok : level_ok p).
  { apply run_level_ok. split; [done|]. right; left; done. }
  destruct Hok as [Ha Hq]. split; [done|].
  destruct (update_level time p Ha) as (_ & Hstep). fold p' in Hstep. fold m in Hstep.
  split.
  - intros Hne.
    destruct Hstep as [(_ & ?)|[(_ & _ & ?)|(Hg & Hlen & _)]]; [done|done|].
    split; [by apply Qgeb_le | done].
  - intros Ht Hlen. apply Qgeb_le in Ht.
    destruct Hstep as [(Hg & _)|[(_ & ? & _)|(_ & _ & ->)]]; [congruence|lia|].
    unfold next_level. split; [|split].
    + intros H1 H2. apply Qltb_lt in H1. rewrite H1.
      by rewrite bool_decide_true.
    + intros Hn H1 H2. apply Qltb_lt in H1. rewrite H1.
      rewrite (bool_decide_true (qualityLevel p < 2)) by done.
      destruct (Qltb m 40) eqn:E; [|done]. apply Qltb_lt in E.
      rewrite bool_decide_false; [done|]. intros ?. apply Hn. done.
    + intros Hn1 Hn2.
      destruct (Qltb m 40) eqn:E1; [apply Qltb_lt in E1|];
        destruct (Qltb 58 m) eqn:E2; [apply Qltb_lt in E2| | apply Qltb_lt in E2|];
        simpl; repeat case_bool_decide; try done; tauto.
Qed.

(** Ten seconds at one frame per second: the tenth sample brings the mean
    to 1 and the level from 1 down to 0. *)
Lemma quality_level_transitions_witness :
  qualityLevel (run [1000; 2000; 3000; 4000; 5000; 6000; 7000; 8000; 9000]%Q new) = 1
  ∧ qualityLevel
      (update 10000
         (run [1000; 2000; 3000; 4000; 5000; 6000; 7000; 8000; 9000]%Q new)) = 0.
Proof.
  split; [reflexivity|].
  destruct (quality_level_transitions
              [1000; 2000; 3000; 4000; 5000; 6000; 7000; 8000; 9000]%Q 10000)
    as (_ & _ & H).
  destruct H as (H & _).
  - vm_compute. discriminate.
  - vm_compute. lia.
  - rewrite H; [reflexivity | vm_compute; reflexivity | vm_compute; reflexivity].
Defined.

End Quality.

(** ** Sample runs

    States reached from [create] by sequences of events, on which the
    properties below are exercised.  The item pool hands out object 24
    first, and again after each release. *)

Section Runs.
Import GameScene.

Lemma enabledb_enabled ev s : enabledb ev s = true → enabled ev s.
Proof.
  unfold enabledb, enabled. intros H. apply andb_true_iff in H as [H1 H2].
  apply negb_true_iff in H1. split; [done|].
  destruct ev; try done; by apply bool_decide_eq_true in H2.
Qed.

Lemma playable_reachable e extraLife startShield evs s :
  reachable e extraLife startShield s → playable evs s = true →
  reachable e extraLife startShield (play evs s).
Proof.
  revert s. induction evs as [|ev evs IH]; intros s Hs Hp; simpl in *; [done|].
  apply andb_true_iff in Hp as [H1 H2].
  apply IH; [|done]. apply reach_step; [done | by apply enabledb_enabled].
Qed.

(** Normal difficulty, player level 1, no gear, a camera 800 wide. *)
Definition plain_env : Env := mkEnv "normal" 1 None 800.

(** The run at its start, without upgrades. *)
Definition fresh_run : t := create plain_env false false.

(** One item per iteration at [x = 100], of the type that [rand] rolls;
    [count] is the chaos-mode draw of the number of items. *)
Definition draws_of (rand : Q) (count : Z) : SpawnDraws :=
  mkSpawnDraws count (fun _ => mkItemDraw 100 rand 0 0).

Definition falling (rand : Q) : event := SpawnItem (draws_of rand 1).

(** A call of [catchItem] that reads [now] from the clock every time. *)
Definition at_time (now : Z) : Clock := mkClock now (fun _ => now) now.

Definition catch_one (rand : Q) (now : Z) : list event :=
  [falling rand; CatchItem (at_time now) 0 24%nat].

Definition miss_one : list event := [falling 0.9; MissItem 24%nat].

(** Regular items caught one per second. *)
Definition four_catches : list event :=
  catch_one 0.9 1000 ++ catch_one 0.9 2000 ++ catch_one 0.9 3000
  ++ catch_one 0.9 4000.

(** One regular item caught, a second one on its way down. *)
Definition second_falling : t := play (catch_one 0.9 1000 ++ [falling 0.9]) fresh_run.

(** One regular item caught, a bomb on its way down. *)
Definition bomb_falling : t := play (catch_one 0.9 1000 ++ [falling 0.05]) fresh_run.

(** Four regular items caught, a fifth on its way down. *)
Definition four_caught : t := play (four_catches ++ [falling 0.9]) fresh_run.


(** Six regular items caught (score 80), a seventh on its way down. *)
Definition six_caught : t :=
  play (four_catches ++ catch_one 0.9 5000 ++ catch_one 0.9 6000 ++ [falling 0.9])
       fresh_run.

(** Three regular items on their way down. *)
Definition three_falling : t := play [falling 0.9; falling 0.9; falling 0.9] fresh_run.

(** With the extra-life upgrade: a health item caught (five lives), a second
    one on its way down. *)
Definition health_falling : t :=
  play (catch_one 0.51 1000 ++ [falling 0.51]) (create plain_env true false).

(** A run to level 5, and with it to chaos mode: regular items are caught
    and missed so that the score stops at 100 and at 200, two giant items
    then take it to 500 and to 900. *)
Definition to_level_five : list event :=
  four_catches ++ catch_one 0.9 5000 ++ catch_one 0.9 6000
  ++ catch_one 0.9 7000 ++ miss_one
  ++ catch_one 0.9 9000 ++ catch_one 0.9 10000 ++ catch_one 0.9 11000
  ++ catch_one 0.9 12000 ++ miss_one
  ++ catch_one 0.9 14000 ++ catch_one 0.36 15000 ++ catch_one 0.36 16000.


(** Player level 25, where the combo bonus is [1 + 0.25 + 0.15]. *)
Definition veteran_env : Env := mkEnv "normal" 25 None 800.

(** At player level 25: a regular item on its way down. *)
Definition veteran_first : t := play [falling 0.9] (create veteran_env false false).

(** At player level 25: a mystery item has tripled the score multiplier, a
    glitch item, of value 30, is on its way down. *)
Definition veteran_tripled : t :=
  play [falling 0.53; CatchItem (at_time 1000) 2 24%nat; falling 0.41]
       (create veteran_env false false).

(** Chaos mode on, fourteen items in flight. *)
Definition chaos_fourteen : t :=
  play (to_level_five ++ replicate 14 (falling 0.9)) fresh_run.

End Runs.

(** ** Scoring of a catch *)

Section Scoring.
Import GameScene.

(** The item types that [catchItem] takes to its scoring path as they
    are. *)
Definition scoring_type (it : Sprite) : Prop :=
  itemType it ≠ Some "freeze" ∧ itemType it ≠ Some "health"
  ∧ itemType it ≠ Some "mystery" ∧ itemType it ≠ Some "bomb"
  ∧ itemType it ≠ Some "virus".

(** A bomb as the converter leaves it: a gold item of value 50. *)
Definition converted (it : Sprite) : Sprite :=
  setTexture "item_gold" (setValue 50 (setItemType (Some "gold") it)).

(** The item that the scoring path scores when [it] is caught in [s]: the
    item itself, the gold item that a bomb has become under a converter,
    and none for the catches that return before the scoring path. *)
Definition scoring_item (it : Sprite) (s : t) : option Sprite :=
  if typeIs it "freeze" || typeIs it "health" || typeIs it "mystery"
     || typeIs it "virus" then None
  else if typeIs it "bomb" then
    if has "converter" s then Some (converted it) else None
  else Some it.

(** The effect an item has on the score multiplier before it is scored. *)
Definition primed (it : Sprite) (s : t) : t :=
  if typeIs it "glitch" then activateGlitchEffect s
  else if typeIs it "multiplier" then activateMultiplier s
  else s.

(** The state in which the scoring path starts: a bomb is gold in the pool
    by then, a glitch or multiplier item has had its effect. *)
Definition ready (item : ObjRef) (it : Sprite) (s : t) : t :=
  if typeIs it "bomb" then
    updateItem (setTexture "item_gold") item
      (updateItem (setValue 50) item
         (updateItem (setItemType (Some "gold")) item s))
  else primed it s.

Lemma typeIs_true it name : typeIs it name = true ↔ itemType it = Some name.
Proof. unfold typeIs. by rewrite bool_decide_eq_true. Qed.

Lemma typeIs_false it name : typeIs it name = false ↔ itemType it ≠ Some name.
Proof. unfold typeIs. by rewrite bool_decide_eq_false. Qed.

Lemma typeIs_converted it name :
  name ≠ "gold" → typeIs (converted it) name = false.
Proof. intros H. apply typeIs_false. cbn. congruence. Qed.

Lemma scoring_type_item it s : scoring_type it → scoring_item it s = Some it.
Proof.
  intros (Hf & Hh & Hm & Hb & Hv). unfold scoring_item.
  apply typeIs_false in Hf, Hh, Hm, Hb, Hv. by rewrite Hf, Hh, Hm, Hb, Hv.
Qed.

Lemma catchItem_scoring clock pick item it it' s :
  ObjectPool.store (itemPool s) !! item = Some it →
  scoring_item it s = Some it' →
  catchItem clock pick item s = scoreCatch clock item it' (ready item it s).
Proof.
  intros Hit Hsc. unfold catchItem, scoring_item, ready in *. rewrite Hit.
  destruct (typeIs it "freeze"); [done|].
  destruct (typeIs it "health"); [done|].
  destruct (typeIs it "mystery"); [done|].
  destruct (typeIs it "bomb") eqn:Hb.
  - destruct (typeIs it "virus"); [done|]. cbn [orb] in Hsc.
    destruct (has "converter" s); [|done]. cbn [andb negb].
    injection Hsc as <-. fold (converted it).
    by rewrite !typeIs_converted by discriminate.
  - cbn [andb]. destruct (typeIs it "virus") eqn:Hv; [done|].
    cbn [orb] in Hsc. injection Hsc as <-. unfold primed.
    destruct (typeIs it "glitch"); [done|]. by destruct (typeIs it "multiplier").
Qed.


Lemma levelUp_keeps s :
  score (levelUp s) = score s ∧ combo (levelUp s) = combo s
  ∧ lives (levelUp s) = lives s ∧ level (levelUp s) = level s + 1
  ∧ performanceScore (levelUp s) = performanceScore s
  ∧ recentCatches (levelUp s) = recentCatches s
  ∧ sceneOver (levelUp s) = sceneOver s.
Proof. unfold levelUp. case_bool_decide; done. Qed.

Lemma primed_keeps it s :
  score (primed it s) = score s ∧ combo (primed it s) = combo s
  ∧ level (primed it s) = level s ∧ lives (primed it s) = lives s
  ∧ overchargeActive (primed it s) = overchargeActive s
  ∧ env (primed it s) = env s
  ∧ recentCatches (primed it s) = recentCatches s
  ∧ performanceScore (primed it s) = performanceScore s
  ∧ sceneOver (primed it s) = sceneOver s
  ∧ scoreMultiplier (primed it s)
    = if typeIs it "multiplier" && negb (typeIs it "glitch") then 2
      else scoreMultiplier s.
Proof.
  unfold primed, activateGlitchEffect, activateMultiplier.
  destruct (typeIs it "glitch"); [destruct (glitchActive s)|];
    destruct (typeIs it "multiplier"); done.
Qed.

Lemma multiplier_not_glitch it :
  typeIs it "multiplier" && negb (typeIs it "glitch") = typeIs it "multiplier".
Proof.
  unfold typeIs. repeat case_bool_decide; try done. congruence.
Qed.

(** What the scoring path finds of the state [s] of the catch. *)
Lemma ready_keeps item it s :
  let q := ready item it s in
  score q = score s ∧ combo q = combo s
  ∧ level q = level s ∧ lives q = lives s
  ∧ overchargeActive q = overchargeActive s
  ∧ env q = env s
  ∧ recentCatches q = recentCatches s
  ∧ performanceScore q = performanceScore s
  ∧ sceneOver q = sceneOver s
  ∧ isChaosMode q = isChaosMode s
  ∧ scoreMultiplier q
    = if typeIs it "multiplier" then 2 else scoreMultiplier s.
Proof.
  unfold ready. destruct (typeIs it "bomb") eqn:Hb.
  - destruct (typeIs it "multiplier") eqn:Hm; [|repeat split; reflexivity].
    apply typeIs_true in Hb, Hm. congruence.
  - destruct (primed_keeps it s) as (H1 & H2 & H3 & H4 & H5 & H6 & H7 & H8 & H9 & H10).
    rewrite multiplier_not_glitch in H10.
    repeat split; try done.
    unfold primed, activateGlitchEffect, activateMultiplier.
    destruct (typeIs it "glitch"); [destruct (glitchActive s)|];
      destruct (typeIs it "multiplier"); done.
Qed.

Lemma keepRecent_Forall (P : Catch → Prop) readings i cs :
  Forall P cs → Forall P (keepRecent readings i cs).
Proof.
  revert i. induction cs as [|c cs IH]; intros i H; simpl; [done|].
  inversion_clear H. case_bool_decide; [constructor|]; auto.
Qed.

Lemma countCatch_fields clock it s :
  let u := countCatch clock it s in
  combo u = combo s + 1
  ∧ recentCatches u
    = keepRecent (filterTime clock) 0
        (recentCatches s ++ [mkCatch (pushTime clock) (value it)])
  ∧ score u = score s ∧ level u = level s ∧ lives u = lives s
  ∧ scoreMultiplier u = scoreMultiplier s
  ∧ overchargeActive u = overchargeActive s
  ∧ isChaosMode u = isChaosMode s
  ∧ env u = env s ∧ sceneOver u = sceneOver s.
Proof. repeat split; reflexivity. Qed.

Lemma updatePerformanceScore_keeps s :
  let u := updatePerformanceScore s in
  combo u = combo s ∧ recentCatches u = recentCatches s
  ∧ score u = score s ∧ level u = level s ∧ lives u = lives s
  ∧ scoreMultiplier u = scoreMultiplier s
  ∧ overchargeActive u = overchargeActive s
  ∧ isChaosMode u = isChaosMode s
  ∧ env u = env s ∧ sceneOver u = sceneOver s.
Proof. repeat split; reflexivity. Qed.

Lemma tallyCatch_fields it s :
  let u := tallyCatch it s in
  combo u = combo s ∧ recentCatches u = recentCatches s
  ∧ score u = score s ∧ level u = level s ∧ lives u = lives s
  ∧ scoreMultiplier u = scoreMultiplier s
  ∧ overchargeActive u = overchargeActive s
  ∧ isChaosMode u = isChaosMode s
  ∧ env u = env s ∧ sceneOver u = sceneOver s
  ∧ performanceScore u = performanceScore s
  ∧ itemSpeed u = itemSpeed s ∧ spawnRate u = spawnRate s
  ∧ spawnTimerDelay u = spawnTimerDelay s.
Proof. unfold tallyCatch. destruct (typeIs it "gold"); repeat split; reflexivity. Qed.

Lemma awardPoints_fields it s :
  let u := awardPoints it s in
  score u = score s + points it s
  ∧ combo u = combo s ∧ recentCatches u = recentCatches s
  ∧ level u = level s ∧ lives u = lives s
  ∧ isChaosMode u = isChaosMode s
  ∧ env u = env s ∧ sceneOver u = sceneOver s
  ∧ performanceScore u = performanceScore s
  ∧ itemSpeed u = itemSpeed s ∧ spawnRate u = spawnRate s
  ∧ spawnTimerDelay u = spawnTimerDelay s.
Proof. repeat split; reflexivity. Qed.

(** [points] reads the level, the combo, the score multiplier, the
    overcharge flag and the environment only. *)
Lemma points_ext it s u :
  level u = level s → combo u = combo s → scoreMultiplier u = scoreMultiplier s →
  overchargeActive u = overchargeActive s → env u = env s →
  points it u = points it s.
Proof. unfold points, fortuneAura. by intros -> -> -> -> ->. Qed.

(** The fields of the state once the scoring path has run, before its
    level-up test. *)
Lemma scored_fields clock item it s :
  let s1 := scored clock item it s in
  let u := updatePerformanceScore (countCatch clock it s) in
  score s1 = score s + points it (set_combo (combo s + 1) s)
  ∧ combo s1 = combo s + 1
  ∧ level s1 = level s ∧ lives s1 = lives s ∧ sceneOver s1 = sceneOver s
  ∧ recentCatches s1
    = keepRecent (filterTime clock) 0
        (recentCatches s ++ [mkCatch (pushTime clock) (value it)])
  ∧ performanceScore s1 = performanceScore u
  ∧ itemSpeed s1 = itemSpeed u ∧ spawnRate s1 = spawnRate u
  ∧ spawnTimerDelay s1 = spawnTimerDelay u
  ∧ isChaosMode s1 = isChaosMode s ∧ env s1 = env s.
Proof.
  intros s1 u.
  destruct (countCatch_fields clock it s)
    as (C1 & C2 & C3 & C4 & C5 & C6 & C7 & C8 & C9 & C10).
  destruct (updatePerformanceScore_keeps (countCatch clock it s))
    as (U1 & U2 & U3 & U4 & U5 & U6 & U7 & U8 & U9 & U10).
  fold u in U1, U2, U3, U4, U5, U6, U7, U8, U9, U10.
  destruct (tallyCatch_fields it u)
    as (T1 & T2 & T3 & T4 & T5 & T6 & T7 & T8 & T9 & T10 & T11 & T12 & T13 & T14).
  destruct (awardPoints_fields it (tallyCatch it u))
    as (A1 & A2 & A3 & A4 & A5 & A6 & A7 & A8 & A9 & A10 & A11 & A12).
  change (score s1) with (score (awardPoints it (tallyCatch it u))).
  change (combo s1) with (combo (awardPoints it (tallyCatch it u))).
  change (level s1) with (level (awardPoints it (tallyCatch it u))).
  change (lives s1) with (lives (awardPoints it (tallyCatch it u))).
  change (sceneOver s1) with (sceneOver (awardPoints it (tallyCatch it u))).
  change (recentCatches s1) with (recentCatches (awardPoints it (tallyCatch it u))).
  change (performanceScore s1)
    with (performanceScore (awardPoints it (tallyCatch it u))).
  change (itemSpeed s1) with (itemSpeed (awardPoints it (tallyCatch it u))).
  change (spawnRate s1) with (spawnRate (awardPoints it (tallyCatch it u))).
  change (spawnTimerDelay s1)
    with (spawnTimerDelay (awardPoints it (tallyCatch it u))).
  change (isChaosMode s1) with (isChaosMode (awardPoints it (tallyCatch it u))).
  change (env s1) with (env (awardPoints it (tallyCatch it u))).
  rewrite A1, A2, A3, A4, A5, A6, A7, A8, A9, A10, A11, A12.
  rewrite T1, T2, T3, T4, T5, T8, T9, T10, T11, T12, T13, T14.
  rewrite U1, U2, U3, U4, U5, U8, U9, U10.
  rewrite C1, C2, C3, C4, C5, C8, C9, C10.
  split; [|repeat split; reflexivity].
  f_equal. apply points_ext; cbn [level combo scoreMultiplier overchargeActive env set_combo];
    congruence.
Qed.

Lemma scored_score clock item it s :
  score (scored clock item it s)
  = score s + points it (set_combo (combo s + 1) s)
  ∧ combo (scored clock item it s) = combo s + 1
  ∧ level (scored clock item it s) = level s
  ∧ lives (scored clock item it s) = lives s
  ∧ sceneOver (scored clock item it s) = sceneOver s.
Proof.
  destruct (scored_fields clock item it s) as (H1 & H2 & H3 & H4 & H5 & _). done.
Qed.

Lemma scoreCatch_score clock item it s :
  score (scoreCatch clock item it s)
  = score s + points it (set_combo (combo s + 1) s)
  ∧ combo (scoreCatch clock item it s) = combo s + 1.
Proof.
  unfold scoreCatch.
  destruct (scored_score clock item it s) as (H1 & H2 & _).
  destruct (_ && _); [|done].
  destruct (levelUp_keeps (scored clock item it s)) as (-> & -> & _). done.
Qed.

End Scoring.

Section ScoringFormula.
Import GameScene.

(** The formula of the specification in exact arithmetic, on the state in
    which the item is caught and for a given bonus of the player level. *)
Definition exact_points (it : Sprite) (s : t) (comboLevelBonus : Q) : Z :=
  let comboMult := Z.min ((combo s + 1) / 5 + 1) 5 in
  let overchargeBonus := if overchargeActive s then 2 else 1 in
  let equipmentBonus := if fortuneAura s then 1.5%Q else 1%Q in
  Qfloor (inject_Z (value it) * inject_Z (level s) * inject_Z comboMult
          * inject_Z (scoreMultiplier s) * inject_Z overchargeBonus
          * equipmentBonus * comboLevelBonus).

(** (C2, as stated) fails at player level 25, where the combo bonus is
    [1 + 0.25 + 0.15], the double next below 1.4.  A glitch item of value 30
    caught under a tripled score multiplier scores 125, and the exact
    product 30 × 3 × 1.4 is 126.  Nor is the score the floor of the exact
    product with the bonus at its value as a double: the first regular item
    scores 14, the product in doubles being rounded up to 14, where the
    exact product lies below 14. *)
Lemma catch_points_counterexample :
  let bonus := LevelingSystem.comboMultiplier (LevelingSystem.getStatBonuses 25) in
  let glitch := default (newSprite "")
                  (ObjectPool.store (itemPool veteran_tripled) !! 24%nat) in
  let regular := default (newSprite "")
                   (ObjectPool.store (itemPool veteran_first) !! 24%nat) in
  (itemType glitch = Some "glitch" ∧ value glitch = 30
   ∧ level veteran_tripled = 1 ∧ combo veteran_tripled = 0
   ∧ scoreMultiplier veteran_tripled = 3
   ∧ score (catchItem (at_time 2000) 0 24%nat veteran_tripled)
     = score veteran_tripled + 125
   ∧ exact_points glitch veteran_tripled (1 + 0.25 + 0.15) = 126
   ∧ score (catchItem (at_time 2000) 0 24%nat veteran_tripled)
     ≠ score veteran_tripled
       + exact_points glitch veteran_tripled (1 + 0.25 + 0.15))
  ∧ (itemType regular = Some "regular" ∧ value regular = 10
     ∧ level veteran_first = 1 ∧ combo veteran_first = 0
     ∧ scoreMultiplier veteran_first = 1
     ∧ score (catchItem (at_time 1000) 0 24%nat veteran_first)
       = score veteran_first + 14
     ∧ exact_points regular veteran_first (Binary64.toQ bonus) = 13
     ∧ score (catchItem (at_time 1000) 0 24%nat veteran_first)
       ≠ score veteran_first
         + exact_points regular veteran_first (Binary64.toQ bonus)).
Proof. vm_compute. repeat split; try reflexivity; discriminate. Qed.

(** (C2, amended) A catch that reaches the scoring path raises the combo by
    one and adds [floor(value × level × comboMultiplier × scoreMultiplier ×
    overchargeBonus × equipmentBonus × comboLevelBonus)] to the score, the
    product taken in doubles from the left, with [comboMultiplier =
    min(floor(combo / 5) + 1, 5)] taken on the raised combo,
    [scoreMultiplier] as the item itself leaves it (a multiplier item sets
    it to 2 first), [overchargeBonus] 2 during an overcharge and 1
    otherwise.  A regular item of value 10 caught at level 1 as the fifth of
    a streak, all other factors being 1, scores 20. *)
Theorem catch_points (clock : Clock) (pick : Z) (item : ObjRef) (it : Sprite)
    (s : t) :
  ObjectPool.store (itemPool s) !! item = Some it →
  scoring_type it →
  let s' := catchItem clock pick item s in
  let comboMult := Z.min ((combo s + 1) / 5 + 1) 5 in
  let scoreMult := if typeIs it "multiplier" then 2 else scoreMultiplier s in
  let overchargeBonus := if overchargeActive s then 2 else 1 in
  let equipmentBonus :=
    if fortuneAura s then Binary64.dec 15 1 else Binary64.ofZ 1 in
  let comboLevelBonus :=
    LevelingSystem.comboMultiplier
      (LevelingSystem.getStatBonuses (playerLevel (env s))) in
  combo s' = combo s + 1
  ∧ score s' =
      score s
      + Binary64.floor
          (Binary64.ofZ (value it) * Binary64.ofZ (level s)
           * Binary64.ofZ comboMult * Binary64.ofZ scoreMult
           * Binary64.ofZ overchargeBonus * equipmentBonus
           * comboLevelBonus)%b64
  ∧ (value it = 10 → level s = 1 → combo s = 4 → scoreMult = 1 →
     overchargeBonus = 1 → equipmentBonus = Binary64.ofZ 1 →
     comboLevelBonus = Binary64.ofZ 1 →
     score s' = score s + 20).
Proof.
  intros Hit Hty s' comboMult scoreMult overchargeBonus equipmentBonus comboLevelBonus.
  assert (Hs' : s' = scoreCatch clock item it (ready item it s)).
  { apply catchItem_scoring; [done | by apply scoring_type_item]. }
  destruct (ready_keeps item it s)
    as (Hsc & Hco & Hle & _ & Hov & Henv & _ & _ & _ & _ & Hsm).
  destruct (scoreCatch_score clock item it (ready item it s)) as (Hscore & Hcombo).
  assert (Hpts : score s' =
      score s
      + Binary64.floor
          (Binary64.ofZ (value it) * Binary64.ofZ (level s)
           * Binary64.ofZ comboMult * Binary64.ofZ scoreMult
           * Binary64.ofZ overchargeBonus * equipmentBonus
           * comboLevelBonus)%b64).
  { rewrite Hs', Hscore, Hsc. f_equal.
    unfold points, fortuneAura. cbn [level combo scoreMultiplier overchargeActive env set_combo].
    rewrite Hle, Hco, Hsm, Hov, Henv. reflexivity. }
  split; [by rewrite Hs', Hcombo, Hco|]. split; [exact Hpts|].
  intros Hv Hl Hc Hm Ho He Hb. rewrite Hpts. f_equal.
  subst comboMult. rewrite Hv, Hl, Hc, Hm, Ho, He, Hb.
  vm_compute. reflexivity.
Qed.

Lemma catch_points_witness :
  score four_caught = 40
  ∧ score (catchItem (at_time 5000) 0 24%nat four_caught) = 60.
Proof.
  split; [reflexivity|].
  pose (it := default (newSprite "")
                (ObjectPool.store (itemPool four_caught) !! 24%nat)).
  destruct (catch_points (at_time 5000) 0 24%nat it four_caught) as (_ & _ & H).
  - vm_compute. reflexivity.
  - unfold scoring_type; repeat split; vm_compute; discriminate.
  - apply H; vm_compute; reflexivity.
Defined.

End ScoringFormula.

(** ** Missed items *)

Section Misses.
Import GameScene.

Lemma releaseItem_keeps item s :
  lives (releaseItem item s) = lives s ∧ combo (releaseItem item s) = combo s
  ∧ shieldUses (releaseItem item s) = shieldUses s
  ∧ activePowerups (releaseItem item s) = activePowerups s
  ∧ sceneOver (releaseItem item s) = sceneOver s
  ∧ score (releaseItem item s) = score s.
Proof. done. Qed.

Lemma has_true name s : has name s = true ↔ name ∈ activePowerups s.
Proof. unfold has. apply bool_decide_eq_true. Qed.

Lemma has_false name s : has name s = false ↔ name ∉ activePowerups s.
Proof. unfold has. apply bool_decide_eq_false. Qed.

Lemma missItem_bomb item it s :
  ObjectPool.store (itemPool s) !! item = Some it → itemType it = Some "bomb" →
  missItem item s = releaseItem item s.
Proof.
  intros Hit Hb. unfold missItem, typeIs. rewrite Hit.
  by rewrite bool_decide_eq_true_2.
Qed.

Lemma missItem_shielded item it s :
  ObjectPool.store (itemPool s) !! item = Some it → itemType it ≠ Some "bomb" →
  "shield" ∈ activePowerups s →
  missItem item s = releaseItem item (useShield s).
Proof.
  intros Hit Hb Hs. unfold missItem, typeIs. rewrite Hit.
  rewrite bool_decide_eq_false_2 by done.
  apply has_true in Hs. by rewrite Hs.
Qed.

Lemma missItem_unshielded item it s :
  ObjectPool.store (itemPool s) !! item = Some it → itemType it ≠ Some "bomb" →
  "shield" ∉ activePowerups s →
  let s' := missItem item s in
  combo s' = 0 ∧ lives s' = lives s - 1
  ∧ activePowerups s' = activePowerups s
  ∧ (lives s - 1 ≤ 0 → sceneOver s' = true)
  ∧ (0 < lives s - 1 → sceneOver s' = sceneOver s).
Proof.
  intros Hit Hb Hs. unfold missItem, typeIs. rewrite Hit.
  rewrite bool_decide_eq_false_2 by done.
  apply has_false in Hs. rewrite Hs. cbv zeta.
  change (lives (releaseItem item (updatePerformanceScore (penalise s))))
    with (lives s - 1).
  case_bool_decide; repeat split; intros; try reflexivity; lia.
Qed.

Lemma useShield_keeps s :
  (shieldUses (useShield s) == shieldUses s - 1)%Q
  ∧ combo (useShield s) = combo s ∧ lives (useShield s) = lives s
  ∧ sceneOver (useShield s) = sceneOver s
  ∧ score (useShield s) = score s.
Proof.
  unfold useShield. destruct (Qle_bool _ _); simpl; repeat split; reflexivity.
Qed.

(** What the specification says of a miss without shield, for the item
    [item] in the state [s]. *)
Definition miss_costs_a_life (item : ObjRef) (s : t) : Prop :=
  combo (missItem item s) = 0 ∧ lives (missItem item s) = lives s - 1.

(** (C5, as stated) fails on a bomb: missed without a shield, it costs
    neither the combo nor a life. *)
Lemma miss_bomb_counterexample :
  24%nat ∈ items bomb_falling
  ∧ mbind itemType (ObjectPool.store (itemPool bomb_falling) !! 24%nat) = Some "bomb"
  ∧ ("shield" ∉ activePowerups bomb_falling)
  ∧ lives (missItem 24%nat bomb_falling) = 3
  ∧ combo (missItem 24%nat bomb_falling) = 1
  ∧ ¬ miss_costs_a_life 24%nat bomb_falling.
Proof.
  split; [vm_compute; apply list_elem_of_here|].
  split; [reflexivity|].
  split; [apply has_false; vm_compute; reflexivity|].
  split; [reflexivity|]. split; [reflexivity|].
  intros [H _]. vm_compute in H. discriminate.
Qed.

End Misses.

Section MissPenalty.
Import GameScene.

(** (C5, amended) A missed bomb is only released: shield, combo and lives
    stay.  Any other missed item uses up exactly one shield charge and leaves
    combo and lives alone when a shield is held; without a shield the combo
    falls to 0 and one life is lost, and the run is over as soon as no life
    is left.  Three such misses from three lives end the run, and not
    before the third. *)
Theorem miss_penalty (item : ObjRef) (it : Sprite) (s : t) :
  ObjectPool.store (itemPool s) !! item = Some it →
  let s' := missItem item s in
  (itemType it = Some "bomb" →
     lives s' = lives s ∧ combo s' = combo s ∧ shieldUses s' = shieldUses s
     ∧ activePowerups s' = activePowerups s ∧ sceneOver s' = sceneOver s)
  ∧ (itemType it ≠ Some "bomb" → "shield" ∈ activePowerups s →
       (shieldUses s' == shieldUses s - 1)%Q
       ∧ combo s' = combo s ∧ lives s' = lives s ∧ sceneOver s' = sceneOver s)
  ∧ (itemType it ≠ Some "bomb" → "shield" ∉ activePowerups s →
       combo s' = 0 ∧ lives s' = lives s - 1
       ∧ (lives s' ≤ 0 → sceneOver s' = true)
       ∧ (0 < lives s' → sceneOver s' = sceneOver s))
  ∧ (∀ item2 item3 it2 it3,
       itemType it ≠ Some "bomb" → "shield" ∉ activePowerups s →
       lives s = 3 → sceneOver s = false →
       let s2 := missItem item2 s' in
       let s3 := missItem item3 s2 in
       ObjectPool.store (itemPool s') !! item2 = Some it2 →
       itemType it2 ≠ Some "bomb" →
       ObjectPool.store (itemPool s2) !! item3 = Some it3 →
       itemType it3 ≠ Some "bomb" →
       sceneOver s' = false ∧ sceneOver s2 = false
       ∧ sceneOver s3 = true ∧ lives s3 = 0).
Proof.
  intros Hit s'. split; [|split; [|split]].
  - intros Hb. subst s'. rewrite (missItem_bomb _ _ _ Hit Hb). done.
  - intros Hb Hs. subst s'. rewrite (missItem_shielded _ _ _ Hit Hb Hs).
    destruct (useShield_keeps s) as (H1 & H2 & H3 & H4 & _).
    destruct (releaseItem_keeps item (useShield s)) as (R1 & R2 & R3 & _ & R5 & _).
    rewrite R1, R2, R3, R5. done.
  - intros Hb Hs.
    destruct (missItem_unshielded _ _ _ Hit Hb Hs) as (H1 & H2 & _ & H4 & H5).
    fold s' in H1, H2, H4, H5. rewrite H2.
    split; [done|]. split; [done|]. split; done.
  - intros item2 item3 it2 it3 Hb Hs Hl Ho s2 s3 Hit2 Hb2 Hit3 Hb3.
    destruct (missItem_unshielded _ _ _ Hit Hb Hs) as (_ & L1 & P1 & _ & O1).
    fold s' in L1, P1, O1.
    assert (Hs1 : "shield" ∉ activePowerups s') by (by rewrite P1).
    destruct (missItem_unshielded _ _ _ Hit2 Hb2 Hs1) as (_ & L2 & P2 & _ & O2).
    fold s2 in L2, P2, O2.
    assert (Hs2 : "shield" ∉ activePowerups s2) by (by rewrite P2).
    destruct (missItem_unshielded _ _ _ Hit3 Hb3 Hs2) as (_ & L3 & _ & O3 & _).
    fold s3 in L3, O3.
    split; [rewrite O1; [done | lia]|].
    split; [rewrite O2, O1; [done | lia | lia]|].
    split; [apply O3; lia | lia].
Qed.

Lemma miss_penalty_witness :
  items three_falling = [24%nat; 23%nat; 22%nat]
  ∧ lives three_falling = 3
  ∧ sceneOver (missItem 23%nat (missItem 24%nat three_falling)) = false
  ∧ sceneOver (missItem 22%nat (missItem 23%nat (missItem 24%nat three_falling))) = true.
Proof.
  split; [reflexivity|]. split; [reflexivity|].
  pose (it1 := default (newSprite "")
     (ObjectPool.store (itemPool three_falling) !! 24%nat)).
  pose (it2 := default (newSprite "")
     (ObjectPool.store (itemPool (missItem 24%nat three_falling)) !! 23%nat)).
  pose (it3 := default (newSprite "")
     (ObjectPool.store
        (itemPool (missItem 23%nat (missItem 24%nat three_falling))) !! 22%nat)).
  destruct (miss_penalty 24%nat it1 three_falling) as (_ & _ & _ & H).
  - vm_compute. reflexivity.
  - destruct (H 23%nat 22%nat it2 it3) as (_ & H2 & H3 & _).
    + vm_compute. discriminate.
    + apply has_false. vm_compute. reflexivity.
    + reflexivity.
    + reflexivity.
    + vm_compute. reflexivity.
    + vm_compute. discriminate.
    + vm_compute. reflexivity.
    + vm_compute. discriminate.
    + split; assumption.
Defined.

End MissPenalty.

(** ** Adaptive difficulty *)

Section Difficulty.
Import GameScene.

(** The quantities of the specification's formulas. *)
Definition baseSpeed (s : t) : Q :=
  (if bool_decide (getDifficulty s = "easy") then 150
   else if bool_decide (getDifficulty s = "hard") then 250 else 200)%Q.

Definition baseSpawn (s : t) : Q :=
  (if bool_decide (getDifficulty s = "easy") then 2000
   else if bool_decide (getDifficulty s = "hard") then 1000 else 1500)%Q.


Definition valueSum (cs : list Catch) : Z :=
  foldl (fun sum c => sum + c_value c) 0 cs.



(** [clamp(lo, hi, x)] *)
Definition clamp (lo hi x : Q) : Q := Qmax lo (Qmin hi x).

(** [clamp(0, 10, (recentCatchRate + combo × 0.1 + recentValueSum × 0.01) / 3)]
    over the catch events [cs]. *)
Definition spec_performanceScore (cs : list Catch) (combo : Z) : Q :=
  clamp 0 10 ((inject_Z (Z.of_nat (length cs)) / 10 + inject_Z combo * 0.1
               + inject_Z (valueSum cs) * 0.01) / 3).

Definition speedAdjustment (ps : Q) : Q := (1 + ps * 0.05)%Q.
Definition spawnAdjustment (ps : Q) : Q := Qmax 0.7 (1 - ps * 0.03).

Lemma foldl_values_nonneg cs a :
  Forall (fun c => 0 ≤ c_value c) cs → 0 ≤ a →
  0 ≤ foldl (fun sum c => sum + c_value c) a cs.
Proof.
  revert a. induction cs as [|c cs IH]; intros a Hcs Ha; simpl; [done|].
  inversion_clear Hcs. apply IH; [done | lia].
Qed.

Lemma inject_Z_nonneg n : 0 ≤ n → (0 <= inject_Z n)%Q.
Proof. intros H. change 0%Q with (inject_Z 0). by rewrite <- Zle_Qle. Qed.

Lemma raw_nonneg (a b c : Q) :
  (0 <= a)%Q → (0 <= b)%Q → (0 <= c)%Q →
  (0 <= (a / 10 + b * 0.1 + c * 0.01) / 3)%Q.
Proof.
  intros. unfold Qdiv.
  change (/ 10)%Q with (1 # 10)%Q. change (/ 3)%Q with (1 # 3)%Q. lra.
Qed.

Lemma clamp_min x : (0 <= x)%Q → (clamp 0 10 x == Qmin 10 x)%Q.
Proof.
  intros Hx. unfold clamp. apply Q.max_r.
  apply Q.min_glb; [lra | done].
Qed.

Lemma min10_range x : (0 <= x)%Q → (0 <= Qmin 10 x)%Q ∧ (Qmin 10 x <= 10)%Q.
Proof.
  intros Hx. split; [apply Q.min_glb; [lra | done] | apply Q.le_min_l].
Qed.

(** The speed and the spawn interval that [updatePerformanceScore] derives
    from the score it has just computed; the lower bound 500 of the source
    never binds, the interval being at least 0.7 × 1000. *)
Lemma updatePerformanceScore_feedback s :
  let s' := updatePerformanceScore s in
  (itemSpeed s' == baseSpeed s * speedAdjustment (performanceScore s'))%Q
  ∧ (spawnRate s' == baseSpawn s * spawnAdjustment (performanceScore s'))%Q
  ∧ spawnTimerDelay s' = spawnRate s'.
Proof.
  intros s'. split; [reflexivity|]. split; [|reflexivity].
  change (spawnRate s') with
    (Qmax 500 (baseSpawn s * spawnAdjustment (performanceScore s'))).
  apply Q.max_r.
  assert (Ha : (0.7 <= spawnAdjustment (performanceScore s'))%Q)
    by apply Q.le_max_l.
  unfold baseSpawn. repeat case_bool_decide; lra.
Qed.

(** [updatePerformanceScore] in the terms of the specification. *)
Lemma updatePerformanceScore_spec s :
  0 ≤ combo s → Forall (fun c => 0 ≤ c_value c) (recentCatches s) →
  let s' := updatePerformanceScore s in
  (performanceScore s' == spec_performanceScore (recentCatches s) (combo s))%Q
  ∧ (0 <= performanceScore s')%Q ∧ (performanceScore s' <= 10)%Q.
Proof.
  intros Hc Hv s'.
  assert (Hraw : (0 <= (inject_Z (Z.of_nat (length (recentCatches s))) / 10
                        + inject_Z (combo s) * 0.1
                        + inject_Z (valueSum (recentCatches s)) * 0.01) / 3)%Q).
  { apply raw_nonneg; apply inject_Z_nonneg; [lia | done |].
    by apply foldl_values_nonneg. }
  split; [symmetry; by apply clamp_min|].
  by apply min10_range.
Qed.


End Difficulty.

(** ** Level-up *)

Section LevelUp.
Import GameScene.






End LevelUp.

Section LevelUpWitness.
Import GameScene.


End LevelUpWitness.

(** ** Lives *)

Section Lives.
Import GameScene.

Lemma gameOver_lives s : lives (gameOver s) = lives s.
Proof. reflexivity. Qed.

Lemma scoreCatch_lives clock item it s : lives (scoreCatch clock item it s) = lives s.
Proof.
  unfold scoreCatch.
  destruct (scored_score clock item it s) as (_ & _ & _ & H & _).
  destruct (_ && _); [|done].
  destruct (levelUp_keeps (scored clock item it s)) as (_ & _ & -> & _). done.
Qed.

Lemma useShield_lives s : lives (useShield s) = lives s.
Proof. unfold useShield. by destruct (Qle_bool _ _). Qed.

Lemma activateMystery_lives pick item s :
  lives (activateMystery pick item s)
  = if bool_decide (pick = 1) then Z.min (lives s + 1) 5 else lives s.
Proof.
  unfold activateMystery. case_bool_decide as Hp.
  - destruct (Z.to_nat pick) as [|[|[|[|n]]]] eqn:E; simpl;
      case_bool_decide; try reflexivity; lia.
  - case_bool_decide; [lia | reflexivity].
Qed.

Lemma bombHit_lives item s : lives (bombHit item s) = lives s - 1.
Proof. unfold bombHit. by case_bool_decide. Qed.

(** The lives after [catchItem], by the type of the item caught. *)
Lemma catchItem_lives clock pick item s :
  let s' := catchItem clock pick item s in
  match ObjectPool.store (itemPool s) !! item with
  | None => lives s' = lives s
  | Some it =>
      if typeIs it "freeze" then lives s' = lives s
      else if typeIs it "health" then lives s' = Z.min (lives s + 1) 5
      else if typeIs it "mystery" then
        lives s' = if bool_decide (pick = 1) then Z.min (lives s + 1) 5 else lives s
      else if typeIs it "bomb" && negb (has "converter" s) then lives s' = lives s - 1
      else lives s' = lives s
  end.
Proof.
  intros s'. subst s'. unfold catchItem.
  destruct (ObjectPool.store (itemPool s) !! item) as [it|]; [|done].
  destruct (typeIs it "freeze"); [done|].
  destruct (typeIs it "health"); [done|].
  destruct (typeIs it "mystery"); [apply activateMystery_lives|].
  destruct (typeIs it "bomb" && negb (has "converter" s)); [apply bombHit_lives|].
  destruct (typeIs it "bomb").
  - fold (converted it); rewrite !typeIs_converted by discriminate.
    by rewrite scoreCatch_lives.
  - destruct (typeIs it "glitch").
    { rewrite scoreCatch_lives. unfold activateGlitchEffect.
      by destruct (glitchActive s). }
    destruct (typeIs it "multiplier"); [by rewrite scoreCatch_lives|].
    destruct (typeIs it "virus").
    { unfold activateVirusEffect. by destruct (virusActive s). }
    by rewrite scoreCatch_lives.
Qed.

Lemma missItem_lives item s :
  lives (missItem item s) = lives s ∨ lives (missItem item s) = lives s - 1.
Proof.
  unfold missItem.
  destruct (ObjectPool.store (itemPool s) !! item) as [it|]; [|by left].
  destruct (typeIs it "bomb"); [by left|].
  destruct (has "shield" s).
  - left. apply useShield_lives.
  - right. cbv zeta.
    match goal with |- context [bool_decide ?P] => destruct (bool_decide P) end;
      reflexivity.
Qed.

Lemma spikeHit_lives s :
  lives (spikeHit s) = lives s ∨ lives (spikeHit s) = lives s - 1.
Proof.
  unfold spikeHit. destruct (has "shield" s); simpl.
  - left. apply useShield_lives.
  - right. case_bool_decide; reflexivity.
Qed.

Lemma fire_lives i s : lives (fire i s) = lives s.
Proof.
  unfold fire. destruct (pendingCalls s !! i) as [[d a]|]; [|done].
  by destruct a.
Qed.

Lemma collectPowerup_core ptype s :
  lives (collectPowerup ptype s) = lives s
  ∧ combo (collectPowerup ptype s) = combo s
  ∧ recentCatches (collectPowerup ptype s) = recentCatches s
  ∧ performanceScore (collectPowerup ptype s) = performanceScore s
  ∧ itemPool (collectPowerup ptype s) = itemPool s.
Proof.
  unfold collectPowerup. destruct (powerupTypes !! ptype) as [type|]; [|done].
  case_bool_decide; [done|]. by destruct (powerupDuration type).
Qed.

Lemma collectPowerup_lives ptype s : lives (collectPowerup ptype s) = lives s.
Proof. apply collectPowerup_core. Qed.

Lemma spawnOne_keeps d s :
  lives (spawnOne d s) = lives s ∧ combo (spawnOne d s) = combo s
  ∧ recentCatches (spawnOne d s) = recentCatches s
  ∧ performanceScore (spawnOne d s) = performanceScore s
  ∧ sceneOver (spawnOne d s) = sceneOver s
  ∧ score (spawnOne d s) = score s ∧ level (spawnOne d s) = level s
  ∧ detachedItems (spawnOne d s) = detachedItems s
  ∧ itemSpeed (spawnOne d s) = itemSpeed s
  ∧ isChaosMode (spawnOne d s) = isChaosMode s
  ∧ performanceManager (spawnOne d s) = performanceManager s.
Proof.
  unfold spawnOne.
  destruct (rollItem (d_rand d) (itemSpeed s)) as [[type v] sp].
  destruct (ObjectPool.get (d_now1 d) (d_now2 d) (itemPool s)) as [obj p'].
  case_bool_decide; repeat split; reflexivity.
Qed.

Lemma spawnLoop_keeps n i draws s :
  lives (spawnLoop n i draws s) = lives s
  ∧ combo (spawnLoop n i draws s) = combo s
  ∧ recentCatches (spawnLoop n i draws s) = recentCatches s
  ∧ performanceScore (spawnLoop n i draws s) = performanceScore s
  ∧ sceneOver (spawnLoop n i draws s) = sceneOver s
  ∧ score (spawnLoop n i draws s) = score s
  ∧ level (spawnLoop n i draws s) = level s
  ∧ detachedItems (spawnLoop n i draws s) = detachedItems s.
Proof.
  revert i s. induction n as [|n IH]; intros i s; simpl; [done|].
  destruct (IH (S i) (spawnOne (d_item draws i) s))
    as (-> & -> & -> & -> & -> & -> & -> & ->).
  destruct (spawnOne_keeps (d_item draws i) s)
    as (-> & -> & -> & -> & -> & -> & -> & -> & _). done.
Qed.

Lemma spawnItem_keeps draws s :
  lives (spawnItem draws s) = lives s
  ∧ combo (spawnItem draws s) = combo s
  ∧ recentCatches (spawnItem draws s) = recentCatches s
  ∧ performanceScore (spawnItem draws s) = performanceScore s.
Proof.
  unfold spawnItem. case_bool_decide; [done|].
  destruct (spawnLoop_keeps (Z.to_nat (if isChaosMode s then d_count draws else 1))
              0 draws s) as (-> & -> & -> & -> & _).
  done.
Qed.

End Lives.

Section LivesBound.
Import GameScene.

Lemma create_lives e extraLife startShield :
  lives (create e extraLife startShield) = if extraLife then 4 else 3.
Proof.
  unfold create, setDifficultyParams.
  destruct startShield; repeat case_bool_decide; reflexivity.
Qed.

(** A handler raises the lives only by catching a health item or by the
    extra-life outcome of a mystery item, and then to [min(lives + 1, 5)]. *)
Lemma handle_lives ev s :
  lives s < lives (handle ev s) →
  ∃ clock pick item it,
    ev = CatchItem clock pick item
    ∧ ObjectPool.store (itemPool s) !! item = Some it
    ∧ (itemType it = Some "health" ∨ (itemType it = Some "mystery" ∧ pick = 1))
    ∧ lives (handle ev s) = Z.min (lives s + 1) 5.
Proof.
  destruct ev as [draws|clock pick item|item| |bomb|ptype| |i|time]; simpl.
  - destruct (spawnItem_keeps draws s) as (-> & _). lia.
  - pose proof (catchItem_lives clock pick item s) as H. simpl in H.
    destruct (ObjectPool.store (itemPool s) !! item) as [it|] eqn:Hit; [|lia].
    destruct (typeIs it "freeze"); [lia|].
    destruct (typeIs it "health") eqn:Hh.
    { intros _. exists clock, pick, item, it.
      apply typeIs_true in Hh. by eauto 10. }
    destruct (typeIs it "mystery") eqn:Hm.
    { case_bool_decide as Hp; [|lia]. intros _. exists clock, pick, item, it.
      apply typeIs_true in Hm. by eauto 10. }
    destruct (typeIs it "bomb" && negb (has "converter" s)); lia.
  - destruct (missItem_lives item s); lia.
  - destruct (spikeHit_lives s); lia.
  - unfold destroyBomb. simpl. lia.
  - rewrite collectPowerup_lives. lia.
  - unfold activateOvercharge. destruct (_ || _); simpl; lia.
  - rewrite fire_lives. lia.
  - lia.
Qed.

(** (C9) In every state reached from [create] by the handlers of the scene
    the lives are at most 5; catching a health item and the extra-life
    outcome of a mystery item set them to [min(lives + 1, 5)], and no other
    handler raises them. *)
Theorem lives_at_most_five (e : Env) (extraLife startShield : bool) :
  (∀ s, reachable e extraLife startShield s → lives s ≤ 5)
  ∧ (∀ clock pick item it s,
       ObjectPool.store (itemPool s) !! item = Some it →
       itemType it = Some "health" →
       lives (catchItem clock pick item s) = Z.min (lives s + 1) 5)
  ∧ (∀ clock item it s,
       ObjectPool.store (itemPool s) !! item = Some it →
       itemType it = Some "mystery" →
       lives (catchItem clock 1 item s) = Z.min (lives s + 1) 5)
  ∧ (∀ ev s, lives s < lives (handle ev s) →
       ∃ clock pick item it,
         ev = CatchItem clock pick item
         ∧ ObjectPool.store (itemPool s) !! item = Some it
         ∧ (itemType it = Some "health"
            ∨ (itemType it = Some "mystery" ∧ pick = 1))
         ∧ lives (handle ev s) = Z.min (lives s + 1) 5).
Proof.
  split; [|split; [|split]].
  - intros s Hs. induction Hs as [|s ev Hs IH Hen].
    + rewrite create_lives. destruct extraLife; lia.
    + destruct (Z_lt_le_dec (lives s) (lives (handle ev s))) as [Hlt|Hle]; [|lia].
      destruct (handle_lives ev s Hlt) as (? & ? & ? & ? & _ & _ & _ & ->). lia.
  - intros clock pick item it s Hit Hty.
    pose proof (catchItem_lives clock pick item s) as H. simpl in H.
    rewrite Hit in H. unfold typeIs in H. rewrite Hty in H.
    rewrite bool_decide_eq_false_2 in H by discriminate.
    by rewrite bool_decide_eq_true_2 in H.
  - intros clock item it s Hit Hty.
    pose proof (catchItem_lives clock 1 item s) as H. simpl in H.
    rewrite Hit in H. unfold typeIs in H. rewrite Hty in H.
    rewrite !bool_decide_eq_false_2 in H by discriminate.
    rewrite (bool_decide_eq_true_2 (Some "mystery" = Some "mystery")) in H by done.
    exact H.
  - apply handle_lives.
Qed.

Lemma lives_at_most_five_witness :
  reachable plain_env true false health_falling
  ∧ lives health_falling = 5
  ∧ lives (catchItem (at_time 2000) 0 24%nat health_falling) = 5.
Proof.
  assert (Hr : reachable plain_env true false health_falling).
  { unfold health_falling.
    apply reach_step; [apply reach_step; [apply reach_step; [apply reach_create|]|]|].
    - split; [reflexivity | exact I].
    - split; [reflexivity | vm_compute; apply list_elem_of_here].
    - split; [reflexivity | exact I]. }
  split; [exact Hr|]. split; [vm_compute; reflexivity|].
  pose (it := default (newSprite "")
                (ObjectPool.store (itemPool health_falling) !! 24%nat)).
  destruct (lives_at_most_five plain_env true false)
    as (_ & H & _).
  rewrite (H (at_time 2000) 0 24%nat it health_falling); vm_compute; reflexivity.
Defined.

End LivesBound.

(** ** Concurrency cap of the spawner *)

Section SpawnCap.
Import GameScene.

Definition maxItems (s : t) : Z :=
  if bool_decide (PerformanceManager.qualityLevel (performanceManager s) = 0)
  then 8 else 15.

(** At the cap [spawnItem] does nothing. *)
Lemma spawnItem_noop_at_cap draws s :
  maxItems s ≤ Z.of_nat (length (items s)) → spawnItem draws s = s.
Proof.
  intros H. unfold spawnItem. fold (maxItems s).
  rewrite bool_decide_eq_true_2; [done | lia].
Qed.

End SpawnCap.

(** ** An invariant of the run: what enters the performance score *)

Section RunInvariant.
Import GameScene.

(** An item is a penalty item or is worth a non-negative value. *)
Definition item_ok (it : Sprite) : Prop :=
  0 ≤ value it ∨ itemType it = Some "bomb" ∨ itemType it = Some "virus".

Definition pool_ok (p : ObjectPool.t) : Prop :=
  Forall item_ok (ObjectPool.store p)
  ∧ (∀ x, item_ok (ObjectPool.resetFunc p x))
  ∧ item_ok (ObjectPool.createFunc p).

Definition run_inv (s : t) : Prop :=
  0 ≤ combo s
  ∧ Forall (fun c => 0 ≤ c_value c) (recentCatches s)
  ∧ ((0 <= performanceScore s)%Q ∧ (performanceScore s <= 10)%Q)
  ∧ pool_ok (itemPool s).

Lemma run_inv_ext s u :
  combo u = combo s → recentCatches u = recentCatches s →
  performanceScore u = performanceScore s → itemPool u = itemPool s →
  run_inv s → run_inv u.
Proof. unfold run_inv. by intros -> -> -> ->. Qed.

Lemma alter_alter {A} (f g : A → A) i (l : list A) :
  alter f i (alter g i l) = alter (f ∘ g) i l.
Proof.
  revert i. induction l as [|x l IH]; intros [|i]; simpl; [done..|].
  f_equal. apply IH.
Qed.

Lemma update_obj_compose f g o p :
  ObjectPool.update_obj f o (ObjectPool.update_obj g o p)
  = ObjectPool.update_obj (f ∘ g) o p.
Proof. unfold ObjectPool.update_obj, ObjectPool.with_store. simpl. by rewrite alter_alter. Qed.

Lemma pool_ok_update_obj f o p :
  (∀ x, item_ok x → item_ok (f x)) → pool_ok p →
  pool_ok (ObjectPool.update_obj f o p).
Proof.
  intros Hf (Hs & Hr & Hc). split; [|done].
  simpl. apply Forall_alter; [done|]. intros x _. apply Hf.
Qed.

Lemma pool_ok_overwrite f o p :
  (∀ x, item_ok (f x)) → pool_ok p → pool_ok (ObjectPool.update_obj f o p).
Proof. intros Hf. apply pool_ok_update_obj. intros x _. apply Hf. Qed.

Lemma item_ok_setActive b x : item_ok x → item_ok (setActive b x).
Proof. done. Qed.

Lemma item_ok_setVisible b x : item_ok x → item_ok (setVisible b x).
Proof. done. Qed.

Lemma item_ok_resetItem x : item_ok (resetItem x).
Proof. left. simpl. lia. Qed.

Lemma pool_ok_with_pool l p : pool_ok p → pool_ok (ObjectPool.with_pool l p).
Proof. done. Qed.

Lemma pool_ok_with_active l p : pool_ok p → pool_ok (ObjectPool.with_active l p).
Proof. done. Qed.

Lemma pool_ok_report m now p : pool_ok p → pool_ok (ObjectPool.reportCapacityWarning m now p).
Proof. unfold ObjectPool.reportCapacityWarning. by case_bool_decide. Qed.

Lemma pool_ok_create p : pool_ok p → pool_ok (snd (ObjectPool.createManagedObject p)).
Proof.
  intros (Hs & Hr & Hc). split; [|done]. simpl.
  apply Forall_app. split; [done|]. by constructor.
Qed.

Lemma pool_ok_handed_out o l p :
  pool_ok p →
  pool_ok (ObjectPool.with_active l
             (ObjectPool.update_obj (setVisible true) o
                (ObjectPool.update_obj (setActive true) o p))).
Proof.
  intros H.
  apply (pool_ok_update_obj (setVisible true) o) ; [apply item_ok_setVisible|].
  by apply pool_ok_update_obj; [apply item_ok_setActive|].
Qed.

Lemma pool_ok_get now1 now2 p : pool_ok p → pool_ok (snd (ObjectPool.get now1 now2 p)).
Proof.
  intros H. unfold ObjectPool.get.
  destruct (last (ObjectPool.pool p)).
  { simpl. by apply pool_ok_handed_out. }
  destruct (ObjectPool.hasCapacityAvailable p).
  { simpl. apply pool_ok_handed_out. by apply pool_ok_create. }
  unfold ObjectPool.recycleOldest.
  destruct (ObjectPool.active p) as [|oldest rest]; cbn [fst snd].
  - apply pool_ok_handed_out, pool_ok_report.
    apply (pool_ok_create (ObjectPool.reportCapacityWarning _ now1 p)).
    by apply pool_ok_report.
  - apply pool_ok_handed_out, pool_ok_report.
    destruct H as (Hs & Hr & Hc).
    apply pool_ok_overwrite; [apply Hr|].
    apply pool_ok_update_obj; [apply item_ok_setVisible|].
    apply pool_ok_update_obj; [apply item_ok_setActive|].
    apply pool_ok_with_active. by split.
Qed.

Lemma pool_ok_release obj p : pool_ok p → pool_ok (ObjectPool.release obj p).
Proof.
  intros H. unfold ObjectPool.release.
  destruct (ObjectPool.indexOf obj (ObjectPool.active p)); [|done].
  pose proof H as (Hs & Hr & Hc).
  apply pool_ok_with_pool.
  apply pool_ok_update_obj; [apply item_ok_setVisible|].
  apply pool_ok_update_obj; [apply item_ok_setActive|].
  apply pool_ok_overwrite; [apply Hr|]. by apply pool_ok_with_active.
Qed.

Lemma pool_ok_prefill n p : pool_ok p → pool_ok (ObjectPool.prefill n p).
Proof.
  revert p. induction n as [|n IH]; intros p H; simpl; [done|].
  apply IH. apply pool_ok_with_pool.
  apply pool_ok_update_obj; [apply item_ok_setVisible|].
  apply pool_ok_update_obj; [apply item_ok_setActive|].
  by apply pool_ok_create.
Qed.

Lemma pool_ok_new size : pool_ok (ObjectPool.new (newSprite "item_regular") resetItem size None).
Proof.
  unfold ObjectPool.new. apply pool_ok_prefill.
  split; [constructor|]. split; [apply item_ok_resetItem|]. left. simpl. lia.
Qed.

End RunInvariant.

Section RunInvariantSteps.
Import GameScene.

Lemma run_inv_releaseItem item s : run_inv s → run_inv (releaseItem item s).
Proof.
  intros (H1 & H2 & H3 & H4).
  split; [exact H1|]. split; [exact H2|]. split; [exact H3|].
  by apply pool_ok_release.
Qed.

Lemma run_inv_gameOver s : run_inv s → run_inv (gameOver s).
Proof.
  intros (H1 & H2 & H3 & H4).
  split; [exact H1|]. split; [exact H2|]. split; [exact H3|]. exact H4.
Qed.

Lemma run_inv_updatePerformanceScore s :
  0 ≤ combo s → Forall (fun c => 0 ≤ c_value c) (recentCatches s) →
  pool_ok (itemPool s) → run_inv (updatePerformanceScore s).
Proof.
  intros H1 H2 H3.
  destruct (updatePerformanceScore_spec s H1 H2) as (_ & Hlo & Hhi).
  split; [exact H1|]. split; [exact H2|]. split; [by split | exact H3].
Qed.

Lemma scored_itemPool clock item it q :
  itemPool (scored clock item it q) = ObjectPool.release item (itemPool q).
Proof. unfold scored, tallyCatch. destruct (typeIs it "gold"); reflexivity. Qed.

Lemma levelUp_itemPool q : itemPool (levelUp q) = itemPool q.
Proof. unfold levelUp. case_bool_decide; reflexivity. Qed.

Lemma run_inv_scoreCatch clock item it q :
  run_inv q → 0 ≤ value it → run_inv (scoreCatch clock item it q).
Proof.
  intros (H1 & H2 & H3 & H4) Hv.
  assert (Hu : run_inv (updatePerformanceScore (countCatch clock it q))).
  { destruct (countCatch_fields clock it q) as (C1 & C2 & _).
    apply run_inv_updatePerformanceScore.
    - rewrite C1. lia.
    - rewrite C2. apply keepRecent_Forall, Forall_app. split; [done|].
      by constructor.
    - exact H4. }
  destruct Hu as (_ & _ & U3 & _).
  destruct (scored_fields clock item it q)
    as (_ & F2 & _ & _ & _ & F6 & F7 & _).
  assert (Hs1 : run_inv (scored clock item it q)).
  { split; [rewrite F2; lia|]. split.
    - rewrite F6. apply keepRecent_Forall, Forall_app. split; [done|].
      by constructor.
    - split; [by rewrite F7|]. rewrite scored_itemPool. by apply pool_ok_release. }
  unfold scoreCatch. destruct (_ && _); [|exact Hs1].
  destruct (levelUp_keeps (scored clock item it q)) as (_ & K2 & _ & _ & K5 & K6 & _).
  revert Hs1. apply run_inv_ext; [done | done | done | apply levelUp_itemPool].
Qed.

Lemma run_inv_primed it s : run_inv s → run_inv (primed it s).
Proof.
  apply run_inv_ext; unfold primed, activateGlitchEffect, activateMultiplier;
    (destruct (typeIs it "glitch"); [destruct (glitchActive s)|];
     destruct (typeIs it "multiplier"); reflexivity).
Qed.

Lemma run_inv_activateMystery pick item s :
  run_inv s → run_inv (activateMystery pick item s).
Proof.
  intros H. unfold activateMystery.
  case_bool_decide; [|done].
  destruct (Z.to_nat pick) as [|[|[|[|n]]]]; simpl; try done;
    apply run_inv_releaseItem; revert H; by apply run_inv_ext.
Qed.

Lemma run_inv_bombHit item s : run_inv s → run_inv (bombHit item s).
Proof.
  intros (H1 & H2 & H3 & H4). unfold bombHit.
  assert (H : run_inv (releaseItem item
     (set_perfectStreak 0 (set_missStreak 0 (set_combo 0 (set_lives (lives s - 1) s)))))).
  { apply run_inv_releaseItem.
    split; [done|]. split; [exact H2|]. split; [exact H3 | exact H4]. }
  case_bool_decide; [by apply run_inv_gameOver | done].
Qed.

Lemma item_ok_value it :
  item_ok it → typeIs it "bomb" = false → typeIs it "virus" = false → 0 ≤ value it.
Proof.
  intros [H|[H|H]] Hb Hv; [done| |].
  - apply typeIs_false in Hb. done.
  - apply typeIs_false in Hv. done.
Qed.

Lemma run_inv_catchItem clock pick item s : run_inv s → run_inv (catchItem clock pick item s).
Proof.
  intros H. unfold catchItem.
  destruct (ObjectPool.store (itemPool s) !! item) as [it|] eqn:Hit; [|done].
  assert (Hok : item_ok it).
  { destruct H as (_ & _ & _ & (Hs & _)). by eapply Forall_lookup_1. }
  destruct (typeIs it "freeze").
  { apply run_inv_releaseItem. revert H. by apply run_inv_ext. }
  destruct (typeIs it "health").
  { apply run_inv_releaseItem. revert H. by apply run_inv_ext. }
  destruct (typeIs it "mystery"); [by apply run_inv_activateMystery|].
  destruct (typeIs it "bomb" && negb (has "converter" s)); [by apply run_inv_bombHit|].
  destruct (typeIs it "bomb") eqn:Hb.
  - fold (converted it); rewrite !typeIs_converted by discriminate.
    apply run_inv_scoreCatch; [|simpl; lia].
    destruct H as (H1 & H2 & H3 & H4).
    split; [exact H1|]. split; [exact H2|]. split; [exact H3|].
    unfold updateItem. cbn [itemPool set_itemPool].
    rewrite !update_obj_compose. apply pool_ok_overwrite; [|done].
    intros x. left. simpl. lia.
  - destruct (typeIs it "glitch") eqn:Hg.
    { apply run_inv_scoreCatch.
      - revert H. apply run_inv_ext; unfold activateGlitchEffect;
          destruct (glitchActive s); reflexivity.
      - apply item_ok_value; [done | done |].
        apply typeIs_false. apply typeIs_true in Hg. congruence. }
    destruct (typeIs it "multiplier") eqn:Hm.
    { apply run_inv_scoreCatch.
      - revert H. by apply run_inv_ext.
      - apply item_ok_value; [done | done |].
        apply typeIs_false. apply typeIs_true in Hm. congruence. }
    destruct (typeIs it "virus") eqn:Hv.
    { apply run_inv_releaseItem. revert H.
      apply run_inv_ext; unfold activateVirusEffect;
        destruct (virusActive s); reflexivity. }
    apply run_inv_scoreCatch; [done|]. by apply item_ok_value.
Qed.

Lemma run_inv_useShield s : run_inv s → run_inv (useShield s).
Proof.
  apply run_inv_ext; unfold useShield; destruct (Qle_bool _ _); reflexivity.
Qed.

Lemma run_inv_missItem item s : run_inv s → run_inv (missItem item s).
Proof.
  intros H. unfold missItem.
  destruct (ObjectPool.store (itemPool s) !! item) as [it|]; [|done].
  destruct (typeIs it "bomb"); [by apply run_inv_releaseItem|].
  destruct (has "shield" s); [by apply run_inv_releaseItem, run_inv_useShield|].
  destruct H as (H1 & H2 & H3 & H4).
  assert (Hq : run_inv (releaseItem item (updatePerformanceScore (penalise s)))).
  { apply run_inv_releaseItem, run_inv_updatePerformanceScore; done. }
  cbv zeta.
  match goal with |- context [bool_decide ?P] => destruct (bool_decide P) end;
    [by apply run_inv_gameOver | done].
Qed.

Lemma run_inv_spikeHit s : run_inv s → run_inv (spikeHit s).
Proof.
  intros H. unfold spikeHit.
  destruct (has "shield" s); simpl; [by apply run_inv_useShield|].
  case_bool_decide; [apply run_inv_gameOver|]; revert H; by apply run_inv_ext.
Qed.

End RunInvariantSteps.

Section RunInvariantReach.
Import GameScene.

Lemma rollItem_ok rand sp type v sp' :
  rollItem rand sp = (type, v, sp') → 0 ≤ v ∨ type = "bomb" ∨ type = "virus".
Proof.
  unfold rollItem.
  repeat (match goal with |- context [Qltb ?a ?b] => destruct (Qltb a b) end);
    intros [= <- <- <-]; eauto; left; lia.
Qed.

Lemma spawnOne_pool_ok d s : pool_ok (itemPool s) → pool_ok (itemPool (spawnOne d s)).
Proof.
  intros H. unfold spawnOne.
  destruct (rollItem (d_rand d) (itemSpeed s)) as [[type v] sp] eqn:Hroll.
  pose proof (pool_ok_get (d_now1 d) (d_now2 d) (itemPool s) H) as Hget.
  destruct (ObjectPool.get (d_now1 d) (d_now2 d) (itemPool s)) as [obj p'].
  simpl in Hget.
  assert (Hty : ∀ x : Sprite, item_ok
    (setAffectedByGravity true (setValue v (setItemType (Some type) x)))).
  { intros x. destruct (rollItem_ok _ _ _ _ _ Hroll) as [?|[->| ->]].
    - by left.
    - right; left; done.
    - right; right; done. }
  case_bool_decide; unfold updateItem; cbn [itemPool set_itemPool];
    rewrite !update_obj_compose; (apply pool_ok_overwrite; [|done]);
    intros x; apply Hty.
Qed.

Lemma spawnLoop_pool_ok n i draws s :
  pool_ok (itemPool s) → pool_ok (itemPool (spawnLoop n i draws s)).
Proof.
  revert i s. induction n as [|n IH]; intros i s H; simpl; [done|].
  by apply IH, spawnOne_pool_ok.
Qed.

Lemma run_inv_spawnItem draws s : run_inv s → run_inv (spawnItem draws s).
Proof.
  intros (H1 & H2 & H3 & H4). unfold spawnItem. case_bool_decide; [done|].
  set (n := Z.to_nat _).
  destruct (spawnLoop_keeps n 0 draws s) as (_ & E2 & E3 & E4 & _).
  split; [by rewrite E2|]. split; [by rewrite E3|]. split; [by rewrite E4|].
  by apply spawnLoop_pool_ok.
Qed.

Lemma run_inv_fire i s : run_inv s → run_inv (fire i s).
Proof.
  intros H. unfold fire. destruct (pendingCalls s !! i) as [[d a]|]; [|done].
  revert H. by apply run_inv_ext; destruct a.
Qed.

Lemma run_inv_handle ev s : run_inv s → run_inv (handle ev s).
Proof.
  intros H. destruct ev; simpl.
  - by apply run_inv_spawnItem.
  - by apply run_inv_catchItem.
  - by apply run_inv_missItem.
  - by apply run_inv_spikeHit.
  - unfold destroyBomb. apply run_inv_releaseItem. revert H. by apply run_inv_ext.
  - destruct (collectPowerup_core ptype s) as (_ & ? & ? & ? & ?).
    revert H. by apply run_inv_ext.
  - revert H. apply run_inv_ext; unfold activateOvercharge;
      destruct (_ || _); reflexivity.
  - by apply run_inv_fire.
  - revert H. by apply run_inv_ext.
Qed.

Lemma run_inv_create e extraLife startShield : run_inv (create e extraLife startShield).
Proof.
  unfold create, setDifficultyParams.
  destruct startShield; repeat case_bool_decide;
    (split; [done|]); (split; [constructor|]);
    (split; [split; done|]); apply pool_ok_new.
Qed.

Lemma reachable_run_inv e extraLife startShield s :
  reachable e extraLife startShield s → run_inv s.
Proof.
  induction 1 as [|s ev Hs IH Hen]; [apply run_inv_create | by apply run_inv_handle].
Qed.

End RunInvariantReach.

(** ** The performance score and its feedback *)

Section PerformanceScore.
Import GameScene.









End PerformanceScore.

Section PerformanceFeedback.
Import GameScene.




End PerformanceFeedback.

(** ** The spawner's cap, continued *)

Section SpawnBound.
Import GameScene.

Lemma report_active m now p :
  ObjectPool.active (ObjectPool.reportCapacityWarning m now p) = ObjectPool.active p.
Proof. apply report_lists. Qed.

Lemma get_active_length now1 now2 p :
  (length (ObjectPool.active (snd (ObjectPool.get now1 now2 p)))
   ≤ length (ObjectPool.active p) + 1)%nat.
Proof.
  destruct (ObjectPool.pool p) as [|x l0] eqn:Hpool using rev_ind.
  - destruct (ObjectPool.hasCapacityAvailable p) eqn:Hc.
    + rewrite (get_fresh _ _ _ Hpool Hc). simpl. rewrite length_app. simpl. lia.
    + destruct (ObjectPool.active p) as [|oldest rest] eqn:Ha.
      * rewrite (get_overflow _ _ _ Hpool Hc Ha). cbn [snd]. cbv zeta.
        cbn [ObjectPool.active ObjectPool.with_active]. rewrite length_app.
        rewrite report_active. simpl. rewrite report_active, Ha. simpl. lia.
      * rewrite (get_recycle _ _ _ _ _ Hpool Hc Ha). cbn [snd]. cbv zeta.
        cbn [ObjectPool.active ObjectPool.with_active]. rewrite length_app.
        rewrite report_active. unfold ObjectPool.recycleOldest. rewrite Ha.
        simpl. lia.
  - rewrite (get_idle _ _ _ _ _ Hpool). simpl. rewrite length_app. simpl. lia.
Qed.

Lemma spawnOne_active d s :
  ObjectPool.active (itemPool (spawnOne d s))
  = ObjectPool.active (snd (ObjectPool.get (d_now1 d) (d_now2 d) (itemPool s))).
Proof.
  unfold spawnOne.
  destruct (rollItem (d_rand d) (itemSpeed s)) as [[type v] sp].
  destruct (ObjectPool.get (d_now1 d) (d_now2 d) (itemPool s)) as [obj p'].
  case_bool_decide; reflexivity.
Qed.

Lemma spawnOne_items d s :
  (length (items (spawnOne d s)) ≤ length (items s) + 1)%nat.
Proof.
  unfold items. destruct (spawnOne_keeps d s) as (_ & _ & _ & _ & _ & _ & _ & -> & _).
  destruct (detachedItems s); [lia|].
  rewrite spawnOne_active. apply get_active_length.
Qed.

Lemma spawnLoop_items n i draws s :
  (length (items (spawnLoop n i draws s)) ≤ length (items s) + n)%nat.
Proof.
  revert i s. induction n as [|n IH]; intros i s; simpl; [lia|].
  specialize (IH (S i) (spawnOne (d_item draws i) s)).
  pose proof (spawnOne_items (d_item draws i) s). lia.
Qed.

(** Below the cap a call spawns one item, or the one or two that chaos mode
    draws: the count ends at most one above the cap. *)
Lemma spawnItem_bound draws s :
  d_count draws ≤ 2 →
  Z.of_nat (length (items (spawnItem draws s)))
  ≤ Z.max (Z.of_nat (length (items s))) (maxItems s + 1).
Proof.
  intros Hc. unfold spawnItem. fold (maxItems s).
  case_bool_decide as Hcap; [lia|].
  pose proof (spawnLoop_items
    (Z.to_nat (if isChaosMode s then d_count draws else 1)) 0 draws s).
  destruct (isChaosMode s); lia.
Qed.

(** (C10) The cap is tested once, before the loop: in chaos mode, with 14
    items in flight and a cap of 15, a call that draws two items leaves 16. *)
Theorem spawn_cap_overshoot :
  reachable plain_env false false chaos_fourteen
  ∧ isChaosMode chaos_fourteen = true
  ∧ maxItems chaos_fourteen = 15
  ∧ length (items chaos_fourteen) = 14%nat
  ∧ length (items (spawnItem (draws_of 0.9 2) chaos_fourteen)) = 16%nat.
Proof.
  split.
  { apply playable_reachable; [apply reach_create | vm_compute; reflexivity]. }
  repeat split; vm_compute; reflexivity.
Qed.

End SpawnBound.

(** * Further properties of the code *)

(** ** The pool: release, round trip, capacity, flags *)

Section PoolRelease.
Import ObjectPool.

Lemma indexOf_not_elem o l : o ∉ l → indexOf o l = None.
Proof.
  intros H. destruct (indexOf o l) as [i|] eqn:E; [|done].
  apply indexOf_lookup in E. exfalso. apply H. by eapply list_elem_of_lookup_2.
Qed.

Lemma indexOf_snoc o l : o ∉ l → indexOf o (l ++ [o]) = Some (length l).
Proof.
  induction l as [|h rest IH]; intros H; simpl.
  - by rewrite decide_True.
  - apply not_elem_of_cons in H as [Hne H].
    rewrite decide_False by congruence. by rewrite IH.
Qed.

Lemma delete_snoc {A} (l : list A) (x : A) : delete (length l) (l ++ [x]) = l.
Proof. induction l as [|h rest IH]; simpl; [done | by rewrite IH]. Qed.

Lemma release_active o p i :
  indexOf o (active p) = Some i →
  active (release o p) = delete i (active p) ∧ pool (release o p) = pool p ++ [o]
  ∧ store (release o p)
    = alter (setVisible false) o (alter (setActive false) o (alter (resetFunc p) o (store p)))
  ∧ totalCreated (release o p) = totalCreated p
  ∧ maxCapacity (release o p) = maxCapacity p
  ∧ resetFunc (release o p) = resetFunc p.
Proof. intros H. unfold release. rewrite H. done. Qed.

Lemma NoDup_delete_not_elem (l : list ObjRef) i o :
  NoDup l → l !! i = Some o → o ∉ delete i l.
Proof.
  intros Hnd Hi Ho.
  rewrite (delete_Permutation l i o Hi) in Hnd.
  apply NoDup_cons in Hnd as [H _]. done.
Qed.

(** The pools that a program can hold: built by the constructor, then used
    through [get] and [release]. *)
Definition built (create : Sprite) (reset : Sprite → Sprite)
    (initialSize : Z) (maxCap : option Z) (cs : list call) : t :=
  run cs (new create reset initialSize maxCap).

Lemma built_wf create reset initialSize maxCap cs :
  pool_wf (built create reset initialSize maxCap cs).
Proof. apply run_wf, new_wf. Qed.

(** (X1) [release] of an object that is not active changes nothing, be it
    idle, released before or unknown to the pool; so releasing twice is
    releasing once. *)
Theorem release_twice_is_once create reset initialSize maxCap cs (obj : ObjRef) :
  let p := built create reset initialSize maxCap cs in
  (obj ∉ active p → release obj p = p)
  ∧ release obj (release obj p) = release obj p
  ∧ (obj ∈ active p →
       (obj ∉ active (release obj p)) ∧ last (pool (release obj p)) = Some obj).
Proof.
  intros p.
  assert (Hno : ∀ q, obj ∉ active q → release obj q = q).
  { intros q H. unfold release. by rewrite indexOf_not_elem. }
  assert (Hnd : NoDup (active p)) by (apply wf_partition, built_wf).
  assert (Hin : obj ∈ active p → obj ∉ active (release obj p)).
  { intros H. destruct (indexOf_elem obj _ H) as [i Hi].
    destruct (release_active obj p i Hi) as (-> & _).
    apply NoDup_delete_not_elem; [done | by apply indexOf_lookup]. }
  split; [apply Hno|]. split.
  - destruct (decide (obj ∈ active p)) as [H|H].
    + apply Hno. by apply Hin.
    + by rewrite !(Hno p H).
  - intros H. split; [by apply Hin|].
    destruct (indexOf_elem obj _ H) as [i Hi].
    destruct (release_active obj p i Hi) as (_ & -> & _). apply last_snoc.
Qed.

Lemma get_resetFunc now1 now2 p :
  resetFunc (snd (get now1 now2 p)) = resetFunc p
  ∧ maxCapacity (snd (get now1 now2 p)) = maxCapacity p.
Proof.
  unfold get.
  destruct (last (pool p)); [done|].
  destruct (hasCapacityAvailable p); [done|].
  unfold recycleOldest. destruct (active p); simpl;
    repeat match goal with |- context [reportCapacityWarning ?m ?n ?q] =>
      destruct (report_lists m n q) as (_ & _ & _ & _ & -> & _ & -> & _); simpl end;
    done.
Qed.

Lemma release_resetFunc obj p :
  resetFunc (release obj p) = resetFunc p ∧ maxCapacity (release obj p) = maxCapacity p.
Proof. unfold release. by destruct (indexOf obj (active p)). Qed.

Lemma prefill_fields n p :
  resetFunc (prefill n p) = resetFunc p ∧ maxCapacity (prefill n p) = maxCapacity p
  ∧ active (prefill n p) = active p
  ∧ length (pool (prefill n p)) = (length (pool p) + n)%nat.
Proof.
  revert p. induction n as [|n IH]; intros p; simpl; [by rewrite Nat.add_0_r|].
  match goal with |- context [prefill n ?q] =>
    destruct (IH q) as (-> & -> & -> & ->) end.
  simpl. rewrite length_app. simpl. repeat split; lia.
Qed.

Lemma built_fields create reset initialSize maxCap cs :
  resetFunc (built create reset initialSize maxCap cs) = reset
  ∧ maxCapacity (built create reset initialSize maxCap cs)
    = default (initialSize * 2) maxCap.
Proof.
  unfold built.
  assert (H0 : resetFunc (new create reset initialSize maxCap) = reset
               ∧ maxCapacity (new create reset initialSize maxCap)
                 = default (initialSize * 2) maxCap).
  { unfold new.
    match goal with |- context [prefill ?n ?q] =>
      destruct (prefill_fields n q) as (-> & -> & _) end.
    by destruct maxCap. }
  revert H0. generalize (new create reset initialSize maxCap).
  induction cs as [|c cs IH]; intros p Hp; simpl; [done|].
  apply IH. destruct c; simpl.
  - destruct (get_resetFunc now1 now2 p) as (-> & ->). done.
  - destruct (release_resetFunc obj p) as (-> & ->). done.
Qed.

(** (X2) Round trip: an object taken with [get] and given back with
    [release] is the last of the idle stack, no longer active, reset,
    inactive and hidden; when the pool had an idle object to hand out, both
    arrays are as before the [get]. *)
Theorem get_release_round_trip create reset initialSize maxCap cs now1 now2 :
  let p := built create reset initialSize maxCap cs in
  let obj := fst (get now1 now2 p) in
  let p1 := snd (get now1 now2 p) in
  let p2 := release obj p1 in
  active p2 ++ [obj] = active p1 ∧ pool p2 = pool p1 ++ [obj]
  ∧ (obj ∉ active p2)
  ∧ store p2 !! obj
    = (fun s => setVisible false (setActive false (reset s))) <$> store p1 !! obj
  ∧ totalCreated p2 = totalCreated p1
  ∧ (pool p ≠ [] → active p2 = active p ∧ pool p2 = pool p).
Proof.
  intros p obj p1 p2.
  assert (Hwf1 : pool_wf p1) by (apply get_wf, built_wf).
  destruct (get_active_last now1 now2 p) as [l Hl]. fold p1 obj in Hl.
  assert (Hnd : NoDup (active p1)) by (by apply wf_partition).
  rewrite Hl in Hnd. apply NoDup_app in Hnd as (Hndl & Hdis & _).
  assert (Hobj : obj ∉ l).
  { intros H. apply (Hdis obj H). apply list_elem_of_here. }
  assert (Hi : indexOf obj (active p1) = Some (length l))
    by (rewrite Hl; by apply indexOf_snoc).
  destruct (release_active obj p1 _ Hi) as (Ha & Hp & Hs & Ht & _).
  fold p2 in Ha, Hp, Hs, Ht. rewrite Hl, delete_snoc in Ha.
  assert (Hr : resetFunc p1 = reset).
  { subst p1. destruct (get_resetFunc now1 now2 p) as (-> & _).
    apply built_fields. }
  split; [by rewrite Ha, Hl|]. split; [done|]. split; [by rewrite Ha|].
  split; [|split; [done|]].
  - rewrite Hs, Hr, !list_lookup_alter_eq, <- !option_fmap_compose. done.
  - intros Hne. destruct (pool p) as [|x l0] eqn:Hpool using rev_ind; [done|].
    clear IHl0.
    assert (Hg := get_idle now1 now2 p l0 x Hpool).
    assert (Ho : obj = x) by (subst obj; by rewrite Hg).
    assert (Hp1 : active p1 = active p ++ [x] ∧ pool p1 = l0)
      by (subst p1; by rewrite Hg).
    destruct Hp1 as [Ha1 Hp1]. rewrite Hl, Ho in Ha1.
    apply app_inj_tail in Ha1 as [-> _].
    rewrite Ha, Hp, Hp1, Ho. done.
Qed.

(** The four cases of [get], by what they leave in the arrays and in the
    store. *)
Definition handed_out (o : ObjRef) (st : list Sprite) : list Sprite :=
  alter (setVisible true) o (alter (setActive true) o st).

Lemma get_shape now1 now2 p :
  let obj := fst (get now1 now2 p) in
  let p' := snd (get now1 now2 p) in
  (∃ l, pool p = l ++ [obj] ∧ pool p' = l ∧ active p' = active p ++ [obj]
        ∧ store p' = handed_out obj (store p)
        ∧ totalCreated p' = totalCreated p)
  ∨ (pool p = [] ∧ hasCapacityAvailable p = true ∧ obj = length (store p)
     ∧ pool p' = [] ∧ active p' = active p ++ [obj]
     ∧ store p' = handed_out obj (store p ++ [createFunc p])
     ∧ totalCreated p' = totalCreated p + 1)
  ∨ (∃ rest, pool p = [] ∧ hasCapacityAvailable p = false ∧ active p = obj :: rest
        ∧ pool p' = [] ∧ active p' = rest ++ [obj]
        ∧ store p' = handed_out obj
            (alter (resetFunc p) obj
               (alter (setVisible false) obj (alter (setActive false) obj (store p))))
        ∧ totalCreated p' = totalCreated p)
  ∨ (pool p = [] ∧ hasCapacityAvailable p = false ∧ active p = []
     ∧ obj = length (store p) ∧ pool p' = [] ∧ active p' = [obj]
     ∧ store p' = handed_out obj (store p ++ [createFunc p])
     ∧ totalCreated p' = totalCreated p + 1).
Proof.
  cbv zeta. destruct (pool p) as [|x l0] eqn:Hpool using rev_ind.
  - destruct (hasCapacityAvailable p) eqn:Hc.
    + right. left. rewrite (get_fresh _ _ _ Hpool Hc). simpl. by rewrite Hpool.
    + destruct (active p) as [|oldest rest] eqn:Ha.
      * right. right. right. rewrite (get_overflow _ _ _ Hpool Hc Ha).
        cbn [fst snd]. cbv zeta.
        set (q1 := reportCapacityWarning _ now1 p).
        set (q2 := reportCapacityWarning _ now2 _).
        destruct (report_lists "Pool at capacity; recycling oldest object." now1 p)
          as (A1 & P1 & S1 & T1 & _ & _ & _ & C1). fold q1 in A1, P1, S1, T1, C1.
        destruct (report_lists "Pool exceeded capacity; allocating additional object."
                    now2 (snd (createManagedObject q1))) as (A2 & P2 & S2 & T2 & _).
        fold q2 in A2, P2, S2, T2.
        cbn [active pool store totalCreated with_active update_obj with_store].
        rewrite A2, P2, S2, T2. simpl. rewrite A1, P1, S1, T1, C1, Ha, Hpool. done.
      * right. right. left. exists rest.
        rewrite (get_recycle _ _ _ _ _ Hpool Hc Ha). cbn [fst snd]. cbv zeta.
        set (q := reportCapacityWarning _ now1 _).
        destruct (report_lists "Pool at capacity; recycling oldest object." now1
                    (snd (recycleOldest p))) as (A1 & P1 & S1 & T1 & _).
        fold q in A1, P1, S1, T1.
        cbn [active pool store totalCreated with_active update_obj with_store].
        rewrite A1, P1, S1, T1. unfold recycleOldest. rewrite Ha. simpl.
        by rewrite Hpool.
  - left. exists l0. rewrite (get_idle _ _ _ _ _ Hpool). done.
Qed.

(** The capacity is a bound on the objects a pool holds. *)
Definition within_capacity (p : t) : Prop :=
  Z.of_nat (length (active p)) + Z.of_nat (length (pool p)) ≤ Z.max (maxCapacity p) 1.

Lemma get_within_capacity now1 now2 p :
  within_capacity p → within_capacity (snd (get now1 now2 p)).
Proof.
  unfold within_capacity. intros H.
  destruct (get_resetFunc now1 now2 p) as (_ & ->).
  destruct (get_shape now1 now2 p)
    as [(l & Hp & -> & -> & _)|[(Hp & Hc & _ & -> & -> & _)
       |[(rest & Hp & Hc & Ha & -> & -> & _)|(Hp & Hc & Ha & _ & -> & -> & _)]]];
    rewrite ?Hp, ?Ha in H; rewrite ?length_app in *; simpl in *; try lia.
  unfold hasCapacityAvailable in Hc. apply bool_decide_eq_true in Hc.
  rewrite Hp in Hc. simpl in Hc. lia.
Qed.

Lemma release_within_capacity obj p :
  pool_wf p → within_capacity p → within_capacity (release obj p).
Proof.
  unfold within_capacity. intros Hwf H.
  assert (Hwf' := release_wf obj p Hwf).
  destruct (wf_partition _ Hwf) as (L & _). destruct (wf_partition _ Hwf') as (L' & _).
  destruct (release_resetFunc obj p) as (_ & ->).
  assert (length (store (release obj p)) = length (store p)).
  { unfold release. destruct (indexOf obj (active p)); [|done].
    simpl. by rewrite !length_alter. }
  lia.
Qed.

(** (X3) A pool never holds more objects than its capacity, or than one
    when the capacity is below one: at capacity [get] recycles instead of
    building.  So [totalCreated] and the number of active objects stay within
    [max(maxCapacity, 1)], where [maxCapacity] is the constructor's argument
    or twice the initial size. *)
Theorem created_within_capacity create reset initialSize maxCap cs :
  let p := built create reset initialSize maxCap cs in
  let cap := default (initialSize * 2) maxCap in
  maxCapacity p = cap
  ∧ totalCreated p ≤ Z.max cap 1
  ∧ Z.of_nat (length (active p)) ≤ Z.max cap 1
  ∧ totalCreated p = Z.of_nat (length (active p)) + Z.of_nat (length (pool p)).
Proof.
  intros p cap.
  destruct (built_fields create reset initialSize maxCap cs) as (_ & Hcap).
  fold p cap in Hcap.
  assert (Hwf : pool_wf p) by apply built_wf.
  destruct (wf_partition _ Hwf) as (L & _). destruct Hwf as (_ & Ht).
  assert (H : within_capacity p).
  { subst p. unfold built.
    assert (H0 : pool_wf (new create reset initialSize maxCap)
                 ∧ within_capacity (new create reset initialSize maxCap)).
    { split; [apply new_wf|]. unfold within_capacity, new.
      match goal with |- context [prefill ?n ?q] =>
        destruct (prefill_fields n q) as (_ & -> & -> & ->) end.
      simpl. lia. }
    revert H0. generalize (new create reset initialSize maxCap). clear.
    induction cs as [|c cs IH]; intros p [Hwf Hp]; simpl; [done|].
    apply IH. destruct c; simpl.
    - split; [by apply get_wf | by apply get_within_capacity].
    - split; [by apply release_wf | by apply release_within_capacity]. }
  unfold within_capacity in H. rewrite Hcap in H.
  split; [done|]. lia.
Qed.

End PoolRelease.

Section PoolFlags.
Import ObjectPool.
Local Set Warnings "-clear-no-such-hyp".

(** Idle objects are inactive and hidden, active ones active and shown. *)
Definition flags_ok (p : t) : Prop :=
  ∀ o s, store p !! o = Some s →
    (o ∈ pool p → sactive s = false ∧ visible s = false)
    ∧ (o ∈ active p → sactive s = true ∧ visible s = true).

Lemma handed_out_eq o st :
  handed_out o st !! o = (fun s => setVisible true (setActive true s)) <$> st !! o.
Proof. unfold handed_out. by rewrite !list_lookup_alter_eq, <- option_fmap_compose. Qed.

Lemma handed_out_ne o x st : x ≠ o → handed_out o st !! x = st !! x.
Proof. intros H. unfold handed_out. by rewrite !list_lookup_alter_ne. Qed.

Lemma flags_get now1 now2 p :
  pool_wf p → flags_ok p → flags_ok (snd (get now1 now2 p)).
Proof.
  intros Hwf Hf.
  destruct (wf_partition p Hwf) as (_ & Hnda & Hndp & Hdis & Hin).
  destruct (get_shape now1 now2 p)
    as [(l & Hp & Hp' & Ha' & Hs' & _)|[(Hp & Hc & Ho & Hp' & Ha' & Hs' & _)
       |[(rest & Hp & Hc & Ha & Hp' & Ha' & Hs' & _)
        |(Hp & Hc & Ha & Ho & Hp' & Ha' & Hs' & _)]]];
    set (obj := fst (get now1 now2 p)) in *;
    intros o s; rewrite Hs', Hp', Ha'; intros Hlk.
  - rewrite Hp in Hndp. apply NoDup_app in Hndp as (_ & Hd & _).
    assert (Hobj : obj ∈ pool p) by (rewrite Hp; set_solver).
    destruct (decide (o = obj)) as [->|Hne].
    + rewrite handed_out_eq in Hlk. apply fmap_Some in Hlk as (s0 & _ & ->).
      split; [|done].
      intros H. exfalso. apply (Hd obj H). set_solver.
    + rewrite handed_out_ne in Hlk by done. destruct (Hf o s Hlk) as [H1 H2].
      split; [intros H; apply H1; rewrite Hp; set_solver|].
      intros H. apply elem_of_app in H as [H|H]; [by apply H2 | set_solver].
  - destruct (decide (o = obj)) as [->|Hne].
    + rewrite handed_out_eq in Hlk. apply fmap_Some in Hlk as (s0 & _ & ->).
      split; [set_solver | done].
    + rewrite handed_out_ne in Hlk by done. split; [set_solver|].
      intros H. apply elem_of_app in H as [H|H]; [|set_solver].
      assert (o < length (store p))%nat by (apply Hin; by left).
      rewrite lookup_app_l in Hlk by done. by apply (Hf o s Hlk).
  - rewrite Ha in Hnda. apply NoDup_cons in Hnda as [Hd _].
    destruct (decide (o = obj)) as [->|Hne].
    + rewrite handed_out_eq, !list_lookup_alter_eq in Hlk.
      rewrite <- !option_fmap_compose in Hlk.
      apply fmap_Some in Hlk as (s0 & _ & ->). split; [set_solver | done].
    + rewrite handed_out_ne, !list_lookup_alter_ne in Hlk by done.
      split; [set_solver|].
      intros H. apply elem_of_app in H as [H|H]; [|set_solver].
      apply (Hf o s Hlk). rewrite Ha. set_solver.
  - destruct (decide (o = obj)) as [->|Hne].
    + rewrite handed_out_eq in Hlk. apply fmap_Some in Hlk as (s0 & _ & ->).
      split; [set_solver | done].
    + split; set_solver.
Qed.

Lemma flags_release obj p :
  pool_wf p → flags_ok p → flags_ok (release obj p).
Proof.
  intros Hwf Hf.
  destruct (wf_partition p Hwf) as (_ & Hnda & Hndp & Hdis & Hin).
  destruct (indexOf obj (active p)) as [i|] eqn:Hi;
    [|unfold release; by rewrite Hi].
  destruct (release_active obj p i Hi) as (Ha' & Hp' & Hs' & _).
  apply indexOf_lookup in Hi.
  assert (Hobj : obj ∈ active p) by (by eapply list_elem_of_lookup_2).
  intros o s. rewrite Hs', Hp', Ha'. intros Hlk.
  destruct (decide (o = obj)) as [->|Hne].
  - rewrite !list_lookup_alter_eq, <- !option_fmap_compose in Hlk.
    apply fmap_Some in Hlk as (s0 & _ & ->). split; [done|].
    intros H. exfalso. by apply (NoDup_delete_not_elem (active p) i obj).
  - rewrite !list_lookup_alter_ne in Hlk by done.
    destruct (Hf o s Hlk) as [H1 H2]. split.
    + intros H. apply elem_of_app in H as [H|H]; [by apply H1 | set_solver].
    + intros H. apply H2. rewrite (delete_Permutation (active p) i obj Hi).
      set_solver.
Qed.

Lemma flags_prefill n p :
  pool_wf p → flags_ok p → pool_wf (prefill n p) ∧ flags_ok (prefill n p).
Proof.
  revert p. induction n as [|n IH]; intros p Hwf Hf; simpl; [done|].
  destruct (wf_partition p Hwf) as (_ & _ & _ & _ & Hin).
  apply IH.
  - apply (prefill_wf 1 p Hwf).
  - intros o s. simpl. intros Hlk.
    destruct (decide (o = length (store p))) as [->|Hne].
    + rewrite !list_lookup_alter_eq, lookup_app_r, Nat.sub_diag in Hlk by lia.
      injection Hlk as <-. split; [done|].
      intros H. assert (length (store p) < length (store p))%nat; [|lia].
      apply Hin. by left.
    + rewrite !list_lookup_alter_ne in Hlk by done.
      split.
      * intros H. apply elem_of_app in H as [H|H]; [|set_solver].
        assert (o < length (store p))%nat by (apply Hin; by right).
        rewrite lookup_app_l in Hlk by done. by apply (Hf o s Hlk).
      * intros H.
        assert (o < length (store p))%nat by (apply Hin; by left).
        rewrite lookup_app_l in Hlk by done. by apply (Hf o s Hlk).
Qed.

(** (X4) In a pool every idle object is inactive and hidden and every
    active object is active and visible, whatever the factory and the reset
    function do to these flags. *)
Theorem pool_flags create reset initialSize maxCap cs (o : ObjRef) (s : Sprite) :
  let p := built create reset initialSize maxCap cs in
  store p !! o = Some s →
  (o ∈ pool p → sactive s = false ∧ visible s = false)
  ∧ (o ∈ active p → sactive s = true ∧ visible s = true).
Proof.
  intros p. revert o s. change (flags_ok p). subst p. unfold built.
  assert (H0 : pool_wf (new create reset initialSize maxCap)
               ∧ flags_ok (new create reset initialSize maxCap)).
  { unfold new. apply flags_prefill.
    - split; simpl; done.
    - intros o s. simpl. by rewrite lookup_nil. }
  revert H0. generalize (new create reset initialSize maxCap).
  induction cs as [|c cs IH]; intros p [Hwf Hp]; simpl; [done|].
  apply IH. destruct c; simpl.
  - split; [by apply get_wf | by apply flags_get].
  - split; [by apply release_wf | by apply flags_release].
Qed.

(** A pool whose factory makes visible objects, with one object handed out
    and one idle. *)
Lemma pool_flags_witness :
  let p := built (mkSprite 0 0 true true 0 None 0 "item_regular" 1 false)
                 (fun s => setVisible true s) 2 None [Get 0 0] in
  active p = [1%nat] ∧ pool p = [0%nat]
  ∧ (visible <$> store p !! 0%nat) = Some false
  ∧ (visible <$> store p !! 1%nat) = Some true.
Proof.
  intros p.
  pose (s0 := default (newSprite "") (store p !! 0%nat)).
  pose (s1 := default (newSprite "") (store p !! 1%nat)).
  split; [vm_compute; reflexivity|]. split; [vm_compute; reflexivity|]. split.
  - destruct (pool_flags (mkSprite 0 0 true true 0 None 0 "item_regular" 1 false)
                (fun s => setVisible true s) 2 None [Get 0 0] 0%nat s0) as [H _];
      [vm_compute; reflexivity|].
    destruct H as [_ H]; [vm_compute; apply list_elem_of_here|].
    transitivity (Some (visible s0)); [vm_compute; reflexivity | by f_equal].
  - destruct (pool_flags (mkSprite 0 0 true true 0 None 0 "item_regular" 1 false)
                (fun s => setVisible true s) 2 None [Get 0 0] 1%nat s1) as [_ H];
      [vm_compute; reflexivity|].
    destruct H as [_ H]; [vm_compute; apply list_elem_of_here|].
    transitivity (Some (visible s1)); [vm_compute; reflexivity | by f_equal].
Defined.

End PoolFlags.

Section PoolClear.
Import ObjectPool.

(** The arrays hold exactly the objects built since the pool was last
    emptied, [n] being the size of the store at that time. *)
Definition wf_from (n : nat) (p : t) : Prop :=
  active p ++ pool p ≡ₚ seq n (length (store p) - n)
  ∧ totalCreated p = Z.of_nat (length (store p) - n)
  ∧ (n ≤ length (store p))%nat.

Lemma handed_out_length o st : length (handed_out o st) = length st.
Proof. unfold handed_out. by rewrite !length_alter. Qed.

Lemma seq_grow n len : (n ≤ len)%nat → seq n (S len - n) = seq n (len - n) ++ [len].
Proof.
  intros H. replace (S len - n)%nat with (S (len - n)) by lia.
  rewrite seq_S. do 2 f_equal. lia.
Qed.

Lemma get_wf_from n now1 now2 p : wf_from n p → wf_from n (snd (get now1 now2 p)).
Proof.
  intros (Hp & Ht & Hn). unfold wf_from.
  destruct (get_shape now1 now2 p)
    as [(l & Hpl & -> & -> & -> & ->)|[(Hpl & _ & Ho & -> & -> & -> & ->)
       |[(rest & Hpl & _ & Ha & -> & -> & -> & ->)
        |(Hpl & _ & Ha & Ho & -> & -> & -> & ->)]]];
    rewrite handed_out_length, ?length_app, ?length_alter; simpl.
  - split; [|done]. rewrite <- Hp, Hpl, <- !(assoc_L (++)).
    apply Permutation_app_head, Permutation_app_comm.
  - rewrite Nat.add_1_r, seq_grow by done.
    split; [|lia]. rewrite Ho, app_nil_r, <- Hp, Hpl, app_nil_r. done.
  - split; [|done]. rewrite app_nil_r, <- Hp, Ha, Hpl, app_nil_r.
    symmetry. apply Permutation_cons_append.
  - rewrite Nat.add_1_r, seq_grow by done.
    split; [|lia]. rewrite Ho, <- Hp, Ha, Hpl. done.
Qed.

Lemma release_wf_from n obj p : wf_from n p → wf_from n (release obj p).
Proof.
  intros (Hp & Ht & Hn).
  destruct (indexOf obj (active p)) as [i|] eqn:Hi;
    [|unfold release; by rewrite Hi].
  destruct (release_active obj p i Hi) as (Ha' & Hp' & Hs' & Ht' & _).
  apply indexOf_lookup in Hi. unfold wf_from.
  rewrite Ha', Hp', Hs', Ht', !length_alter. split; [|done].
  rewrite <- Hp. rewrite (delete_Permutation (active p) i obj Hi) at 2.
  rewrite (assoc_L (++)), <- Permutation_cons_append. simpl.
  by rewrite Permutation_middle.
Qed.

Lemma run_wf_from n cs p : wf_from n p → wf_from n (run cs p).
Proof.
  revert p. induction cs as [|c cs IH]; intros p H; simpl; [done|].
  apply IH. destruct c; simpl; [by apply get_wf_from | by apply release_wf_from].
Qed.

(** (X5) [clear] starts the pool afresh.  Whatever was done before and is
    done after, [totalCreated] counts the objects built since, each of them
    is in exactly one of the two arrays, and no object from before the
    [clear], all of them destroyed, is ever handed out or parked again. *)
Theorem clear_starts_afresh create reset initialSize maxCap cs1 cs2 :
  let p0 := built create reset initialSize maxCap cs1 in
  let p := run cs2 (clear p0) in
  active (clear p0) = [] ∧ pool (clear p0) = [] ∧ totalCreated (clear p0) = 0
  ∧ totalCreated p = Z.of_nat (length (active p)) + Z.of_nat (length (pool p))
  ∧ NoDup (active p ++ pool p)
  ∧ ∀ o : ObjRef, o ∈ active p ∨ o ∈ pool p ↔
      (length (store p0) ≤ o < length (store p))%nat.
Proof.
  intros p0 p. do 3 (split; [done|]).
  assert (H : wf_from (length (store p0)) p).
  { apply run_wf_from. unfold wf_from. simpl. rewrite Nat.sub_diag. done. }
  destruct H as (Hp & Ht & Hn).
  split; [|split].
  - rewrite Ht, <- Nat2Z.inj_add, <- length_app, Hp, length_seq. done.
  - rewrite Hp. apply NoDup_seq.
  - intros o. rewrite <- elem_of_app, Hp, elem_of_seq. lia.
Qed.

End PoolClear.

(** ** The performance controller: history, settings, hysteresis *)

Section QualityHistory.
Import PerformanceManager.

(** What one [update] does to the level and to the events emitted: nothing,
    or one step of the level with one event, whose settings are those of the
    new level. *)
Lemma update_broadcast time p :
  let p' := update time p in
  maxHistoryLength p' = maxHistoryLength p
  ∧ ((qualityLevel p' = qualityLevel p ∧ broadcasts p' = broadcasts p)
     ∨ ((qualityLevel p' = qualityLevel p - 1 ∨ qualityLevel p' = qualityLevel p + 1)
        ∧ broadcasts p' = broadcasts p ++ [getQualitySettings p'])).
Proof.
  cbv zeta. unfold update.
  destruct (Qgeb (time - lastTime p) 1000); [|split; [done | by left]].
  match goal with |- context [adjustQuality ?q] => set (p1 := q) end.
  destruct (autoOptimize p1 && bool_decide (10 ≤ length _)%nat);
    [|split; [done | by left]].
  unfold adjustQuality.
  destruct (fpsHistory p1); [split; [done | by left]|].
  destruct (Qltb _ 40 && bool_decide (qualityLevel p1 > 0)).
  { split; [done|]. right. split; [by left | done]. }
  destruct (Qltb 58 _ && bool_decide (qualityLevel p1 < 2)).
  { split; [done|]. right. split; [by right | done]. }
  split; [done | by left].
Qed.

(** The history after one [update]: as before, or with the frames counted
    since the last sample appended and the oldest entry dropped when that
    makes more than [maxHistoryLength]. *)
Lemma update_history time p :
  let p' := update time p in
  (fpsHistory p' = fpsHistory p ∧ fps p' = fps p ∧ frameCount p' = frameCount p + 1)
  ∨ (fps p' = frameCount p + 1 ∧ frameCount p' = 0
     ∧ ((fpsHistory p' = fpsHistory p ++ [fps p']
         ∧ (length (fpsHistory p') ≤ maxHistoryLength p)%nat)
        ∨ (fpsHistory p' = tail (fpsHistory p ++ [fps p'])
           ∧ (maxHistoryLength p ≤ length (fpsHistory p))%nat))).
Proof.
  cbv zeta. unfold update.
  destruct (Qgeb (time - lastTime p) 1000); [|by left].
  right.
  match goal with |- context [adjustQuality ?q] => set (p1 := q) end.
  assert (H1 : fps p1 = frameCount p + 1 ∧ frameCount p1 = 0
      ∧ ((fpsHistory p1 = fpsHistory p ++ [fps p1]
          ∧ (length (fpsHistory p1) ≤ maxHistoryLength p)%nat)
         ∨ (fpsHistory p1 = tail (fpsHistory p ++ [fps p1])
            ∧ (maxHistoryLength p ≤ length (fpsHistory p))%nat))).
  { subst p1. cbn [fps frameCount fpsHistory]. split; [done|]. split; [done|].
    case_bool_decide as H; rewrite length_app in H; simpl in H.
    - right. split; [done | lia].
    - left. split; [done|]. rewrite length_app. simpl. lia. }
  assert (H2 : fps (adjustQuality p1) = fps p1
               ∧ frameCount (adjustQuality p1) = frameCount p1
               ∧ fpsHistory (adjustQuality p1) = fpsHistory p1).
  { unfold adjustQuality. destruct (fpsHistory p1) eqn:E; [by rewrite E|].
    destruct (_ && _); [by rewrite <- E|]. destruct (_ && _); by rewrite <- E. }
  destruct (autoOptimize p1 && _); [|exact H1].
  destruct H2 as (-> & -> & ->). exact H1.
Qed.

Definition history_ok (p : t) : Prop :=
  maxHistoryLength p = 60%nat
  ∧ (length (fpsHistory p) ≤ 60)%nat
  ∧ Forall (fun f => 1 ≤ f) (fpsHistory p)
  ∧ 0 ≤ frameCount p
  ∧ (fpsHistory p = [] → fps p = 60)
  ∧ (fpsHistory p ≠ [] → last (fpsHistory p) = Some (fps p)).

Lemma update_history_ok time p : history_ok p → history_ok (update time p).
Proof.
  intros (Hm & Hl & Hf & Hc & He & Hn).
  destruct (update_broadcast time p) as (Hm' & _).
  destruct (update_history time p)
    as [(Hh & Hfps & Hfc)|(Hfps & Hfc & [[Hh Hlen]|[Hh Hlen]])];
    (split; [congruence|]).
  - rewrite Hh, Hfps, Hfc. repeat split; try done. lia.
  - rewrite Hh, Hm in Hlen. rewrite Hh, Hfc. split; [lia|]. split; [|split; [done|]].
    + apply Forall_app. split; [done|]. constructor; [lia | done].
    + split; [by destruct (fpsHistory p)|]. intros _. apply last_snoc.
  - assert (Hne : fpsHistory p ≠ []).
    { intros E. rewrite E, Hm in Hlen. simpl in Hlen. lia. }
    destruct (fpsHistory p) as [|f h] eqn:E; [done|]. simpl in Hh.
    rewrite Hh, Hfc. simpl in Hl. split; [rewrite length_app; simpl; lia|].
    split; [|split; [done|]].
    + apply Forall_app. apply Forall_cons in Hf as [_ Hf].
      split; [done|]. constructor; [lia | done].
    + split; [by destruct h|]. intros _. apply last_snoc.
Qed.

(** (X6) The frame-rate history never holds more than 60 samples: a sample
    is appended and, beyond 60, the oldest dropped.  Every sample counts at
    least the frame that took it, and [fps] is the last sample taken, 60
    before the first. *)
Theorem fps_history_bounded (times : list Q) (time : Q) :
  let p := run times new in
  let p' := update time p in
  (length (fpsHistory p) ≤ 60)%nat
  ∧ Forall (fun f => 1 ≤ f) (fpsHistory p)
  ∧ (fpsHistory p = [] → fps p = 60)
  ∧ (fpsHistory p ≠ [] → last (fpsHistory p) = Some (fps p))
  ∧ (fpsHistory p' = fpsHistory p
     ∨ (fps p' = frameCount p + 1
        ∧ fpsHistory p' = (if bool_decide (length (fpsHistory p) < 60)%nat
                           then fpsHistory p else tail (fpsHistory p)) ++ [fps p'])).
Proof.
  intros p p'.
  assert (H : history_ok p).
  { subst p. assert (H0 : history_ok new).
    { unfold history_ok. simpl. repeat split; try done; lia. }
    revert H0. generalize new.
    induction times as [|t ts IH]; intros q Hq; simpl; [done|].
    by apply IH, update_history_ok. }
  destruct H as (Hm & Hl & Hf & Hc & He & Hn).
  do 4 (split; [done|]).
  destruct (update_history time p)
    as [(Hh & _)|(Hfps & _ & [[Hh Hlen]|[Hh Hlen]])]; [by left|right..];
    fold p' in Hfps, Hh; (split; [done|]).
  - fold p' in Hlen. rewrite Hh, length_app, Hm in Hlen. simpl in Hlen.
    rewrite bool_decide_true by lia. done.
  - rewrite Hm in Hlen. rewrite bool_decide_false by lia.
    rewrite Hh. destruct (fpsHistory p); [simpl in Hlen; lia | done].
Qed.

Lemma getQualitySettings_defined p :
  qualityLevel p = 0 ∨ qualityLevel p = 1 ∨ qualityLevel p = 2 →
  ∃ s, getQualitySettings p = Some s ∧ s ∈ settings.
Proof.
  unfold getQualitySettings, settings.
  intros [H|[H|H]]; rewrite H; simpl; eexists; (split; [reflexivity|]);
    repeat (first [apply list_elem_of_here | apply list_elem_of_further]).
Qed.

Definition broadcasts_ok (p : t) : Prop :=
  level_ok p
  ∧ Forall is_Some (broadcasts p)
  ∧ (broadcasts p = [] → qualityLevel p = 1)
  ∧ (broadcasts p ≠ [] → last (broadcasts p) = Some (getQualitySettings p)).

Lemma update_broadcasts_ok time p : broadcasts_ok p → broadcasts_ok (update time p).
Proof.
  intros (Hok & Hf & He & Hn).
  assert (Hok' := update_level_ok time p Hok).
  destruct (update_broadcast time p) as (_ & [[Hq Hb]|[Hq Hb]]);
    (split; [done|]); rewrite Hb.
  - split; [done|]. split; [by rewrite Hq|].
    intros H. rewrite (Hn H). unfold getQualitySettings. by rewrite Hq.
  - destruct (getQualitySettings_defined _ (proj2 Hok')) as (s & Hs & _).
    split; [|split].
    + apply Forall_app. split; [done|]. constructor; [by rewrite Hs | done].
    + intros H. by destruct (broadcasts p).
    + intros _. apply last_snoc.
Qed.

(** (X7) The quality settings of the controller are always defined: one of
    the three entries of the table.  Every ['quality-changed'] event carries
    defined settings, the last event emitted carries the settings of the
    current level, and until the first event the level is the initial 1: a
    listener always holds the current settings. *)
Theorem quality_settings_defined (times : list Q) :
  let p := run times new in
  (∃ s, getQualitySettings p = Some s ∧ s ∈ settings)
  ∧ Forall is_Some (broadcasts p)
  ∧ (broadcasts p = [] → qualityLevel p = 1)
  ∧ (broadcasts p ≠ [] → last (broadcasts p) = Some (getQualitySettings p)).
Proof.
  intros p.
  assert (H : broadcasts_ok p).
  { subst p. assert (H0 : broadcasts_ok new).
    { split; [split; [done | by right; left]|]. split; [constructor|]. done. }
    revert H0. generalize new.
    induction times as [|t ts IH]; intros q Hq; simpl; [done|].
    by apply IH, update_broadcasts_ok. }
  destruct H as ((_ & Hq) & Hf & He & Hn).
  split; [by apply getQualitySettings_defined | done].
Qed.

Lemma sum_lower (lo : Z) (h : list Z) a :
  Forall (fun f => lo ≤ f) h → a + lo * Z.of_nat (length h) ≤ foldl Z.add a h.
Proof.
  revert a. induction h as [|f h IH]; intros a Hf; simpl; [lia|].
  apply Forall_cons in Hf as [H1 H2]. specialize (IH (a + f) H2). lia.
Qed.

Lemma sum_upper (hi : Z) (h : list Z) a :
  Forall (fun f => f ≤ hi) h → foldl Z.add a h ≤ a + hi * Z.of_nat (length h).
Proof.
  revert a. induction h as [|f h IH]; intros a Hf; simpl; [lia|].
  apply Forall_cons in Hf as [H1 H2]. specialize (IH (a + f) H2). lia.
Qed.

Lemma mean_lower (lo : Z) (h : list Z) :
  h ≠ [] → Forall (fun f => lo ≤ f) h → (inject_Z lo <= mean h)%Q.
Proof.
  intros Hne Hf. unfold mean.
  assert (Hlen : 0 < Z.of_nat (length h)) by (destruct h; [done | simpl; lia]).
  apply Qle_shift_div_l.
  - change 0%Q with (inject_Z 0). rewrite <- Zlt_Qlt. done.
  - rewrite <- inject_Z_mult, <- Zle_Qle.
    pose proof (sum_lower lo h 0 Hf). lia.
Qed.

Lemma mean_upper (hi : Z) (h : list Z) :
  h ≠ [] → Forall (fun f => f ≤ hi) h → (mean h <= inject_Z hi)%Q.
Proof.
  intros Hne Hf. unfold mean.
  assert (Hlen : 0 < Z.of_nat (length h)) by (destruct h; [done | simpl; lia]).
  apply Qle_shift_div_r.
  - change 0%Q with (inject_Z 0). rewrite <- Zlt_Qlt. done.
  - rewrite <- inject_Z_mult, <- Zle_Qle.
    pose proof (sum_upper hi h 0 Hf). lia.
Qed.

(** (X8) Hysteresis.  While every sample of the history is at least 40
    frames per second an [update] never lowers the quality level, and while
    every sample is at most 58 it never raises it; with all samples between
    40 and 58 the level stays where it is. *)
Theorem quality_hysteresis (times : list Q) (time : Q) :
  let p := run times new in
  let p' := update time p in
  (Forall (fun f => 40 ≤ f) (fpsHistory p') → qualityLevel p ≤ qualityLevel p')
  ∧ (Forall (fun f => f ≤ 58) (fpsHistory p') → qualityLevel p' ≤ qualityLevel p).
Proof.
  intros p p'.
  assert (Hok : level_ok p).
  { apply run_level_ok. split; [done | by right; left]. }
  destruct Hok as [Ha Hq].
  destruct (update_level time p Ha) as (_ & Hstep). fold p' in Hstep.
  destruct Hstep as [(_ & ->)|[(_ & _ & ->)|(_ & Hlen & ->)]]; [split; lia..|].
  assert (Hne : fpsHistory p' ≠ []).
  { intros E. rewrite E in Hlen. simpl in Hlen. lia. }
  unfold next_level. split; intros Hf.
  - assert (Hm := mean_lower 40 _ Hne Hf).
    destruct (Qltb (mean (fpsHistory p')) 40) eqn:E.
    { apply Qltb_lt in E. exfalso. apply (Qlt_not_le _ _ E). exact Hm. }
    simpl. destruct (Qltb 58 _ && _); lia.
  - assert (Hm := mean_upper 58 _ Hne Hf).
    destruct (Qltb 58 (mean (fpsHistory p'))) eqn:E.
    { apply Qltb_lt in E. exfalso. apply (Qlt_not_le _ _ E). exact Hm. }
    simpl. destruct (Qltb _ 40 && _); lia.
Qed.

(** Ten seconds at 50 frames per second: the level stays 1. *)
Lemma quality_hysteresis_witness :
  let times :=
    concat (map (fun k => replicate 49 (inject_Z k * 1000 - 500)%Q
                            ++ [(inject_Z k * 1000)%Q])
              [1; 2; 3; 4; 5; 6; 7; 8; 9]) ++ replicate 49 9500%Q in
  fpsHistory (update 10000 (run times new)) = replicate 10 50
  ∧ qualityLevel (update 10000 (run times new)) = 1.
Proof.
  intros times.
  assert (Hh : fpsHistory (update 10000 (run times new)) = replicate 10 50)
    by (vm_compute; reflexivity).
  split; [exact Hh|].
  destruct (quality_hysteresis times 10000) as [H1 H2].
  assert (Hq : qualityLevel (run times new) = 1) by (vm_compute; reflexivity).
  rewrite Hq in H1, H2.
  assert (1 ≤ qualityLevel (update 10000 (run times new))).
  { apply H1. rewrite Hh. vm_compute. repeat constructor; discriminate. }
  assert (qualityLevel (update 10000 (run times new)) ≤ 1).
  { apply H2. rewrite Hh. vm_compute. repeat constructor; discriminate. }
  lia.
Defined.

End QualityHistory.

(** ** Perks and stat bonuses of the player level *)

Section StatBonuses.
Import LevelingSystem.

(** The perks by the level that unlocks them. *)
Definition perkTable : list (Z * Perk) :=
  [ (3, mkPerk "speed" (Binary64.dec 5 2)); (5, mkPerk "xp" (Binary64.dec 10 2));
    (7, mkPerk "currency" (Binary64.dec 5 2));
    (10, mkPerk "speed" (Binary64.dec 5 2)); (12, mkPerk "shield" (Binary64.ofZ 1));
    (15, mkPerk "xp" (Binary64.dec 10 2));
    (17, mkPerk "currency" (Binary64.dec 5 2));
    (20, mkPerk "speed" (Binary64.dec 5 2));
    (22, mkPerk "combo" (Binary64.dec 25 2));
    (25, mkPerk "master" (Binary64.dec 15 2));
    (30, mkPerk "legendary" (Binary64.dec 25 2)) ].

Definition unlocked (table : list (Z * Perk)) (level : Z) : list Perk :=
  flat_map (fun e => if bool_decide (level >= fst e) then [snd e] else []) table.

Lemma getLevelPerks_table level : getLevelPerks level = unlocked perkTable level.
Proof.
  unfold getLevelPerks, unlocked, perkTable, perkAt. simpl.
  by rewrite app_nil_r.
Qed.

(** Thresholds in increasing order. *)
Fixpoint ascending (lo : Z) (table : list (Z * Perk)) : Prop :=
  match table with
  | [] => True
  | e :: rest => lo ≤ fst e ∧ ascending (fst e) rest
  end.

Lemma unlocked_below table level lo :
  ascending lo table → level < lo → unlocked table level = [].
Proof.
  revert lo. induction table as [|e rest IH]; intros lo Ha Hl; simpl; [done|].
  destruct Ha as [H1 H2]. rewrite bool_decide_false by lia.
  simpl. apply (IH (fst e)); [done | lia].
Qed.

(** The perks of a level are the first ones of the table. *)
Lemma unlocked_take table lo level :
  ascending lo table →
  unlocked table level = take (length (unlocked table level)) (map snd table).
Proof.
  revert lo. induction table as [|e tl IH]; intros lo Ha; simpl; [done|].
  destruct Ha as [H1 H2]. case_bool_decide as E; simpl.
  - f_equal. by apply (IH (fst e)).
  - by rewrite (unlocked_below tl level (fst e)) by (done || lia).
Qed.

Lemma unlocked_prefix table lo l1 l2 :
  ascending lo table → l1 ≤ l2 →
  ∃ rest, unlocked table l2 = unlocked table l1 ++ rest.
Proof.
  revert lo. induction table as [|e tl IH]; intros lo Ha Hl; simpl.
  { by exists []. }
  destruct Ha as [H1 H2].
  destruct (bool_decide (l1 >= fst e)) eqn:E1.
  - apply bool_decide_eq_true in E1. rewrite bool_decide_true by lia.
    destruct (IH (fst e) H2 Hl) as (rest & ->). by exists rest.
  - apply bool_decide_eq_false in E1.
    rewrite (unlocked_below tl l1 (fst e)) by (done || lia). simpl. eauto.
Qed.

Lemma unlocked_length table level : (length (unlocked table level) ≤ length table)%nat.
Proof.
  induction table as [|e tl IH]; simpl; [done|].
  case_bool_decide; simpl; lia.
Qed.

Lemma perkTable_ascending : ascending 3 perkTable.
Proof. simpl. repeat split; lia. Qed.

(** The bonuses once the first [n] perks of the table are in. *)
Definition bonusesAfter (n : nat) : Bonuses :=
  foldl addPerk
    (mkBonuses (Binary64.ofZ 1) (Binary64.ofZ 1) (Binary64.ofZ 1)
               (Binary64.ofZ 0) (Binary64.ofZ 1))
    (take n (map snd perkTable)).

(** The number of perks of a level. *)
Definition perkCount (level : Z) : nat := length (getLevelPerks level).

Lemma getStatBonuses_after level :
  getStatBonuses level = bonusesAfter (perkCount level)
  ∧ (perkCount level ≤ 11)%nat.
Proof.
  unfold getStatBonuses, bonusesAfter, perkCount.
  rewrite getLevelPerks_table. split.
  - by rewrite <- (unlocked_take perkTable 3 level perkTable_ascending).
  - apply (unlocked_length perkTable level).
Qed.

(** Field by field, as rationals. *)
Definition le_bonuses (a b : Bonuses) : Prop :=
  (Binary64.toQ (speedMultiplier a) <= Binary64.toQ (speedMultiplier b))%Q
  ∧ (Binary64.toQ (xpMultiplier a) <= Binary64.toQ (xpMultiplier b))%Q
  ∧ (Binary64.toQ (currencyMultiplier a) <= Binary64.toQ (currencyMultiplier b))%Q
  ∧ (Binary64.toQ (shieldBonus a) <= Binary64.toQ (shieldBonus b))%Q
  ∧ (Binary64.toQ (comboMultiplier a) <= Binary64.toQ (comboMultiplier b))%Q.

Definition le_bonusesb (a b : Bonuses) : bool :=
  Qle_bool (Binary64.toQ (speedMultiplier a)) (Binary64.toQ (speedMultiplier b))
  && Qle_bool (Binary64.toQ (xpMultiplier a)) (Binary64.toQ (xpMultiplier b))
  && Qle_bool (Binary64.toQ (currencyMultiplier a))
       (Binary64.toQ (currencyMultiplier b))
  && Qle_bool (Binary64.toQ (shieldBonus a)) (Binary64.toQ (shieldBonus b))
  && Qle_bool (Binary64.toQ (comboMultiplier a)) (Binary64.toQ (comboMultiplier b)).

Lemma le_bonusesb_le a b : le_bonusesb a b = true → le_bonuses a b.
Proof.
  unfold le_bonusesb, le_bonuses. rewrite !andb_true_iff, !Qle_bool_iff. tauto.
Qed.

(** Each further perk of the table raises the bonuses, rounding included:
    checked for every pair of positions. *)
Lemma bonusesAfter_mono (n1 n2 : nat) :
  (n1 ≤ n2 ≤ 11)%nat → le_bonuses (bonusesAfter n1) (bonusesAfter n2).
Proof.
  intros H. apply le_bonusesb_le.
  assert (Hall : forallb (fun i => forallb (fun j =>
                   le_bonusesb (bonusesAfter i) (bonusesAfter (i + j)))
                   (seq 0 (12 - i))) (seq 0 12) = true) by (vm_compute; reflexivity).
  rewrite forallb_forall in Hall.
  specialize (Hall n1). rewrite forallb_forall in Hall.
  replace n2 with (n1 + (n2 - n1))%nat by lia.
  apply Hall; apply in_seq; lia.
Qed.

(** A double within 10^-15 of a decimal. *)
Definition near (x : Binary64.float) (d : Q) : Prop :=
  (d - (1 # 10 ^ 15) <= Binary64.toQ x)%Q ∧ (Binary64.toQ x <= d + (1 # 10 ^ 15))%Q.

Lemma stat_bonuses_ends :
  getStatBonuses 0
  = mkBonuses (Binary64.ofZ 1) (Binary64.ofZ 1) (Binary64.ofZ 1)
              (Binary64.ofZ 0) (Binary64.ofZ 1)
  ∧ near (speedMultiplier (getStatBonuses 30)) 1.55
  ∧ near (xpMultiplier (getStatBonuses 30)) 1.45
  ∧ near (currencyMultiplier (getStatBonuses 30)) 1.5
  ∧ near (shieldBonus (getStatBonuses 30)) 1
  ∧ near (comboMultiplier (getStatBonuses 30)) 1.65.
Proof. split; [reflexivity|]. repeat split; vm_compute; discriminate. Qed.

(** (X9) The perks of a level are those of any lower level followed by the
    ones unlocked since, and every stat bonus, a sum of doubles, grows with
    the level.  Below level 3 all bonuses are neutral; from level 30 on
    they stay at the values of level 30, which are 1.55, 1.45, 1.5 and 1.65
    to within 10^-15 for speed, experience, currency and combo, and one
    extra shield charge. *)
Theorem stat_bonuses_grow (l1 l2 : Z) :
  l1 ≤ l2 →
  (∃ rest, getLevelPerks l2 = getLevelPerks l1 ++ rest)
  ∧ le_bonuses (getStatBonuses l1) (getStatBonuses l2)
  ∧ le_bonuses (getStatBonuses 0) (getStatBonuses l1)
  ∧ le_bonuses (getStatBonuses l2) (getStatBonuses 30)
  ∧ (l2 < 3 → getStatBonuses l2 = getStatBonuses 0)
  ∧ (30 ≤ l1 → getStatBonuses l1 = getStatBonuses 30)
  ∧ getStatBonuses 0
    = mkBonuses (Binary64.ofZ 1) (Binary64.ofZ 1) (Binary64.ofZ 1)
                (Binary64.ofZ 0) (Binary64.ofZ 1)
  ∧ near (speedMultiplier (getStatBonuses 30)) 1.55
  ∧ near (xpMultiplier (getStatBonuses 30)) 1.45
  ∧ near (currencyMultiplier (getStatBonuses 30)) 1.5
  ∧ near (shieldBonus (getStatBonuses 30)) 1
  ∧ near (comboMultiplier (getStatBonuses 30)) 1.65.
Proof.
  intros Hl.
  assert (Hpre : ∀ a b, a ≤ b → ∃ rest, getLevelPerks b = getLevelPerks a ++ rest).
  { intros a b Hab. rewrite !getLevelPerks_table.
    by apply (unlocked_prefix perkTable 3 a b perkTable_ascending). }
  assert (Hmono : ∀ a b, a ≤ b → le_bonuses (getStatBonuses a) (getStatBonuses b)).
  { intros a b Hab.
    destruct (getStatBonuses_after a) as [-> Ha].
    destruct (getStatBonuses_after b) as [-> Hb].
    apply bonusesAfter_mono. split; [|done].
    unfold perkCount. destruct (Hpre a b Hab) as (rest & ->).
    rewrite length_app. lia. }
  assert (Hhigh : ∀ l, 30 ≤ l → getStatBonuses l = getStatBonuses 30).
  { intros l H. unfold getStatBonuses. f_equal.
    unfold getLevelPerks, perkAt. by rewrite !bool_decide_true by lia. }
  assert (Hlow : ∀ l, l < 3 → getStatBonuses l = getStatBonuses 0).
  { intros l H. unfold getStatBonuses.
    rewrite !getLevelPerks_table.
    by rewrite !(unlocked_below _ _ 3 perkTable_ascending) by lia. }
  split; [by apply Hpre|]. split; [by apply Hmono|].
  split; [|split; [|split; [apply Hlow | split; [apply Hhigh|apply stat_bonuses_ends]]]].
  - destruct (Z_le_gt_dec 0 l1); [by apply Hmono|].
    rewrite (Hlow l1) by lia. by apply Hmono.
  - destruct (Z_le_gt_dec l2 30); [by apply Hmono|].
    rewrite (Hhigh l2) by lia. by apply Hmono.
Qed.

(** From level 12 to level 22: the shield perk is there already, the combo
    perk comes in. *)
Lemma stat_bonuses_grow_witness :
  (Binary64.toQ (shieldBonus (getStatBonuses 12)) == 1)%Q
  ∧ (Binary64.toQ (comboMultiplier (getStatBonuses 12))
     <= Binary64.toQ (comboMultiplier (getStatBonuses 22)))%Q.
Proof.
  split; [reflexivity|].
  destruct (stat_bonuses_grow 12 22) as (_ & H & _); [lia|].
  apply H.
Defined.

End StatBonuses.

(** ** Signs of doubles *)

Section Doubles.
Import Binary64.

(** Not below zero: a finite double with the sign bit clear, a zero, or
    what [floor] takes for 0. *)
Definition nonneg (x : float) : Prop :=
  match x with
  | SpecFloat.S754_finite true _ _ => False
  | _ => True
  end.

Definition nonnegb (x : float) : bool :=
  match x with
  | SpecFloat.S754_finite true _ _ => false
  | _ => true
  end.

Lemma nonnegb_nonneg x : nonnegb x = true → nonneg x.
Proof. by destruct x as [| | |[] ? ?]. Qed.

Lemma floor_nonneg x : nonneg x → 0 ≤ floor x.
Proof.
  destruct x as [| | |[] m e]; simpl; try done. intros _.
  case_bool_decide; [|apply Z.div_pos]; lia.
Qed.

(** Rounding keeps the sign it is given. *)
Lemma round_aux_sign s m e l :
  match SpecFloat.binary_round_aux prec emax s m e l with
  | SpecFloat.S754_finite s' _ _ => s' = s
  | _ => True
  end.
Proof.
  unfold SpecFloat.binary_round_aux.
  destruct (SpecFloat.shr_fexp prec emax m e l) as [mrs' e'].
  destruct (SpecFloat.shr_fexp prec emax _ e' SpecFloat.loc_Exact) as [mrs'' e''].
  destruct (SpecFloat.shr_m mrs''); [done| |done].
  by destruct (_ <=? _).
Qed.

Lemma round_aux_nonneg m e l :
  nonneg (SpecFloat.binary_round_aux prec emax false m e l).
Proof.
  pose proof (round_aux_sign false m e l) as H.
  destruct (SpecFloat.binary_round_aux prec emax false m e l) as [| | |[] ? ?]; done.
Qed.

Lemma ofZ_nonneg z : 0 ≤ z → nonneg (ofZ z).
Proof.
  intros H. unfold ofZ, SpecFloat.binary_normalize.
  destruct z as [|m|m]; [done| |lia].
  unfold SpecFloat.binary_round.
  destruct (SpecFloat.shl_align _ _ _) as [mz ez]. apply round_aux_nonneg.
Qed.

Lemma mul_nonneg x y : nonneg x → nonneg y → nonneg (x * y)%b64.
Proof.
  destruct x as [sx|sx| |[] mx ex], y as [sy|sy| |[] my ey]; try done.
  intros _ _. apply round_aux_nonneg.
Qed.

Lemma div_nonneg x y : nonneg x → nonneg y → nonneg (x / y)%b64.
Proof.
  destruct x as [sx|sx| |[] mx ex], y as [sy|sy| |[] my ey]; try done.
  intros _ _. unfold div, SpecFloat.SFdiv.
  destruct (SpecFloat.SFdiv_core_binary _ _ _ _ _ _) as [[mz ez] lz].
  apply round_aux_nonneg.
Qed.

Lemma dec_nonneg digits places : 0 ≤ digits → nonneg (dec digits places).
Proof.
  intros H. unfold dec. apply div_nonneg; apply ofZ_nonneg; [done | lia].
Qed.

(** The bonuses of every level are not below zero. *)
Lemma bonuses_nonneg (level : Z) :
  let b := LevelingSystem.getStatBonuses level in
  nonneg (LevelingSystem.currencyMultiplier b)
  ∧ nonneg (LevelingSystem.comboMultiplier b)
  ∧ nonneg (LevelingSystem.xpMultiplier b).
Proof.
  cbv zeta. destruct (getStatBonuses_after level) as [-> Hn].
  assert (Hall : forallb (fun n =>
            nonnegb (LevelingSystem.currencyMultiplier (bonusesAfter n))
            && nonnegb (LevelingSystem.comboMultiplier (bonusesAfter n))
            && nonnegb (LevelingSystem.xpMultiplier (bonusesAfter n)))
            (seq 0 12) = true) by (vm_compute; reflexivity).
  rewrite forallb_forall in Hall. specialize (Hall (perkCount level)).
  rewrite !andb_true_iff in Hall.
  destruct Hall as [[H1 H2] H3]; [apply in_seq; lia|].
  by repeat split; apply nonnegb_nonneg.
Qed.

End Doubles.

(** ** The run state of the main scene: what every handler keeps *)

Section Vitals.
Import GameScene.

(** The counters of a run are in range, and the run is over exactly when
    no life is left. *)
Definition steady (s : t) : Prop :=
  1 ≤ level s ∧ 0 ≤ combo s ∧ combo s ≤ maxCombo s
  ∧ 0 ≤ overcharge s ∧ overcharge s ≤ 100
  ∧ 1 ≤ scoreMultiplier s ∧ scoreMultiplier s ≤ 3
  ∧ 0 ≤ score s ∧ 0 ≤ earnedCurrency s
  ∧ 0 ≤ lives s ∧ (sceneOver s = true ↔ lives s = 0)
  ∧ (500 <= spawnRate s)%Q ∧ spawnTimerDelay s = spawnRate s.

Lemma steady_ext s u :
  level u = level s → combo u = combo s → maxCombo u = maxCombo s →
  overcharge u = overcharge s → scoreMultiplier u = scoreMultiplier s →
  score u = score s → earnedCurrency u = earnedCurrency s →
  lives u = lives s → sceneOver u = sceneOver s →
  spawnRate u = spawnRate s → spawnTimerDelay u = spawnTimerDelay s →
  steady s → steady u.
Proof. unfold steady. by intros -> -> -> -> -> -> -> -> -> -> ->. Qed.

(** What a run only ever gains. *)
Definition grows (s u : t) : Prop :=
  score s ≤ score u ∧ earnedCurrency s ≤ earnedCurrency u
  ∧ level s ≤ level u ∧ maxCombo s ≤ maxCombo u.

Lemma grows_ext s u :
  score u = score s → earnedCurrency u = earnedCurrency s →
  level u = level s → maxCombo u = maxCombo s → grows s u.
Proof. unfold grows. intros -> -> -> ->. lia. Qed.

Lemma grows_trans s u v : grows s u → grows u v → grows s v.
Proof. unfold grows. lia. Qed.

(** Losing a life, with the end of the run when it was the last. *)
Lemma steady_life_lost s u :
  steady s → sceneOver s = false →
  level u = level s → combo u = 0 ∨ combo u = combo s → maxCombo u = maxCombo s →
  overcharge u = overcharge s → scoreMultiplier u = scoreMultiplier s →
  score u = score s → earnedCurrency u = earnedCurrency s →
  lives u = lives s - 1 → sceneOver u = bool_decide (lives s - 1 ≤ 0) →
  (500 <= spawnRate u)%Q → spawnTimerDelay u = spawnRate u →
  steady u.
Proof.
  intros (H1 & H2 & H3 & H4 & H5 & H6 & H7 & H8 & H9 & H10 & H11 & H12 & H13) Ho.
  unfold steady. intros -> Hc -> -> -> -> -> -> -> Hr Hd.
  assert (lives s ≠ 0) by (intros E; apply H11 in E; congruence).
  repeat split; try done; try lia.
  - intros E. apply bool_decide_eq_true in E. lia.
  - intros E. apply bool_decide_eq_true. lia.
Qed.

Lemma points_nonneg it q :
  0 ≤ value it → 1 ≤ level q → 0 ≤ combo q → 1 ≤ scoreMultiplier q →
  0 ≤ points it q.
Proof.
  intros Hv Hl Hc Hm. unfold points. apply floor_nonneg.
  destruct (bonuses_nonneg (playerLevel (env q))) as (_ & Hb & _).
  repeat apply mul_nonneg; try apply ofZ_nonneg; try done; try lia.
  - unfold comboMultiplier.
    assert (0 ≤ combo q / 5) by (apply Z.div_pos; lia). lia.
  - destruct (overchargeActive q); lia.
  - destruct (fortuneAura q); [by apply dec_nonneg | by apply ofZ_nonneg].
Qed.

Lemma currency_nonneg pts q :
  0 ≤ pts →
  0 ≤ Binary64.floor
        (Binary64.ofZ pts / Binary64.ofZ 20
         * (Binary64.ofZ (if fortuneAura q then 2 else 1)
            * LevelingSystem.currencyMultiplier
                (LevelingSystem.getStatBonuses (playerLevel (env q)))))%b64.
Proof.
  intros Hp. apply floor_nonneg.
  destruct (bonuses_nonneg (playerLevel (env q))) as (Hb & _).
  apply mul_nonneg; [apply div_nonneg; by apply ofZ_nonneg|].
  apply mul_nonneg; [|done]. apply ofZ_nonneg. destruct (fortuneAura q); lia.
Qed.

(** The run state once the scoring path has run, before the level-up test. *)
Lemma scored_steady clock item it q :
  steady q → 0 ≤ value it →
  steady (scored clock item it q) ∧ grows q (scored clock item it q).
Proof.
  intros (H1 & H2 & H3 & H4 & H5 & H6 & H7 & H8 & H9 & H10 & H11 & H12 & H13) Hv.
  destruct (updatePerformanceScore_feedback (countCatch clock it q)) as (_ & _ & V3).
  assert (V2 : (500 <= spawnRate (updatePerformanceScore (countCatch clock it q)))%Q)
    by apply Q.le_max_l.
  set (u := updatePerformanceScore (countCatch clock it q)) in *.
  set (w := tallyCatch it u).
  destruct (scored_fields clock item it q)
    as (F1 & F2 & F3 & F4 & F5 & _ & _ & _ & F9 & F10 & _).
  fold u in F9, F10.
  destruct (countCatch_fields clock it q)
    as (C1 & _ & C3 & C4 & C5 & C6 & C7 & _ & C9 & _).
  destruct (updatePerformanceScore_keeps (countCatch clock it q))
    as (U1 & _ & U3 & U4 & U5 & U6 & U7 & _ & U9 & _).
  fold u in U1, U3, U4, U5, U6, U7, U9.
  destruct (tallyCatch_fields it u)
    as (T1 & _ & T3 & T4 & T5 & T6 & T7 & _ & T9 & _).
  fold w in T1, T3, T4, T5, T6, T7, T9.
  assert (Hpts : 0 ≤ points it w).
  { apply points_nonneg; [done|..]; rewrite ?T4, ?T1, ?T6, ?U4, ?U1, ?U6, ?C4, ?C1, ?C6; lia. }
  assert (Hpts' : 0 ≤ points it (set_combo (combo q + 1) q))
    by (apply points_nonneg; [done|..]; simpl; lia).
  assert (Hmc : maxCombo (scored clock item it q) = Z.max (maxCombo q) (combo q + 1)).
  { change (maxCombo (scored clock item it q)) with (maxCombo w).
    subst w. unfold tallyCatch. by destruct (typeIs it "gold"). }
  assert (Hoc : 0 ≤ overcharge (scored clock item it q) ≤ 100).
  { change (overcharge (scored clock item it q)) with (overcharge w).
    subst w. unfold tallyCatch.
    destruct (typeIs it "gold"); [|destruct (typeIs it "giant")];
      cbn [overcharge set_overcharge set_goldCaught set_missStreak set_maxCombo
           set_perfectStreak];
      change (overcharge u) with (overcharge q); lia. }
  assert (Hsm : scoreMultiplier (scored clock item it q) = scoreMultiplier q).
  { change (scoreMultiplier (scored clock item it q)) with (scoreMultiplier w).
    by rewrite T6, U6, C6. }
  assert (Hec : earnedCurrency (scored clock item it q)
                = earnedCurrency q
                  + Binary64.floor
                      (Binary64.ofZ (points it w) / Binary64.ofZ 20
                       * (Binary64.ofZ (if fortuneAura w then 2 else 1)
                          * LevelingSystem.currencyMultiplier
                              (LevelingSystem.getStatBonuses
                                 (playerLevel (env w)))))%b64).
  { change (earnedCurrency (scored clock item it q))
      with (earnedCurrency (awardPoints it w)).
    unfold awardPoints. cbn [earnedCurrency set_earnedCurrency].
    f_equal. subst w. unfold tallyCatch. by destruct (typeIs it "gold"). }
  assert (Hcur := currency_nonneg (points it w) w Hpts).
  clearbody u.
  split; [|unfold grows; lia].
  unfold steady. rewrite F2, F3, F4, F5, Hmc, Hsm, F1, Hec, F10.
  split; [done|]. split; [lia|]. split; [lia|]. split; [lia|]. split; [lia|].
  split; [done|]. split; [done|]. split; [lia|]. split; [lia|]. split; [done|].
  split; [done|]. split; [by rewrite F9 | by rewrite F9].
Qed.

Lemma levelUp_vitals q :
  level (levelUp q) = level q + 1 ∧ combo (levelUp q) = combo q
  ∧ maxCombo (levelUp q) = maxCombo q ∧ overcharge (levelUp q) = overcharge q
  ∧ scoreMultiplier (levelUp q) = scoreMultiplier q
  ∧ score (levelUp q) = score q ∧ earnedCurrency (levelUp q) = earnedCurrency q
  ∧ lives (levelUp q) = lives q ∧ sceneOver (levelUp q) = sceneOver q
  ∧ spawnRate (levelUp q) = Qmax 500 (spawnRate q - 100)
  ∧ spawnTimerDelay (levelUp q) = spawnRate (levelUp q).
Proof. unfold levelUp. case_bool_decide; repeat split; reflexivity. Qed.

Lemma scoreCatch_steady clock item it q :
  steady q → 0 ≤ value it →
  steady (scoreCatch clock item it q) ∧ grows q (scoreCatch clock item it q).
Proof.
  intros Hq Hv. destruct (scored_steady clock item it q Hq Hv) as (Hs & Hg).
  unfold scoreCatch. destruct (_ && _); [|done].
  destruct (levelUp_vitals (scored clock item it q))
    as (L1 & L2 & L3 & L4 & L5 & L6 & L7 & L8 & L9 & L10 & L11).
  split; [|unfold grows in *; rewrite L1, L3, L6, L7; lia].
  destruct Hs as (S1 & S2 & S3 & S4 & S5 & S6 & S7 & S8 & S9 & S10 & S11 & S12 & S13).
  unfold steady. rewrite L11, L10, L1, L2, L3, L4, L5, L6, L7, L8, L9.
  repeat split; try done; try lia; try apply S11. apply Q.le_max_l.
Qed.

Lemma steady_alive s : steady s → sceneOver s = false → 1 ≤ lives s.
Proof.
  intros (_ & _ & _ & _ & _ & _ & _ & _ & _ & H10 & H11 & _) Ho.
  assert (lives s ≠ 0) by (intros E; apply H11 in E; congruence). lia.
Qed.

Lemma steady_releaseItem item s : steady s → steady (releaseItem item s).
Proof. by apply steady_ext. Qed.

Lemma activateMystery_steady pick item s :
  steady s → sceneOver s = false →
  steady (activateMystery pick item s) ∧ grows s (activateMystery pick item s).
Proof.
  intros Hs Ho. assert (Hl := steady_alive s Hs Ho).
  destruct Hs as (H1 & H2 & H3 & H4 & H5 & H6 & H7 & H8 & H9 & H10 & H11 & H12 & H13).
  unfold activateMystery. case_bool_decide; [|split; [done | by apply grows_ext]].
  destruct (Z.to_nat pick) as [|[|[|[|n]]]]; simpl;
    try (split; [done | by apply grows_ext]);
    (split; [|unfold grows; simpl; lia]); unfold steady; simpl;
    repeat split; try done; try lia; try apply H11; rewrite Ho; try done; lia.
Qed.

Lemma bombHit_steady item s :
  steady s → sceneOver s = false →
  steady (bombHit item s) ∧ grows s (bombHit item s).
Proof.
  intros Hs Ho. unfold bombHit. cbv zeta.
  assert (H12 : (500 <= spawnRate s)%Q) by apply Hs.
  assert (H13 : spawnTimerDelay s = spawnRate s) by apply Hs.
  match goal with |- context [bool_decide ?P] => destruct (bool_decide P) eqn:E end;
    (split; [|by apply grows_ext]).
  - match goal with |- steady ?u => refine (steady_life_lost s u Hs Ho eq_refl (or_introl eq_refl) eq_refl eq_refl
              eq_refl eq_refl eq_refl eq_refl _ H12 H13) end.
    transitivity true; [reflexivity | symmetry; exact E].
  - match goal with |- steady ?u => refine (steady_life_lost s u Hs Ho eq_refl (or_introl eq_refl) eq_refl eq_refl
              eq_refl eq_refl eq_refl eq_refl _ H12 H13) end.
    transitivity (sceneOver s); [reflexivity|]. rewrite Ho. symmetry; exact E.
Qed.

Lemma catchItem_steady clock pick item s :
  steady s → run_inv s → sceneOver s = false →
  steady (catchItem clock pick item s) ∧ grows s (catchItem clock pick item s).
Proof.
  intros Hs Hr Ho. assert (Hl := steady_alive s Hs Ho). unfold catchItem.
  destruct (ObjectPool.store (itemPool s) !! item) as [it|] eqn:Hit;
    [|split; [done | by apply grows_ext]].
  assert (Hok : item_ok it).
  { destruct Hr as (_ & _ & _ & (Hst & _)). by eapply Forall_lookup_1. }
  destruct (typeIs it "freeze").
  { split; [revert Hs; by apply steady_ext | by apply grows_ext]. }
  destruct (typeIs it "health").
  { split; [|by apply grows_ext].
    destruct Hs as (H1 & H2 & H3 & H4 & H5 & H6 & H7 & H8 & H9 & H10 & H11 & H12 & H13).
    unfold steady; simpl. repeat split; try done; try lia; rewrite Ho; try done; lia. }
  destruct (typeIs it "mystery"); [by apply activateMystery_steady|].
  destruct (typeIs it "bomb" && negb (has "converter" s)); [by apply bombHit_steady|].
  destruct (typeIs it "bomb") eqn:Hb.
  - fold (converted it). rewrite !typeIs_converted by discriminate.
    match goal with |- context [scoreCatch clock item ?it' ?q] =>
      destruct (scoreCatch_steady clock item it' q) as (A & B) end.
    + revert Hs. by apply steady_ext.
    + simpl. lia.
    + split; [exact A|]. eapply grows_trans; [|exact B]. by apply grows_ext.
  - destruct (typeIs it "glitch") eqn:Hg.
    { destruct (scoreCatch_steady clock item it (activateGlitchEffect s)) as (A & B).
      - revert Hs. apply steady_ext; unfold activateGlitchEffect;
          destruct (glitchActive s); reflexivity.
      - apply item_ok_value; [done | done |].
        apply typeIs_false. apply typeIs_true in Hg. congruence.
      - split; [exact A|]. eapply grows_trans; [|exact B].
        apply grows_ext; unfold activateGlitchEffect;
          destruct (glitchActive s); reflexivity. }
    destruct (typeIs it "multiplier") eqn:Hm.
    { destruct (scoreCatch_steady clock item it (activateMultiplier s)) as (A & B).
      - destruct Hs as (H1 & H2 & H3 & H4 & H5 & H6 & H7 & H8 & H9 & H10 & H11 & H12 & H13).
        unfold steady; simpl. repeat split; try done; try lia; apply H11.
      - apply item_ok_value; [done | done |].
        apply typeIs_false. apply typeIs_true in Hm. congruence.
      - split; [exact A|]. eapply grows_trans; [|exact B]. by apply grows_ext. }
    destruct (typeIs it "virus") eqn:Hv.
    { split.
      - revert Hs. apply steady_ext; unfold activateVirusEffect;
          destruct (virusActive s); reflexivity.
      - apply grows_ext; unfold activateVirusEffect;
          destruct (virusActive s); reflexivity. }
    apply scoreCatch_steady; [done|]. by apply item_ok_value.
Qed.

Lemma useShield_steady s : steady s → steady (useShield s) ∧ grows s (useShield s).
Proof.
  intros Hs. split.
  - revert Hs. apply steady_ext; unfold useShield; destruct (Qle_bool _ _); reflexivity.
  - apply grows_ext; unfold useShield; destruct (Qle_bool _ _); reflexivity.
Qed.

Lemma penalised_vitals s :
  let x := updatePerformanceScore (penalise s) in
  level x = level s ∧ combo x = 0 ∧ maxCombo x = maxCombo s
  ∧ overcharge x = overcharge s ∧ scoreMultiplier x = scoreMultiplier s
  ∧ score x = score s ∧ earnedCurrency x = earnedCurrency s
  ∧ lives x = lives s - 1 ∧ sceneOver x = sceneOver s
  ∧ (500 <= spawnRate x)%Q ∧ spawnTimerDelay x = spawnRate x.
Proof.
  intros x. destruct (updatePerformanceScore_feedback (penalise s)) as (_ & _ & V3).
  do 9 (split; [reflexivity|]). split; [apply Q.le_max_l | exact V3].
Qed.

Lemma life_lost_steady item s x :
  steady s → sceneOver s = false →
  level x = level s → combo x = 0 → maxCombo x = maxCombo s →
  overcharge x = overcharge s → scoreMultiplier x = scoreMultiplier s →
  score x = score s → earnedCurrency x = earnedCurrency s →
  lives x = lives s - 1 → sceneOver x = sceneOver s →
  (500 <= spawnRate x)%Q → spawnTimerDelay x = spawnRate x →
  let u := releaseItem item x in
  let v := if bool_decide (lives u ≤ 0) then gameOver u else u in
  steady v ∧ grows s v.
Proof.
  intros Hs Ho X1 X2 X3 X4 X5 X6 X7 X8 X9 X10 X11 u v.
  assert (U : level u = level x ∧ combo u = combo x ∧ maxCombo u = maxCombo x
              ∧ overcharge u = overcharge x ∧ scoreMultiplier u = scoreMultiplier x
              ∧ score u = score x ∧ earnedCurrency u = earnedCurrency x
              ∧ lives u = lives x ∧ sceneOver u = sceneOver x
              ∧ spawnRate u = spawnRate x ∧ spawnTimerDelay u = spawnTimerDelay x).
  { repeat split; reflexivity. }
  destruct U as (U1 & U2 & U3 & U4 & U5 & U6 & U7 & U8 & U9 & U10 & U11).
  clearbody u.
  assert (G : level (gameOver u) = level u ∧ combo (gameOver u) = combo u
              ∧ maxCombo (gameOver u) = maxCombo u
              ∧ overcharge (gameOver u) = overcharge u
              ∧ scoreMultiplier (gameOver u) = scoreMultiplier u
              ∧ score (gameOver u) = score u
              ∧ earnedCurrency (gameOver u) = earnedCurrency u
              ∧ lives (gameOver u) = lives u ∧ sceneOver (gameOver u) = true
              ∧ spawnRate (gameOver u) = spawnRate u
              ∧ spawnTimerDelay (gameOver u) = spawnTimerDelay u).
  { repeat split; reflexivity. }
  destruct G as (G1 & G2 & G3 & G4 & G5 & G6 & G7 & G8 & G9 & G10 & G11).
  remember (gameOver u) as g eqn:Eg. clear Eg.
  assert (V : steady v).
  { apply (steady_life_lost s v Hs Ho); subst v;
      destruct (bool_decide (lives u ≤ 0)) eqn:E; try congruence.
    - left; congruence.
    - left; congruence.
    - rewrite G9. symmetry. rewrite <- X8, <- U8. exact E.
    - rewrite U9, X9, Ho. symmetry. rewrite <- X8, <- U8. exact E. }
  split; [exact V|].
  unfold grows. subst v. destruct (bool_decide (lives u ≤ 0)); lia.
Qed.

Lemma missItem_steady item s :
  steady s → sceneOver s = false →
  steady (missItem item s) ∧ grows s (missItem item s).
Proof.
  intros Hs Ho. unfold missItem.
  destruct (ObjectPool.store (itemPool s) !! item) as [it|];
    [|split; [done | by apply grows_ext]].
  destruct (typeIs it "bomb").
  { split; [by apply steady_releaseItem | by apply grows_ext]. }
  destruct (has "shield" s).
  { destruct (useShield_steady s Hs) as (A & B).
    split; [by apply steady_releaseItem|].
    eapply grows_trans; [exact B|]. by apply grows_ext. }
  destruct (penalised_vitals s) as (X1 & X2 & X3 & X4 & X5 & X6 & X7 & X8 & X9 & X10 & X11).
  exact (life_lost_steady item s (updatePerformanceScore (penalise s)) Hs Ho
           X1 X2 X3 X4 X5 X6 X7 X8 X9 X10 X11).
Qed.

Lemma spikeHit_steady s :
  steady s → sceneOver s = false → steady (spikeHit s) ∧ grows s (spikeHit s).
Proof.
  intros Hs Ho. unfold spikeHit.
  destruct (has "shield" s); cbn [negb]; [by apply useShield_steady|].
  assert (H12 : (500 <= spawnRate s)%Q) by apply Hs.
  assert (H13 : spawnTimerDelay s = spawnRate s) by apply Hs.
  cbv zeta.
  match goal with |- context [bool_decide ?P] => destruct (bool_decide P) eqn:E end;
    (split; [|by apply grows_ext]).
  - match goal with |- steady ?u => refine (steady_life_lost s u Hs Ho eq_refl (or_intror eq_refl) eq_refl eq_refl
              eq_refl eq_refl eq_refl eq_refl _ H12 H13) end.
    transitivity true; [reflexivity | symmetry; exact E].
  - match goal with |- steady ?u => refine (steady_life_lost s u Hs Ho eq_refl (or_intror eq_refl) eq_refl eq_refl
              eq_refl eq_refl eq_refl eq_refl _ H12 H13) end.
    transitivity (sceneOver s); [reflexivity|]. rewrite Ho. symmetry; exact E.
Qed.

Lemma spawnOne_vitals d s :
  level (spawnOne d s) = level s ∧ combo (spawnOne d s) = combo s
  ∧ maxCombo (spawnOne d s) = maxCombo s ∧ overcharge (spawnOne d s) = overcharge s
  ∧ scoreMultiplier (spawnOne d s) = scoreMultiplier s
  ∧ score (spawnOne d s) = score s
  ∧ earnedCurrency (spawnOne d s) = earnedCurrency s
  ∧ lives (spawnOne d s) = lives s ∧ sceneOver (spawnOne d s) = sceneOver s
  ∧ spawnRate (spawnOne d s) = spawnRate s
  ∧ spawnTimerDelay (spawnOne d s) = spawnTimerDelay s.
Proof.
  unfold spawnOne.
  destruct (rollItem (d_rand d) (itemSpeed s)) as [[type v] sp].
  destruct (ObjectPool.get (d_now1 d) (d_now2 d) (itemPool s)) as [obj p'].
  case_bool_decide; repeat split; reflexivity.
Qed.

Lemma spawnLoop_steady n i draws s :
  steady s → steady (spawnLoop n i draws s) ∧ grows s (spawnLoop n i draws s).
Proof.
  revert i s. induction n as [|n IH]; intros i s Hs; simpl.
  { split; [done | by apply grows_ext]. }
  destruct (spawnOne_vitals (d_item draws i) s)
    as (V1 & V2 & V3 & V4 & V5 & V6 & V7 & V8 & V9 & V10 & V11).
  destruct (IH (S i) (spawnOne (d_item draws i) s)) as (A & B).
  { revert Hs. by apply steady_ext. }
  split; [exact A|]. eapply grows_trans; [|exact B]. by apply grows_ext.
Qed.

Lemma fire_steady i s : steady s → steady (fire i s) ∧ grows s (fire i s).
Proof.
  intros Hs. unfold fire. destruct (pendingCalls s !! i) as [[d a]|];
    [|split; [done | by apply grows_ext]].
  split; [|by apply grows_ext; destruct a].
  destruct a; try (revert Hs; by apply steady_ext).
  destruct Hs as (H1 & H2 & H3 & H4 & H5 & H6 & H7 & H8 & H9 & H10 & H11 & H12 & H13).
  unfold steady; simpl. repeat split; try done; try lia; apply H11.
Qed.

Lemma handle_steady ev s :
  steady s → run_inv s → sceneOver s = false →
  steady (handle ev s) ∧ grows s (handle ev s).
Proof.
  intros Hs Hr Ho. destruct ev; simpl.
  - unfold spawnItem. case_bool_decide; [split; [done | by apply grows_ext]|].
    by apply spawnLoop_steady.
  - by apply catchItem_steady.
  - by apply missItem_steady.
  - by apply spikeHit_steady.
  - unfold destroyBomb. cbv zeta. split; [|unfold grows; simpl; lia].
    destruct Hs as (H1 & H2 & H3 & H4 & H5 & H6 & H7 & H8 & H9 & H10 & H11 & H12 & H13).
    unfold steady; simpl. repeat split; try done; try lia; apply H11.
  - unfold collectPowerup. destruct (powerupTypes !! ptype) as [type|];
      [|split; [done | by apply grows_ext]].
    cbv zeta. case_bool_decide.
    + split; [revert Hs; by apply steady_ext | by apply grows_ext].
    + destruct (powerupDuration type);
        (split; [revert Hs; by apply steady_ext | by apply grows_ext]).
  - unfold activateOvercharge. destruct (_ || _);
      [split; [done | by apply grows_ext]|].
    split; [|by apply grows_ext].
    destruct Hs as (H1 & H2 & H3 & H4 & H5 & H6 & H7 & H8 & H9 & H10 & H11 & H12 & H13).
    unfold steady; simpl. repeat split; try done; try lia; apply H11.
  - by apply fire_steady.
  - split; [revert Hs; by apply steady_ext | by apply grows_ext].
Qed.

Lemma create_steady e extraLife startShield : steady (create e extraLife startShield).
Proof.
  unfold create, setDifficultyParams, steady.
  destruct extraLife, startShield; repeat case_bool_decide; simpl;
    repeat split; try done; try lia.
Qed.

Lemma reachable_steady e extraLife startShield s :
  reachable e extraLife startShield s → steady s.
Proof.
  induction 1 as [|s ev Hs IH [Ho _]]; [apply create_steady|].
  apply handle_steady; [done | by eapply reachable_run_inv | done].
Qed.

(** (X10) In every state of a run the level is at least 1, the combo
    between 0 and the best combo, the overcharge meter between 0 and 100,
    the score multiplier between 1 and 3, score and currency are not
    negative, the spawn interval is at least 500 ms and is the delay of the
    spawn timer; the lives are never negative, and the run is over exactly
    when no life is left. *)
Theorem run_counters_in_range (e : Env) (extraLife startShield : bool) (s : t) :
  reachable e extraLife startShield s →
  1 ≤ level s ∧ 0 ≤ combo s ≤ maxCombo s ∧ 0 ≤ overcharge s ≤ 100
  ∧ 1 ≤ scoreMultiplier s ≤ 3 ∧ 0 ≤ score s ∧ 0 ≤ earnedCurrency s
  ∧ (500 <= spawnRate s)%Q ∧ spawnTimerDelay s = spawnRate s
  ∧ 0 ≤ lives s ∧ (sceneOver s = true ↔ lives s = 0).
Proof.
  intros Hs. apply reachable_steady in Hs.
  destruct Hs as (H1 & H2 & H3 & H4 & H5 & H6 & H7 & H8 & H9 & H10 & H11 & H12 & H13).
  repeat split; try done; apply H11.
Qed.

(** The run with one item caught and a second one falling. *)
Lemma run_counters_in_range_witness :
  reachable plain_env false false second_falling
  ∧ 1 ≤ level second_falling ∧ 0 ≤ lives second_falling
  ∧ (sceneOver second_falling = true ↔ lives second_falling = 0).
Proof.
  assert (Hr : reachable plain_env false false second_falling).
  { apply playable_reachable; [apply reach_create | vm_compute; reflexivity]. }
  split; [exact Hr|].
  destruct (run_counters_in_range _ _ _ _ Hr)
    as (H1 & _ & _ & _ & _ & _ & _ & _ & H2 & H3).
  split; [exact H1|]. split; [exact H2 | exact H3].
Defined.

(** (X11) No handler of a run lowers the score, the currency earned, the
    level or the best combo: a bomb or a virus, the items of negative value,
    never reaches the scoring path with that value. *)
Theorem run_never_loses_score (e : Env) (extraLife startShield : bool)
    (s : t) (ev : event) :
  reachable e extraLife startShield s → enabled ev s →
  score s ≤ score (handle ev s)
  ∧ earnedCurrency s ≤ earnedCurrency (handle ev s)
  ∧ level s ≤ level (handle ev s)
  ∧ maxCombo s ≤ maxCombo (handle ev s).
Proof.
  intros Hs [Ho _].
  apply (handle_steady ev s); [by eapply reachable_steady | by eapply reachable_run_inv | done].
Qed.

(** The second catch of a run. *)
Lemma run_never_loses_score_witness :
  reachable plain_env false false second_falling
  ∧ enabled (CatchItem (at_time 2000) 0 24%nat) second_falling
  ∧ score second_falling ≤ score (handle (CatchItem (at_time 2000) 0 24%nat) second_falling).
Proof.
  assert (Hr : reachable plain_env false false second_falling).
  { apply playable_reachable; [apply reach_create | vm_compute; reflexivity]. }
  assert (He : enabled (CatchItem (at_time 2000) 0 24%nat) second_falling).
  { apply enabledb_enabled. vm_compute. reflexivity. }
  split; [exact Hr|]. split; [exact He|].
  exact (proj1 (run_never_loses_score _ _ _ _ _ Hr He)).
Defined.

End Vitals.

(** ** The shield *)

Section Shield.
Import GameScene.







End Shield.

(** ** Integers in storage *)

Section StoredIntegers.
Import JS Stdlib.Strings.Ascii.

Lemma ten_cases (d : Z) :
  0 ≤ d ≤ 9 →
  d = 0 ∨ d = 1 ∨ d = 2 ∨ d = 3 ∨ d = 4 ∨ d = 5 ∨ d = 6 ∨ d = 7 ∨ d = 8 ∨ d = 9.
Proof. lia. Qed.

Lemma digitValue_digit (d : Z) : 0 ≤ d ≤ 9 → digitValue 10 (digit d) = Some d.
Proof.
  intros H. apply ten_cases in H.
  repeat (destruct H as [->|H]; [reflexivity|]). subst. reflexivity.
Qed.

Lemma parseDigits_showDigits (fuel : nat) (n : Z) (rest : string) (a : Z) :
  0 ≤ n < 10 ^ Z.of_nat (S fuel) →
  ∃ k, 0 ≤ k ∧ ∀ acc, default 0 acc = a →
    parseDigits 10 (showDigits (S fuel) n rest) acc
    = parseDigits 10 rest (Some (a * 10 ^ k + n)).
Proof.
  revert n rest. induction fuel as [|fuel IH]; intros n rest Hn;
    cbn [showDigits]; case_bool_decide as Hlt.
  - exists 1. split; [lia|]. intros acc Ha. cbn [parseDigits].
    rewrite Z.mod_small by lia. rewrite digitValue_digit by lia.
    rewrite Ha. by replace (a * 10 ^ 1 + n) with (a * 10 + n) by lia.
  - simpl in Hn. lia.
  - exists 1. split; [lia|]. intros acc Ha. cbn [parseDigits].
    rewrite Z.mod_small by lia. rewrite digitValue_digit by lia.
    rewrite Ha. by replace (a * 10 ^ 1 + n) with (a * 10 + n) by lia.
  - assert (Hq : 0 ≤ n / 10 < 10 ^ Z.of_nat (S fuel)).
    { split; [apply Z.div_pos; lia|]. apply Z.div_lt_upper_bound; [lia|].
      rewrite (Nat2Z.inj_succ (S fuel)), Z.pow_succ_r in Hn by lia. lia. }
    destruct (IH (n / 10) (String (digit (n mod 10)) rest) Hq) as (k & Hk & E).
    cbn [showDigits] in E.
    exists (k + 1). split; [lia|]. intros acc Ha. rewrite (E acc Ha).
    cbn [parseDigits]. rewrite digitValue_digit by (pose proof (Z.mod_pos_bound n 10); lia).
    cbn [default].
    replace (a * 10 ^ (k + 1) + n) with ((a * 10 ^ k + n / 10) * 10 + n mod 10);
      [done|].
    rewrite Z.pow_add_r by lia. change (10 ^ 1) with 10.
    pose proof (Z.div_mod n 10 ltac:(lia)). lia.
Qed.

(** The first character of a number: a digit from 1 to 9, or the only
    digit 0. *)
Lemma showDigits_head (fuel : nat) (n : Z) (rest : string) :
  0 ≤ n < 10 ^ Z.of_nat (S fuel) →
  (n = 0 ∧ showDigits (S fuel) n rest = String (digit 0) rest)
  ∨ (0 < n ∧ ∃ d tl, 1 ≤ d ≤ 9 ∧ showDigits (S fuel) n rest = String (digit d) tl).
Proof.
  revert n rest. induction fuel as [|fuel IH]; intros n rest Hn;
    cbn [showDigits]; case_bool_decide as Hlt.
  - rewrite Z.mod_small by lia. destruct (decide (n = 0)) as [->|Hz]; [by left|].
    right. split; [lia|]. exists n, rest. split; [lia | done].
  - simpl in Hn. lia.
  - rewrite Z.mod_small by lia. destruct (decide (n = 0)) as [->|Hz]; [by left|].
    right. split; [lia|]. exists n, rest. split; [lia | done].
  - assert (Hq : 0 ≤ n / 10 < 10 ^ Z.of_nat (S fuel)).
    { split; [apply Z.div_pos; lia|]. apply Z.div_lt_upper_bound; [lia|].
      rewrite (Nat2Z.inj_succ (S fuel)), Z.pow_succ_r in Hn by lia. lia. }
    assert (0 < n / 10) by (apply Z.div_str_pos; lia).
    destruct (IH (n / 10) (String (digit (n mod 10)) rest) Hq) as [[E _]|[_ E]]; [lia|].
    cbn [showDigits] in E. right. split; [lia | exact E].
Qed.

Lemma enough_digits (n : Z) : 0 ≤ n → 0 ≤ n < 10 ^ Z.of_nat (S (Z.to_nat (Z.log2 n))).
Proof.
  intros Hn. split; [done|].
  rewrite Nat2Z.inj_succ, Z2Nat.id by apply Z.log2_nonneg.
  destruct (decide (n = 0)) as [->|Hz]; [simpl; lia|].
  pose proof (Z.log2_spec n) as [_ H]; [lia|].
  eapply Z.lt_le_trans; [exact H|].
  apply Z.pow_le_mono_l. lia.
Qed.

(** What [parseInt] makes of a string that starts with a digit from 1 to
    9. *)
Lemma parseIntStr_digits (d : Z) (tl : string) :
  1 ≤ d ≤ 9 →
  parseIntStr (String (digit d) tl) = parseDigits 10 (String (digit d) tl) None
  ∧ parseIntStr (String "-"%char (String (digit d) tl))
    = (fun n => -1 * n) <$> parseDigits 10 (String (digit d) tl) None.
Proof.
  intros H.
  assert (Hw : isWhite "-" = false) by reflexivity.
  assert (H' : 0 ≤ d ≤ 9) by lia. apply ten_cases in H'.
  destruct H' as [->|[->|[->|[->|[->|[->|[->|[->|[->| ->]]]]]]]]]; [lia|..];
    match goal with |- context [digit ?k] =>
      let c := eval vm_compute in (digit k) in change (digit k) with c end;
    (split; unfold parseIntStr; cbn [trimStart]; rewrite ?Hw;
     try match goal with |- context [isWhite ?c] =>
       let b := eval vm_compute in (isWhite c) in change (isWhite c) with b end;
     cbn -[parseDigits]; destruct (parseDigits _ _ _);
     try done; f_equal; lia).
Qed.

(** [parseInt(String(z))] is [z]. *)
Lemma parseIntStr_showZ (z : Z) : parseIntStr (showZ z) = Some z.
Proof.
  unfold showZ. case_bool_decide as Hz.
  - pose proof (enough_digits (- z) ltac:(lia)) as Hf.
    destruct (showDigits_head _ _ "" Hf) as [[E _]|[_ (d & tl & Hd & E)]]; [lia|].
    destruct (parseDigits_showDigits _ _ "" 0 Hf) as (k & Hk & P).
    specialize (P None eq_refl). rewrite E in P |- *.
    rewrite (proj2 (parseIntStr_digits d tl Hd)), P.
    cbn [parseDigits fmap option_fmap option_map]. f_equal; lia.
  - pose proof (enough_digits z ltac:(lia)) as Hf.
    destruct (parseDigits_showDigits _ _ "" 0 Hf) as (k & Hk & P).
    specialize (P None eq_refl).
    destruct (showDigits_head _ _ "" Hf) as [[-> E]|[_ (d & tl & Hd & E)]].
    + reflexivity.
    + rewrite E in P |- *.
      rewrite (proj1 (parseIntStr_digits d tl Hd)), P.
      cbn [parseDigits]. f_equal; lia.
Qed.

Context `{Json}.

Lemma parseInt_VNum (z : Z) : parseInt (VNum (Some z)) = Some z.
Proof. apply parseIntStr_showZ. Qed.

(** The storage takes reads and writes. *)
Definition working (st : Storage) : Prop := denied st = false ∧ full st = false.

Lemma showZ_not_empty (z : Z) : showZ z ≠ "".
Proof.
  intros E. pose proof (parseIntStr_showZ z) as P. rewrite E in P. discriminate.
Qed.

Lemma set_items key (v : value obj) text st :
  working st → StorageManager.stringValue v = Some text →
  StorageManager.set key v st = mkStorage (<[key := text]> (items st)) false false.
Proof.
  intros [Hd Hf] Hv. unfold StorageManager.set, setItem. rewrite Hv, Hd, Hf. done.
Qed.

Lemma set_working key (v : value obj) st :
  working st → working (StorageManager.set key v st).
Proof.
  intros Hw. destruct (StorageManager.stringValue v) as [text|] eqn:E.
  - by rewrite (set_items _ _ _ _ Hw E).
  - unfold StorageManager.set. by rewrite E.
Qed.

Lemma get_set_ne key key' (v d : value obj) st :
  key' ≠ key →
  StorageManager.get key' d (StorageManager.set key v st) = StorageManager.get key' d st.
Proof.
  intros Hk. unfold StorageManager.set.
  destruct (StorageManager.stringValue v) as [text|]; [|done].
  unfold setItem. destruct (denied st || full st) eqn:E; [done|].
  apply orb_false_iff in E as [Hd Hf].
  unfold StorageManager.get, getItem. cbn [default from_option id denied items].
  rewrite Hd. by rewrite lookup_insert_ne.
Qed.

Lemma getInt_set_ne key key' (v d : value obj) st :
  key' ≠ key →
  StorageManager.getInt key' d (StorageManager.set key v st)
  = StorageManager.getInt key' d st.
Proof. intros Hk. unfold StorageManager.getInt. by rewrite get_set_ne. Qed.

Lemma get_set_num key (z : Z) (d : value obj) st :
  working st → StorageManager.shouldParseJSON key = false →
  StorageManager.get key d (StorageManager.set key (VNum (Some z)) st)
  = VStr (showZ z).
Proof.
  intros Hw Hj. rewrite (set_items key (VNum (Some z)) (showZ z) st Hw eq_refl).
  unfold StorageManager.get, getItem. cbn [denied items].
  rewrite lookup_insert_eq, Hj. cbn [default from_option id].
  destruct (showZ z) eqn:E; [by apply showZ_not_empty in E | done].
Qed.

Lemma getInt_set_num key (z : Z) (d : value obj) st :
  working st → StorageManager.shouldParseJSON key = false →
  StorageManager.getInt key d (StorageManager.set key (VNum (Some z)) st) = Some z.
Proof.
  intros Hw Hj. unfold StorageManager.getInt. rewrite get_set_num by done.
  apply parseIntStr_showZ.
Qed.


End StoredIntegers.

(** ** The daily play limit *)

Section PlayLimit.
Import JS PlayLimitManager.
Context `{Json}.

(** The stored play count and reset time, as the manager reads them. *)
Definition playCount (st : Storage) : num :=
  StorageManager.getInt STORAGE_KEYS.PLAY_COUNT (VNum (Some 0)) st.

Definition resetTime (st : Storage) : num :=
  StorageManager.getInt STORAGE_KEYS.PLAY_RESET_TIME (VNum (Some 0)) st.

(** Plays recorded at the times [ts], one after the other. *)
Definition plays (ts : list Z) (st : Storage) : Storage :=
  foldl (fun st t => recordPlay t st) st ts.

Lemma checkAndResetPlays_due now st :
  working st → ge (Some now) (resetTime st) = true →
  let st' := checkAndResetPlays now st in
  working st' ∧ playCount st' = Some 0 ∧ resetTime st' = Some (now + RESET_PERIOD).
Proof.
  intros Hw Hd. cbv zeta. unfold checkAndResetPlays. fold (resetTime st).
  rewrite Hd. unfold playCount, resetTime.
  set (st1 := StorageManager.set STORAGE_KEYS.PLAY_COUNT (VNum (Some 0)) st).
  set (st2 := StorageManager.set STORAGE_KEYS.SCORE_SUBMISSIONS (VObj emptyArray) st1).
  assert (Hw1 : working st1) by by apply set_working.
  assert (Hw2 : working st2) by by apply set_working.
  split; [by apply set_working|]. split.
  - subst st2 st1. rewrite !getInt_set_ne by done. by apply getInt_set_num.
  - by apply getInt_set_num.
Qed.

Lemma checkAndResetPlays_not_due now st :
  ge (Some now) (resetTime st) = false → checkAndResetPlays now st = st.
Proof. intros Hd. unfold checkAndResetPlays. fold (resetTime st). by rewrite Hd. Qed.

(** Inside a window that ends at [ending], with [k] plays recorded. *)
Definition in_window (ending k : Z) (st : Storage) : Prop :=
  working st ∧ resetTime st = Some ending ∧ playCount st = Some k.

Lemma recordPlay_in_window ending k now st :
  in_window ending k st → now < ending →
  in_window ending (k + 1) (recordPlay now st).
Proof.
  intros (Hw & Hr & Hc) Hn. unfold recordPlay.
  rewrite checkAndResetPlays_not_due
    by (rewrite Hr; cbn; by apply bool_decide_eq_false_2; lia).
  fold (playCount st). rewrite Hc. cbn [add].
  split; [by apply set_working|]. split.
  - unfold resetTime. rewrite getInt_set_ne by done. exact Hr.
  - unfold playCount. by apply getInt_set_num.
Qed.

Lemma plays_in_window ending k ts st :
  in_window ending k st → Forall (fun t => t < ending) ts →
  in_window ending (k + Z.of_nat (length ts)) (plays ts st).
Proof.
  revert k st. induction ts as [|t ts IH]; intros k st Hi Hf; cbn [plays foldl length].
  - by rewrite Z.add_0_r.
  - inversion_clear Hf. rewrite Nat2Z.inj_succ.
    replace (k + Z.succ (Z.of_nat (length ts)))
      with (k + 1 + Z.of_nat (length ts)) by lia.
    apply IH; [|done]. by apply recordPlay_in_window.
Qed.

Lemma getPlaysRemaining_in_window ending k now st :
  in_window ending k st → now < ending →
  getPlaysRemaining now st = (Some (Z.max 0 (MAX_FREE_PLAYS - k)), st).
Proof.
  intros (Hw & Hr & Hc) Hn. unfold getPlaysRemaining.
  rewrite checkAndResetPlays_not_due
    by (rewrite Hr; cbn; by apply bool_decide_eq_false_2; lia).
  fold (playCount st). by rewrite Hc.
Qed.

Lemma getPlaysRemaining_due ending k now st :
  in_window ending k st → ending ≤ now →
  fst (getPlaysRemaining now st) = Some MAX_FREE_PLAYS
  ∧ in_window (now + RESET_PERIOD) 0 (snd (getPlaysRemaining now st)).
Proof.
  intros (Hw & Hr & Hc) Hn. unfold getPlaysRemaining.
  destruct (checkAndResetPlays_due now st) as (Hw' & Hc' & Hr'); [done| |].
  { rewrite Hr. cbn. by apply bool_decide_eq_true_2. }
  cbn [fst snd]. fold (playCount (checkAndResetPlays now st)). rewrite Hc'.
  done.
Qed.

(** (X14) A check at [t0] at which the reset is due (as on the first visit,
    no reset time being stored) opens a window of 24 hours.  After [n] plays
    recorded within the window, [max(0, 2 - n)] plays remain at any moment
    of the window and [canPlay] holds exactly while fewer than two plays are
    recorded; none of these reads changes the storage.  At the end of the
    window two plays remain again. *)
Theorem two_free_plays_a_day (st : Storage) (t0 : Z) (ts : list Z) :
  working st → ge (Some t0) (resetTime st) = true →
  Forall (fun t => t < t0 + RESET_PERIOD) ts →
  let st1 := plays ts (checkAndResetPlays t0 st) in
  let n := Z.of_nat (length ts) in
  (∀ t, t < t0 + RESET_PERIOD →
     getPlaysRemaining t st1 = (Some (Z.max 0 (2 - n)), st1)
     ∧ canPlay t st1 = (bool_decide (n < 2), st1))
  ∧ (∀ t, t0 + RESET_PERIOD ≤ t →
       fst (getPlaysRemaining t st1) = Some 2 ∧ fst (canPlay t st1) = true).
Proof.
  intros Hw Hd Hts st1 n.
  assert (Hi : in_window (t0 + RESET_PERIOD) n st1).
  { destruct (checkAndResetPlays_due t0 st Hw Hd) as (Hw' & Hc' & Hr').
    apply (plays_in_window _ 0); [done | done]. }
  split.
  - intros t Ht.
    pose proof (getPlaysRemaining_in_window _ _ t st1 Hi Ht) as E.
    split; [exact E|]. unfold canPlay. rewrite E. cbn [gt]. f_equal.
    unfold MAX_FREE_PLAYS. apply bool_decide_ext. lia.
  - intros t Ht.
    destruct (getPlaysRemaining_due _ _ t st1 Hi Ht) as (E & _).
    split; [exact E|]. unfold canPlay.
    destruct (getPlaysRemaining t st1) as [r st2]. cbn [fst] in *. by subst r.
Qed.

(** (X15) When the storage refuses every access, or every write, nothing
    is recorded: a play leaves the storage as it is.  With every access
    refused two plays remain at any moment, however many were recorded. *)
Theorem unrecorded_plays (st : Storage) (ts : list Z) (t : Z) :
  (denied st = true ∨ full st = true → plays ts st = st)
  ∧ (denied st = true →
       getPlaysRemaining t (plays ts st) = (Some 2, st)
       ∧ canPlay t (plays ts st) = (true, st)).
Proof.
  assert (Hset : ∀ key (v : value obj),
            denied st = true ∨ full st = true → StorageManager.set key v st = st).
  { intros key v Hf. unfold StorageManager.set, setItem.
    destruct (StorageManager.stringValue v); [|done].
    by destruct Hf as [-> | ->]; destruct (denied st). }
  assert (Hcheck : ∀ now, denied st = true ∨ full st = true →
            checkAndResetPlays now st = st).
  { intros now Hf. unfold checkAndResetPlays. destruct (ge _ _); [|done].
    by rewrite !Hset. }
  assert (Hplay : ∀ now, denied st = true ∨ full st = true → recordPlay now st = st).
  { intros now Hf. unfold recordPlay. rewrite (Hcheck now Hf). by apply Hset. }
  assert (Hplays : denied st = true ∨ full st = true → plays ts st = st).
  { intros Hf. induction ts as [|t' ts IH]; simpl; [done|]. by rewrite Hplay. }
  split; [exact Hplays|]. intros Hd. rewrite Hplays by by left.
  assert (E : getPlaysRemaining t st = (Some 2, st)).
  { unfold getPlaysRemaining. rewrite Hcheck by by left.
    unfold StorageManager.getInt, StorageManager.get, getItem. rewrite Hd.
    by rewrite parseInt_VNum. }
  split; [exact E|]. unfold canPlay. by rewrite E.
Qed.

(** (X16) The time to the reset is the stored reset time less the clock,
    not below 0, in whole hours and whole minutes of the hour begun: the
    minutes lie between 0 and 59 and the two together fall short of the time
    by less than a minute.  The reset time is read with the default of 24
    hours from the first reading of the clock. *)
Theorem time_until_reset (st : Storage) (now1 now2 r : Z) :
  StorageManager.getInt STORAGE_KEYS.PLAY_RESET_TIME
    (VNum (Some (now1 + RESET_PERIOD))) st = Some r →
  let left := getTimeUntilReset now1 now2 st in
  let diff := Z.max 0 (r - now2) in
  totalMs left = Some diff
  ∧ ∃ h m, hours left = Some h ∧ minutes left = Some m
      ∧ 0 ≤ h ∧ 0 ≤ m < 60
      ∧ h * 3600000 + m * 60000 ≤ diff < h * 3600000 + (m + 1) * 60000.
Proof.
  intros Hr left diff. subst left. unfold getTimeUntilReset. rewrite Hr.
  cbn [sub max floorDiv rem totalMs hours minutes]. fold diff.
  split; [done|].
  exists (diff / 3600000), (Z.rem diff 3600000 / 60000).
  split; [done|]. split; [done|].
  assert (Hd : 0 ≤ diff) by (unfold diff; lia).
  rewrite Z.rem_mod_nonneg by lia.
  pose proof (Z.div_mod diff 3600000 ltac:(lia)) as E1.
  pose proof (Z.mod_pos_bound diff 3600000 ltac:(lia)) as B1.
  pose proof (Z.div_mod (diff mod 3600000) 60000 ltac:(lia)) as E2.
  pose proof (Z.mod_pos_bound (diff mod 3600000) 60000 ltac:(lia)) as B2.
  assert (0 ≤ diff / 3600000) by (apply Z.div_pos; lia).
  assert (0 ≤ diff mod 3600000 / 60000) by (apply Z.div_pos; lia).
  assert (diff mod 3600000 / 60000 < 60)
    by (apply Z.div_lt_upper_bound; lia).
  lia.
Qed.

End PlayLimit.

(** ** Experience and levels *)

Section Experience.
Import JS Experience GameOverScene.
Context `{Json}.

(** The sum of a list of integers. *)
Definition total (l : list Z) : Z := foldr Z.add 0 l.

(** The chips a level gained is rewarded with. *)
Definition chips (level : Z) : Z :=
  match getLevelReward level with
  | Some reward => if String.eqb (type reward) "currency" then amount reward else 0
  | None => 0
  end.

Lemma total_app (l k : list Z) : total (l ++ k) = total l + total k.
Proof. unfold total. induction l as [|x l IH]; simpl; lia. Qed.

Lemma getXPForLevel_positive (l : Z) : 1 ≤ l → 1 ≤ getXPForLevel l.
Proof.
  intros Hl. unfold getXPForLevel.
  assert (Hp : (1 <= (3 # 2) ^ (l - 1))%Q) by (apply Qpower_1_le; [done | lia]).
  assert (Hq : (1 <= 100 * (3 # 2) ^ (l - 1))%Q).
  { remember ((3 # 2) ^ (l - 1))%Q as q. clear Heqq. lra. }
  apply (Qfloor_resp_le 1) in Hq. exact Hq.
Qed.

Lemma levelLoop_spec (xpForLevel : Z → Z) (top : Z) (fuel : nat) :
  ∀ xp lvl ups,
    (∀ l, top < l → 1 ≤ xpForLevel l) → top ≤ lvl →
    (Z.to_nat xp < fuel)%nat →
    ∃ xp' new,
      levelLoop xpForLevel fuel xp lvl ups
      = Some (xp', lvl + Z.of_nat (length new), ups ++ new)
      ∧ new = seqZ (lvl + 1) (Z.of_nat (length new))
      ∧ xp = xp' + total (xpForLevel <$> new)
      ∧ xp' < xpForLevel (lvl + Z.of_nat (length new) + 1)
      ∧ (0 ≤ xp → 0 ≤ xp').
Proof.
  induction fuel as [|fuel IH]; intros xp lvl ups Hpos Htop Hfuel; [lia|].
  cbn [levelLoop]. case_bool_decide as Hge.
  - pose proof (Hpos (lvl + 1) ltac:(lia)) as H1.
    destruct (IH (xp - xpForLevel (lvl + 1)) (lvl + 1) (ups ++ [lvl + 1]))
      as (xp' & new & Hrun & Hnew & Hsum & Hlt & Hnn);
      [done | lia | clear IH Hpos; remember (xpForLevel (lvl + 1)) as t; lia |].
    exists xp', ((lvl + 1) :: new). cbn [length fmap list_fmap total foldr].
    rewrite Nat2Z.inj_succ.
    replace (lvl + Z.succ (Z.of_nat (length new)))
      with (lvl + 1 + Z.of_nat (length new)) by lia.
    split_and!.
    + by rewrite Hrun, <- app_assoc.
    + rewrite seqZ_cons by lia. f_equal.
      rewrite Hnew at 1. f_equal; lia.
    + unfold total in Hsum. lia.
    + done.
    + lia.
  - exists xp, []. cbn [length fmap list_fmap total foldr].
    replace (lvl + Z.of_nat 0) with lvl by lia. rewrite app_nil_r.
    split_and!; [done | done | lia | lia | done].
Qed.

Lemma giveReward_working st level : working st → working (giveReward st level).
Proof.
  intros Hw. unfold giveReward. destruct (getLevelReward level); [|done].
  destruct (String.eqb _ _); [|done]. by apply set_working.
Qed.

Lemma giveReward_other key d st level :
  key ≠ STORAGE_KEYS.CURRENCY →
  StorageManager.getInt key d (giveReward st level) = StorageManager.getInt key d st.
Proof.
  intros Hk. unfold giveReward. destruct (getLevelReward level); [|done].
  destruct (String.eqb _ _); [|done]. by apply getInt_set_ne.
Qed.

Lemma giveReward_currency st level c :
  working st →
  StorageManager.getInt STORAGE_KEYS.CURRENCY (VNum (Some 0)) st = Some c →
  StorageManager.getInt STORAGE_KEYS.CURRENCY (VNum (Some 0)) (giveReward st level)
  = Some (c + chips level).
Proof.
  intros Hw Hc. unfold giveReward, chips.
  destruct (getLevelReward level) as [reward|].
  - destruct (String.eqb _ _).
    + rewrite Hc. cbn [add]. by apply getInt_set_num.
    + rewrite Hc. f_equal. lia.
  - rewrite Hc. f_equal. lia.
Qed.

Lemma rewards_given ups : ∀ st c,
  working st →
  StorageManager.getInt STORAGE_KEYS.CURRENCY (VNum (Some 0)) st = Some c →
  let st' := foldl giveReward st ups in
  working st'
  ∧ StorageManager.getInt STORAGE_KEYS.CURRENCY (VNum (Some 0)) st'
    = Some (c + total (chips <$> ups))
  ∧ ∀ key d, key ≠ STORAGE_KEYS.CURRENCY →
      StorageManager.getInt key d st' = StorageManager.getInt key d st.
Proof.
  induction ups as [|l ups IH]; intros st c Hw Hc; cbn [foldl fmap list_fmap total foldr].
  - split_and!; [done | rewrite Hc; f_equal; lia | done].
  - destruct (IH (giveReward st l) (c + chips l)) as (Hw' & Hc' & Ho);
      [by apply giveReward_working | by apply giveReward_currency |].
    split_and!; [done | |].
    + rewrite Hc'. f_equal. unfold total. lia.
    + intros key d Hk. rewrite Ho by done. by apply giveReward_other.
Qed.

(** (X17) At the end of a run the experience earned is added to the stored
    experience and turned into levels: with thresholds of at least one
    point, [create] ends; the levels gained are the next ones in order, the
    experience before and the experience earned are the experience left and
    the thresholds of the levels gained, the experience left is below the
    next threshold, the new level and experience are what the storage then
    holds, and the stored chips grow by the rewards of the levels gained. *)
Theorem experience_turns_into_levels (xpForLevel : Z → Z) (e lvl xp c : Z)
    (st : Storage) :
  working st →
  StorageManager.getInt STORAGE_KEYS.PLAYER_LEVEL (VNum (Some 1)) st = Some lvl →
  StorageManager.getInt STORAGE_KEYS.PLAYER_XP (VNum (Some 0)) st = Some xp →
  StorageManager.getInt STORAGE_KEYS.CURRENCY (VNum (Some 0)) st = Some c →
  (∀ l, lvl < l → 1 ≤ xpForLevel l) →
  0 ≤ e →
  ∃ p xp',
    create xpForLevel (Some e) st = Some p
    ∧ 0 ≤ earned p
    ∧ levelUps p = seqZ (lvl + 1) (Z.of_nat (length (levelUps p)))
    ∧ newLevel p = Some (lvl + Z.of_nat (length (levelUps p)))
    ∧ newXP p = Some xp'
    ∧ xp + earned p = xp' + total (xpForLevel <$> levelUps p)
    ∧ xp' < xpForLevel (lvl + Z.of_nat (length (levelUps p)) + 1)
    ∧ (0 ≤ xp → 0 ≤ xp')
    ∧ StorageManager.getInt STORAGE_KEYS.PLAYER_LEVEL (VNum (Some 1)) (storage p)
      = newLevel p
    ∧ StorageManager.getInt STORAGE_KEYS.PLAYER_XP (VNum (Some 0)) (storage p)
      = newXP p
    ∧ StorageManager.getInt STORAGE_KEYS.CURRENCY (VNum (Some 0)) (storage p)
      = Some (c + total (chips <$> levelUps p)).
Proof.
  intros Hw Hl Hx Hc Hpos He. unfold create. rewrite Hl, Hx.
  cbn [add orZero default from_option id].
  set (earnedXP := Binary64.floor _).
  assert (Hearned : 0 ≤ earnedXP).
  { apply floor_nonneg, mul_nonneg; [by apply ofZ_nonneg|].
    apply bonuses_nonneg. }
  destruct (levelLoop_spec xpForLevel lvl (S (Z.to_nat (xp + earnedXP)))
              (xp + earnedXP) lvl [])
    as (xp' & new & Hrun & Hnew & Hsum & Hlt & Hnn); [done | lia | lia |].
  rewrite Hrun. cbn [fmap option_fmap option_map app].
  set (st1 := StorageManager.set STORAGE_KEYS.PLAYER_LEVEL _ st).
  set (st2 := StorageManager.set STORAGE_KEYS.PLAYER_XP _ st1).
  assert (Hw1 : working st1) by by apply set_working.
  assert (Hw2 : working st2) by by apply set_working.
  assert (Hc2 : StorageManager.getInt STORAGE_KEYS.CURRENCY (VNum (Some 0)) st2 = Some c).
  { subst st2 st1. by rewrite !getInt_set_ne. }
  destruct (rewards_given new st2 c Hw2 Hc2) as (Hw3 & Hc3 & Ho).
  eexists _, xp'. split; [reflexivity|].
  cbn [earned levelUps newLevel newXP storage].
  split_and!; try done; try lia.
  - rewrite Ho by done. subst st2. rewrite getInt_set_ne by done.
    subst st1. by apply getInt_set_num.
  - rewrite Ho by done. subst st2. by apply getInt_set_num.
Qed.

End Experience.

Section StoredRuns.
Import JS PlayLimitManager Experience GameOverScene.

(** A runtime whose only object is the empty array. *)
Definition arrays_only : Json :=
  {| obj := unit;
     JSON_parse := fun text => if String.eqb text "[]" then Some (VObj ()) else None;
     JSON_stringify := fun _ => Some "[]";
     objToString := fun _ => "";
     emptyArray := () |}.

(** A working storage with nothing stored. *)
Definition empty_storage : Storage := mkStorage ∅ false false.


Lemma two_free_plays_a_day_witness :
  fst (canPlay (H := arrays_only) 5000
         (plays (H := arrays_only) [2000; 3000]
            (checkAndResetPlays (H := arrays_only) 1000 empty_storage))) = false.
Proof.
  destruct (two_free_plays_a_day (H := arrays_only) empty_storage 1000 [2000; 3000])
    as [Hin _].
  - split; reflexivity.
  - vm_compute; reflexivity.
  - repeat constructor.
  - destruct (Hin 5000) as [_ Hcan]; [reflexivity|].
    rewrite Hcan. reflexivity.
Defined.

Lemma time_until_reset_witness :
  totalMs (getTimeUntilReset (H := arrays_only) 1000 61000 empty_storage)
  = Some 86340000.
Proof.
  refine (proj1 (time_until_reset (H := arrays_only) empty_storage 1000 61000
                   86401000 _)).
  vm_compute; reflexivity.
Defined.

Lemma experience_turns_into_levels_witness :
  ∃ p, create (H := arrays_only) Experience.getXPForLevel (Some 600)
         (StorageManager.set (H := arrays_only) STORAGE_KEYS.PLAYER_LEVEL
            (VNum (Some 4)) empty_storage) = Some p.
Proof.
  destruct (experience_turns_into_levels (H := arrays_only) getXPForLevel 600 4 0 0
              (StorageManager.set (H := arrays_only) STORAGE_KEYS.PLAYER_LEVEL
                 (VNum (Some 4)) empty_storage))
    as (p & xp' & Hp & _).
  - split; reflexivity.
  - vm_compute; reflexivity.
  - vm_compute; reflexivity.
  - vm_compute; reflexivity.
  - intros l Hl. apply getXPForLevel_positive. lia.
  - lia.
  - exists p. exact Hp.
Defined.

End StoredRuns.
